(** * regex-search-server: the search core of [server.js]

    A shallow embedding of the two request handlers of [src/server.js],
    [handleRegexSearch] and [handleRegexSearchDirectory], together with the
    parts of the JavaScript platform they call: [String.prototype.split] and
    [startsWith], [RegExp] construction and [RegExp.prototype.exec],
    [path.extname] and [path.join], and the synchronous [fs] calls.

    Strings are [String.string]; one character stands for one code unit.
    Indices, line numbers and columns are [nat].  The [while] loop around
    [exec] may run forever, so it takes a fuel argument and answers [None]
    when the fuel is used up; every function built on it does the same. *)

From Stdlib Require Import String Ascii List Arith Bool ZArith Lia Sorted.
Import ListNotations.
Open Scope string_scope.
Open Scope list_scope.

Set Implicit Arguments.

(** ** Completions: a value or a thrown exception *)

Inductive completion (A : Type) : Type :=
| Normal (a : A)
| Throw (message : string).

Arguments Normal {A} a.
Arguments Throw {A} message.

(** ** JavaScript strings *)

Module JsString.

Definition LF : ascii := "010"%char.

(** [s.split("\n")]: the pieces between line feeds; never the empty list. *)
Fixpoint split (s : string) : list string :=
  match s with
  | EmptyString => [EmptyString]
  | String c rest =>
      if Ascii.eqb c LF then EmptyString :: split rest
      else match split rest with
           | [] => [String c EmptyString]
           | piece :: pieces => String c piece :: pieces
           end
  end.

(** [s.startsWith(p)] *)
Definition startsWith (s p : string) : bool := String.prefix p s.

(** [s.slice(from, to)] for [0 <= from <= to]. *)
Definition slice (s : string) (from to : nat) : string :=
  String.substring from (to - from) s.

(** [xs.includes(x)] on an array of strings. *)
Definition includes (xs : list string) (x : string) : bool :=
  existsb (String.eqb x) xs.

End JsString.

(** ** Regular expressions: the [RegExp] built-in

    The pattern language itself is the engine's business.  An engine parses
    a pattern source under a set of flags into a matcher, and a matcher, run
    on an input at an index, fails or yields the end index of the match that
    starts there (the abstract closure [[RegExpMatcher]] of ECMAScript). *)

Module RegExp.

Record Flags : Type := mkFlags {
  hasIndices : bool;   (* d *)
  global : bool;       (* g *)
  ignoreCase : bool;   (* i *)
  multiline : bool;    (* m *)
  dotAll : bool;       (* s *)
  unicode : bool;      (* u *)
  unicodeSets : bool;  (* v *)
  sticky : bool        (* y *)
}.

Definition noFlags : Flags :=
  mkFlags false false false false false false false false.

(** One flag character added to a flag set; [None] for a character that is
    no flag or is there already. *)
Definition addFlag (c : ascii) (f : Flags) : option Flags :=
  let once (seen : bool) (f' : Flags) := if seen then None else Some f' in
  match c with
  | "d"%char => once (hasIndices f)
      (mkFlags true (global f) (ignoreCase f) (multiline f) (dotAll f) (unicode f) (unicodeSets f) (sticky f))
  | "g"%char => once (global f)
      (mkFlags (hasIndices f) true (ignoreCase f) (multiline f) (dotAll f) (unicode f) (unicodeSets f) (sticky f))
  | "i"%char => once (ignoreCase f)
      (mkFlags (hasIndices f) (global f) true (multiline f) (dotAll f) (unicode f) (unicodeSets f) (sticky f))
  | "m"%char => once (multiline f)
      (mkFlags (hasIndices f) (global f) (ignoreCase f) true (dotAll f) (unicode f) (unicodeSets f) (sticky f))
  | "s"%char => once (dotAll f)
      (mkFlags (hasIndices f) (global f) (ignoreCase f) (multiline f) true (unicode f) (unicodeSets f) (sticky f))
  | "u"%char => once (unicode f)
      (mkFlags (hasIndices f) (global f) (ignoreCase f) (multiline f) (dotAll f) true (unicodeSets f) (sticky f))
  | "v"%char => once (unicodeSets f)
      (mkFlags (hasIndices f) (global f) (ignoreCase f) (multiline f) (dotAll f) (unicode f) true (sticky f))
  | "y"%char => once (sticky f)
      (mkFlags (hasIndices f) (global f) (ignoreCase f) (multiline f) (dotAll f) (unicode f) (unicodeSets f) true)
  | _ => None
  end.

Fixpoint addFlags (s : string) (f : Flags) : option Flags :=
  match s with
  | EmptyString => Some f
  | String c rest =>
      match addFlag c f with
      | Some f' => addFlags rest f'
      | None => None
      end
  end.

(** The flag string of [new RegExp(pattern, flags)]: every character one of
    [dgimsuvy], none twice, and not both [u] and [v]. *)
Definition parseFlags (s : string) : option Flags :=
  match addFlags s noFlags with
  | Some f => if unicode f && unicodeSets f then None else Some f
  | None => None
  end.

Class Engine : Type := {
  matcher : Type;
  (** the pattern parser; [inr] carries the message of the SyntaxError *)
  parsePattern : string -> Flags -> matcher + string;
  (** [runMatcher m input index]: the end index of the match at [index] *)
  runMatcher : matcher -> string -> nat -> option nat
}.

Section WithEngine.

Context {E : Engine}.

(** A RegExp object: what it was compiled from and its [lastIndex]. *)
Record regexp : Type := mkRegExp {
  source : string;
  flags : Flags;
  compiled : matcher;
  lastIndex : nat
}.

Definition setLastIndex (R : regexp) (i : nat) : regexp :=
  mkRegExp (source R) (flags R) (compiled R) i.

(** [new RegExp(pattern, flags)] *)
Definition newRegExp (pattern flagString : string) : completion regexp :=
  match parseFlags flagString with
  | None =>
      Throw ("Invalid flags supplied to RegExp constructor '" ++ flagString ++ "'")
  | Some f =>
      match parsePattern pattern f with
      | inr message => Throw message
      | inl m => Normal (mkRegExp pattern f m 0)
      end
  end.

(** The match array of [exec], as far as the handlers read it:
    [match.index] and [match[0]]. *)
Record execResult : Type := mkExecResult {
  index : nat;
  matched : string
}.

(** The search loop of RegExpBuiltinExec: try the matcher at the index; on
    failure give up when sticky, else move one index on.  [positions] is the
    number of indices left up to and including the length of the input. *)
Fixpoint scanFrom (m : matcher) (input : string) (isSticky : bool)
    (positions i : nat) : option (nat * nat) :=
  match positions with
  | 0 => None
  | S positions' =>
      match runMatcher m input i with
      | Some e => Some (i, e)
      | None =>
          if isSticky then None
          else scanFrom m input isSticky positions' (S i)
      end
  end.

(** [R.exec(input)]: the match found, or [null], and the RegExp object as the
    call leaves it.  Only a global or sticky RegExp reads and writes
    [lastIndex]; any other starts at index 0 on every call. *)
Definition exec (R : regexp) (input : string) : option execResult * regexp :=
  let len := String.length input in
  let tracked := global (flags R) || sticky (flags R) in
  let start := if tracked then lastIndex R else 0 in
  let failed := if tracked then setLastIndex R 0 else R in
  if (len <? start)%nat then (None, failed)
  else
    match scanFrom (compiled R) input (sticky (flags R)) (S (len - start)) start with
    | None => (None, failed)
    | Some (i, e) =>
        (Some (mkExecResult i (JsString.slice input i e)),
         if tracked then setLastIndex R e else R)
    end.

End WithEngine.

End RegExp.

(** ** Paths: [path.extname] and [path.join] (POSIX) *)

Module Path.

Record extState : Type := mkExtState {
  startDot : option nat;   (* -1 is [None] *)
  startPart : nat;
  endPart : option nat;    (* [end]; -1 is [None] *)
  matchedSlash : bool;
  preDotState : Z
}.

Definition extInit : extState := mkExtState None 0 None true 0%Z.

(** The loop of [extname], from the last character down to the first.  The
    argument lists the characters still to visit, last one first, so the
    index [i] of the character at hand is the number of those after it. *)
Fixpoint extScan (pending : list ascii) (st : extState) : extState :=
  match pending with
  | [] => st
  | code :: before =>
      let i := List.length before in
      if Ascii.eqb code "/"%char then
        if negb (matchedSlash st) then
          (* startPart = i + 1; break *)
          mkExtState (startDot st) (i + 1) (endPart st) (matchedSlash st) (preDotState st)
        else extScan before st
      else
        let st1 :=
          match endPart st with
          | None => mkExtState (startDot st) (startPart st) (Some (i + 1)) false (preDotState st)
          | Some _ => st
          end in
        let st2 :=
          if Ascii.eqb code "."%char then
            match startDot st1 with
            | None => mkExtState (Some i) (startPart st1) (endPart st1) (matchedSlash st1) (preDotState st1)
            | Some _ =>
                if negb (Z.eqb (preDotState st1) 1) then
                  mkExtState (startDot st1) (startPart st1) (endPart st1) (matchedSlash st1) 1%Z
                else st1
            end
          else
            match startDot st1 with
            | Some _ => mkExtState (startDot st1) (startPart st1) (endPart st1) (matchedSlash st1) (-1)%Z
            | None => st1
            end in
        extScan before st2
  end.

(** [path.extname(p)] *)
Definition extname (p : string) : string :=
  let st := extScan (rev (list_ascii_of_string p)) extInit in
  match startDot st, endPart st with
  | Some sd, Some e =>
      if Z.eqb (preDotState st) 0
         || (Z.eqb (preDotState st) 1 && Nat.eqb sd (e - 1) && Nat.eqb sd (startPart st + 1))
      then EmptyString
      else JsString.slice p sd e
  | _, _ => EmptyString
  end.

(** [path.join(dir, name)] where [dir] is a resolved directory path and
    [name] an entry that [readdirSync] lists: nothing is left to normalise
    but the separator after the root directory. *)
Definition join (dir name : string) : string :=
  if String.eqb dir "/" then "/" ++ name else dir ++ "/" ++ name.

End Path.

(** ** The file system, as the synchronous [fs] calls see it

    What lies at a path is a tree.  A directory lists its entries in the
    order [readdirSync] enumerates them. *)

Module Fs.

#[local] Set Warnings "-register-all".

Inductive node : Type :=
| File (read : string + string)
    (* a regular file: its text, or the message [readFileSync] throws *)
| Dir (entries : list (string * node))
| DirErr (message : string)
    (* a directory that [readdirSync] cannot list *)
| Other (read : string + string)
    (* neither [isFile()] nor [isDirectory()]: socket, FIFO, device *)
| NoStat (message : string).
    (* an entry on which [statSync] throws, e.g. a dangling link *)

(** [fs.existsSync] on what lies at the path, [None] being nothing. *)
Definition existsSync (at_path : option node) : bool :=
  match at_path with
  | None | Some (NoStat _) => false
  | Some _ => true
  end.

Record Stats : Type := mkStats { isDirectory : bool; isFile : bool }.

(** [fs.statSync] *)
Definition statSync (n : node) : completion Stats :=
  match n with
  | File _ => Normal (mkStats false true)
  | Dir _ | DirErr _ => Normal (mkStats true false)
  | Other _ => Normal (mkStats false false)
  | NoStat message => Throw message
  end.

(** [fs.readFileSync(path, "utf-8")] *)
Definition readFileSync (n : node) : completion string :=
  match n with
  | File (inl text) | Other (inl text) => Normal text
  | File (inr message) | Other (inr message) => Throw message
  | Dir _ | DirErr _ => Throw "EISDIR: illegal operation on a directory, read"
  | NoStat message => Throw message
  end.

(** [fs.readdirSync] *)
Definition readdirSync (n : node) : completion (list (string * node)) :=
  match n with
  | Dir entries => Normal entries
  | DirErr message => Throw message
  | File _ | Other _ => Throw "ENOTDIR: not a directory, scandir"
  | NoStat message => Throw message
  end.

End Fs.

(** ** Control: state, exceptions and divergence

    A computation runs on a state and either uses up its fuel ([None]) or
    ends, normally or by throwing, in a new state.  What was written to the
    state before a throw stays written. *)

Module Control.

Definition M (S A : Type) : Type := S -> option (completion A * S).

Definition ret {S A : Type} (a : A) : M S A :=
  fun s => Some (Normal a, s).

Definition throw {S A : Type} (message : string) : M S A :=
  fun s => Some (Throw message, s).

Definition bind {S A B : Type} (m : M S A) (k : A -> M S B) : M S B :=
  fun s =>
    match m s with
    | None => None
    | Some (Throw message, s') => Some (Throw message, s')
    | Some (Normal a, s') => k a s'
    end.

(** [try { m } catch (error) { handler(error.message) }] *)
Definition tryCatch {S A : Type} (m : M S A) (handler : string -> M S A) : M S A :=
  fun s =>
    match m s with
    | Some (Throw message, s') => handler message s'
    | other => other
    end.

Definition get {S : Type} : M S S := fun s => Some (Normal s, s).

Definition modify {S : Type} (f : S -> S) : M S unit :=
  fun s => Some (Normal tt, f s).

(** A platform call that returns or throws. *)
Definition call {S A : Type} (c : completion A) : M S A :=
  fun s => Some (c, s).

(** A loop that may not end. *)
Definition loop {S A : Type} (r : option A) : M S A :=
  fun s => match r with Some a => Some (Normal a, s) | None => None end.

End Control.

Import Control.

Notation "x <- m ;; k" := (bind m (fun x => k))
  (at level 61, m at next level, right associativity).
Notation "m ;;; k" := (bind m (fun _ => k))
  (at level 61, right associativity).

(** ** The handlers of [server.js] *)

Module Server.

Import RegExp.

(** One entry of [lineMatches]. *)
Record Match : Type := mkMatch {
  matchText : string;
  column : nat
}.

(** One entry of [matches] (single file) or [fileMatches] (directory). *)
Record LineResult : Type := mkLineResult {
  lineNumber : nat;
  content : string;
  matches : list Match
}.

(** One entry of [results] in a directory search. *)
Record FileResult : Type := mkFileResult {
  file : string;
  matchCount : nat;
  fileResults : list LineResult
}.

(** The [result] object of [handleRegexSearch]. *)
Record FileSummary : Type := mkFileSummary {
  summaryFile : string;
  filePattern : string;
  fileFlags : string;
  fileTotalMatches : nat;
  lineResults : list LineResult
}.

(** The [result] object of [handleRegexSearchDirectory]. *)
Record DirSummary : Type := mkDirSummary {
  directory : string;
  dirPattern : string;
  dirFlags : string;
  extensions : list string;
  filesMatched : nat;
  totalMatches : nat;
  results : list FileResult
}.

(** What a handler returns: the result object (serialised by the caller's
    side of the boundary) or a text with [isError: true]. *)
Inductive response (R : Type) : Type :=
| Content (result : R)
| IsError (text : string).

Arguments Content {R} result.
Arguments IsError {R} text.

(** [matches.reduce((sum, m) => sum + m.matches.length, 0)] *)
Definition countMatches (lines : list LineResult) : nat :=
  fold_left (fun sum m => sum + List.length (matches m)) lines 0.

(** The [results] array and the [totalMatches] counter that the closure
    [searchDirectory] writes to. *)
Record walkState : Type := mkWalkState {
  walkResults : list FileResult;
  walkTotal : nat
}.

Definition pushResult (r : FileResult) (st : walkState) : walkState :=
  mkWalkState (walkResults st ++ [r]) (walkTotal st).

Definition addTotal (n : nat) (st : walkState) : walkState :=
  mkWalkState (walkResults st) (walkTotal st + n).

(** The [try]/[catch] that wraps the body of either handler. *)
Definition respond {S R : Type} (body : M S (response R)) (s : S)
    : option (response R) :=
  match body s with
  | None => None
  | Some (Normal r, _) => Some r
  | Some (Throw message, _) => Some (IsError ("Error: " ++ message))
  end.

Section Handlers.

Context {E : Engine}.

(** [path.resolve], which depends on the working directory of the process. *)
Variable resolve : string -> string.

(** What lies at each resolved path. *)
Variable fsys : string -> option Fs.node.

Definition readFileAt (p : string) : completion string :=
  match fsys p with
  | Some n => Fs.readFileSync n
  | None => Throw ("ENOENT: no such file or directory, open '" ++ p ++ "'")
  end.

(** [while ((match = lineRegex.exec(line)) !== null) lineMatches.push(...)]
    (lines 129-134 and 228-233).  One unit of fuel pays for one call of
    [exec]. *)
Fixpoint whileExec (fuel : nat) (lineRegex : regexp) (line : string)
    (lineMatches : list Match) : option (list Match) :=
  match fuel with
  | 0 => None
  | S fuel' =>
      match exec lineRegex line with
      | (None, _) => Some lineMatches
      | (Some m, lineRegex') =>
          whileExec fuel' lineRegex' line
            (lineMatches ++ [mkMatch (matched m) (index m + 1)])
      end
  end.

(** The matches of one line, [findOccurrences] in the specification: a new
    RegExp for the line, then the loop (lines 124-134 and 224-233). *)
Definition findOccurrences {S : Type} (fuel : nat) (pattern flags line : string)
    : M S (list Match) :=
  lineRegex <- call (newRegExp pattern flags) ;;
  loop (whileExec fuel lineRegex line []).

(** [lines.forEach((line, index) => ...)] of [handleRegexSearch]
    (lines 122-143), from [index] on; [matches] is the array so far. *)
Fixpoint forEachLine (fuel : nat) (pattern flags : string)
    (lines : list string) (index : nat) (matches : list LineResult)
    : M unit (list LineResult) :=
  match lines with
  | [] => ret matches
  | line :: rest =>
      let lineNumber := index + 1 in
      lineMatches <- findOccurrences fuel pattern flags line ;;
      forEachLine fuel pattern flags rest (S index)
        (if (0 <? List.length lineMatches)%nat
         then matches ++ [mkLineResult lineNumber line lineMatches]
         else matches)
  end.

Definition handleRegexSearch (fuel : nat) (pattern filePath : string)
    (flagsArg : option string) : option (response FileSummary) :=
  let flags := match flagsArg with Some f => f | None => "g" end in
  respond
    (let resolvedPath := resolve filePath in
     if negb (Fs.existsSync (fsys resolvedPath)) then
       ret (IsError ("File not found: " ++ resolvedPath))
     else
       fileContent <- call (readFileAt resolvedPath) ;;
       let lines := JsString.split fileContent in
       regex <- call (newRegExp pattern flags) ;;
       matches <- forEachLine fuel pattern flags lines 0 [] ;;
       ret (Content (mkFileSummary resolvedPath pattern flags
                       (countMatches matches) matches)))
    tt.

(** [lines.forEach((line, index) => ...)] of [searchDirectory]
    (lines 222-243): as above, and each matching line adds to the shared
    [totalMatches]. *)
Fixpoint forEachFileLine (fuel : nat) (pattern flags : string)
    (lines : list string) (index : nat) (fileMatches : list LineResult)
    : M walkState (list LineResult) :=
  match lines with
  | [] => ret fileMatches
  | line :: rest =>
      let lineNumber := index + 1 in
      lineMatches <- findOccurrences fuel pattern flags line ;;
      if (0 <? List.length lineMatches)%nat then
        modify (addTotal (List.length lineMatches)) ;;;
        forEachFileLine fuel pattern flags rest (S index)
          (fileMatches ++ [mkLineResult lineNumber line lineMatches])
      else forEachFileLine fuel pattern flags rest (S index) fileMatches
  end.

(** The [try]/[catch] around one eligible file (lines 217-257). *)
Definition searchFile (fuel : nat) (pattern flags filePath : string)
    (n : Fs.node) : M walkState unit :=
  tryCatch
    (fileContent <- call (Fs.readFileSync n) ;;
     let lines := JsString.split fileContent in
     fileMatches <- forEachFileLine fuel pattern flags lines 0 [] ;;
     if (0 <? List.length fileMatches)%nat then
       modify (pushResult (mkFileResult filePath (countMatches fileMatches) fileMatches))
     else ret tt)
    (fun _ => ret tt).

(** [searchDirectory(dir)] (lines 202-261); [n] is what lies at [dir]. *)
Fixpoint searchDirectory (fuel : nat) (pattern flags : string)
    (fileExtensions : list string) (dir : string) (n : Fs.node)
    : M walkState unit :=
  match n with
  | Fs.Dir files =>
      (fix forEach (files : list (string * Fs.node)) : M walkState unit :=
         match files with
         | [] => ret tt
         | (file, child) :: rest =>
             (let filePath := Path.join dir file in
              stat <- call (Fs.statSync child) ;;
              if Fs.isDirectory stat then
                if negb (JsString.startsWith file ".")
                   && negb (String.eqb file "node_modules")
                then searchDirectory fuel pattern flags fileExtensions filePath child
                else ret tt
              else if Fs.isFile stat then
                let ext := Path.extname file in
                if JsString.includes fileExtensions ext
                then searchFile fuel pattern flags filePath child
                else ret tt
              else ret tt) ;;;
             forEach rest
         end) files
  | _ => files <- call (Fs.readdirSync n) ;; ret tt
  end.

(** The callback of [files.forEach] (lines 205-260) on its own, for one
    entry [file] of [dir] with [child] lying there. *)
Definition visitEntry (fuel : nat) (pattern flags : string)
    (fileExtensions : list string) (dir file : string) (child : Fs.node)
    : M walkState unit :=
  let filePath := Path.join dir file in
  stat <- call (Fs.statSync child) ;;
  if Fs.isDirectory stat then
    if negb (JsString.startsWith file ".")
       && negb (String.eqb file "node_modules")
    then searchDirectory fuel pattern flags fileExtensions filePath child
    else ret tt
  else if Fs.isFile stat then
    let ext := Path.extname file in
    if JsString.includes fileExtensions ext
    then searchFile fuel pattern flags filePath child
    else ret tt
  else ret tt.

(** The call [searchDirectory(resolvedDir)] (line 263). *)
Definition searchDirectoryAt (fuel : nat) (pattern flags : string)
    (fileExtensions : list string) (p : string) : M walkState unit :=
  match fsys p with
  | Some n => searchDirectory fuel pattern flags fileExtensions p n
  | None => throw ("ENOENT: no such file or directory, scandir '" ++ p ++ "'")
  end.

Definition defaultExtensions : list string :=
  [".js"; ".ts"; ".txt"; ".md"; ".json"].

Definition handleRegexSearchDirectory (fuel : nat) (pattern dirPath : string)
    (fileExtensionsArg : option (list string)) (flagsArg : option string)
    : option (response DirSummary) :=
  let fileExtensions :=
    match fileExtensionsArg with Some l => l | None => defaultExtensions end in
  let flags := match flagsArg with Some f => f | None => "g" end in
  respond
    (let resolvedDir := resolve dirPath in
     if negb (Fs.existsSync (fsys resolvedDir)) then
       ret (IsError ("Directory not found: " ++ resolvedDir))
     else
       searchDirectoryAt fuel pattern flags fileExtensions resolvedDir ;;;
       st <- get ;;
       ret (Content (mkDirSummary resolvedDir pattern flags fileExtensions
                       (List.length (walkResults st)) (walkTotal st)
                       (walkResults st))))
    (mkWalkState [] 0).

End Handlers.

End Server.

(** ** An engine for a fragment of the pattern language

    Ordinary characters, [.], groups, [|] and the quantifiers [*], [+], [?]
    with their lazy forms, matched by backtracking in the order ECMAScript
    fixes.  Escapes, classes, anchors, counted repetition and the groups
    that begin with [(?] are outside the fragment and rejected by this
    parser. *)

Module MiniRegex.

Import RegExp.

Inductive regex : Type :=
| Eps
| Lit (c : ascii)
| Dot
| Cat (r1 r2 : regex)
| Or (r1 r2 : regex)
| Rep (r : regex) (greedy : bool).

Definition syntaxError (pattern reason : string) : string :=
  "Invalid regular expression: /" ++ pattern ++ "/: " ++ reason.

Definition outside (c : ascii) : bool :=
  existsb (Ascii.eqb c)
    ["\"%char; "["%char; "]"%char; "{"%char; "}"%char; "^"%char; "$"%char].

(** The quantifier, if any, that follows an atom. *)
Definition quantified (atom : regex) (cs : list ascii) : regex * list ascii :=
  let lazy (cs' : list ascii) : bool * list ascii :=
    match cs' with
    | "?"%char :: cs'' => (false, cs'')
    | _ => (true, cs')
    end in
  match cs with
  | "*"%char :: cs' => let (g, rest) := lazy cs' in (Rep atom g, rest)
  | "+"%char :: cs' => let (g, rest) := lazy cs' in (Cat atom (Rep atom g), rest)
  | "?"%char :: cs' =>
      let (g, rest) := lazy cs' in
      (if g then Or atom Eps else Or Eps atom, rest)
  | _ => (atom, cs)
  end.

(** A disjunction, up to the end of the pattern or to an unmatched [")"],
    which is left in place.  [acc] is the alternative read so far; [n]
    bounds the number of characters read. *)
Fixpoint parseDisjunction (n : nat) (cs : list ascii) (acc : regex)
    : (regex * list ascii) + string :=
  match n with
  | 0 => inr "Regular expression too large"
  | S n' =>
      match cs with
      | [] => inl (acc, [])
      | c :: cs' =>
          if Ascii.eqb c ")"%char then inl (acc, cs)
          else if Ascii.eqb c "|"%char then
            match parseDisjunction n' cs' Eps with
            | inl (r, rest) => inl (Or acc r, rest)
            | inr e => inr e
            end
          else if Ascii.eqb c "("%char then
            match cs' with
            | "?"%char :: _ => inr "Invalid group"
            | _ =>
                match parseDisjunction n' cs' Eps with
                | inl (r, ")"%char :: rest) =>
                    let (term, rest') := quantified r rest in
                    parseDisjunction n' rest' (Cat acc term)
                | inl (_, _) => inr "Unterminated group"
                | inr e => inr e
                end
            end
          else if Ascii.eqb c "*"%char || Ascii.eqb c "+"%char || Ascii.eqb c "?"%char
          then inr "Nothing to repeat"
          else if outside c then inr "Unsupported syntax"
          else
            let atom := if Ascii.eqb c "."%char then Dot else Lit c in
            let (term, rest') := quantified atom cs' in
            parseDisjunction n' rest' (Cat acc term)
      end
  end.

Definition parse (pattern : string) : regex + string :=
  let cs := list_ascii_of_string pattern in
  match parseDisjunction (S (List.length cs)) cs Eps with
  | inl (r, []) => inl r
  | inl (_, _ :: _) => inr (syntaxError pattern "Unmatched ')'")
  | inr reason => inr (syntaxError pattern reason)
  end.

(** Canonicalize under [ignoreCase]: upper case, here for ASCII letters. *)
Definition canonicalize (ic : bool) (c : ascii) : ascii :=
  let n := nat_of_ascii c in
  if ic && (97 <=? n)%nat && (n <=? 122)%nat then ascii_of_nat (n - 32) else c.

Definition lineTerminator (c : ascii) : bool :=
  Ascii.eqb c "010"%char || Ascii.eqb c "013"%char.

(** The matcher of a pattern: run on what is left of the input, it calls
    the continuation on what the pattern leaves, and tries its choices in
    order until the continuation succeeds.  An iteration of a repetition
    that consumes nothing is rejected. *)
Fixpoint run (ic da : bool) (r : regex) (s : list ascii)
    (k : list ascii -> option nat) {struct r} : option nat :=
  match r with
  | Eps => k s
  | Lit c =>
      match s with
      | c' :: s' =>
          if Ascii.eqb (canonicalize ic c') (canonicalize ic c) then k s' else None
      | [] => None
      end
  | Dot =>
      match s with
      | c' :: s' => if da || negb (lineTerminator c') then k s' else None
      | [] => None
      end
  | Cat r1 r2 => run ic da r1 s (fun s' => run ic da r2 s' k)
  | Or r1 r2 =>
      match run ic da r1 s k with
      | Some e => Some e
      | None => run ic da r2 s k
      end
  | Rep r' greedy =>
      (fix iterate (n : nat) (s : list ascii) : option nat :=
         match n with
         | 0 => k s
         | S n' =>
             let again :=
               run ic da r' s
                 (fun s' =>
                    if (List.length s' <? List.length s)%nat then iterate n' s'
                    else None) in
             if greedy then
               match again with Some e => Some e | None => k s end
             else
               match k s with Some e => Some e | None => again end
         end) (List.length s) s
  end.

Record compiledPattern : Type := mkCompiled {
  withIgnoreCase : bool;
  withDotAll : bool;
  body : regex
}.

(** The match of the pattern at [i], as its end index. *)
Definition matchAt (m : compiledPattern) (input : string) (i : nat) : option nat :=
  let cs := list_ascii_of_string input in
  if (i <=? List.length cs)%nat then
    run (withIgnoreCase m) (withDotAll m) (body m) (skipn i cs)
      (fun rest => Some (List.length cs - List.length rest))
  else None.

#[export] Instance engine : Engine := {|
  matcher := compiledPattern;
  parsePattern := fun pattern f =>
    match parse pattern with
    | inl r => inl (mkCompiled (ignoreCase f) (dotAll f) r)
    | inr message => inr message
    end;
  runMatcher := matchAt
|}.

End MiniRegex.

(** ** What the specification speaks of *)

Module Spec.

Import RegExp Server.

Section Occurrences.

Context {E : Engine}.

(** No match of [m] starts at any index from [from] up to, not including,
    [upto]. *)
Definition noMatchIn (m : matcher) (line : string) (from upto : nat) : bool :=
  forallb
    (fun p => match runMatcher m line p with Some _ => false | None => true end)
    (seq from (upto - from)).

(** [ms] lists, as spans from a start index to an end index, the
    non-overlapping matches of the line from [cursor] on: each is the
    leftmost match that starts at or after the end of the one before, none
    is empty, and nothing matches after the last. *)
Fixpoint nonOverlapping (m : matcher) (line : string) (cursor : nat)
    (ms : list (nat * nat)) : bool :=
  match ms with
  | [] => noMatchIn m line cursor (S (String.length line))
  | (i, e) :: rest =>
      (cursor <=? i)%nat && (i <=? String.length line)%nat
      && noMatchIn m line cursor i
      && match runMatcher m line i with
         | Some e' => Nat.eqb e' e
         | None => false
         end
      && (i <? e)%nat
      && nonOverlapping m line e rest
  end.

(** The occurrence reported for a match that spans from [i] to [e]. *)
Definition occurrence (line : string) (span : nat * nat) : Match :=
  mkMatch (JsString.slice line (fst span) (snd span)) (fst span + 1).

End Occurrences.

(** A line, paired with its index, has an occurrence. *)
Definition keptLine (occ : string -> list Match) (il : nat * string) : bool :=
  negb (Nat.eqb (List.length (occ (snd il))) 0).

(** The lines to report, given the occurrences [occ] of each line: pair the
    lines with their indices, keep those with an occurrence, number from 1. *)
Definition reportedLines (occ : string -> list Match) (lines : list string)
    : list LineResult :=
  map (fun il => mkLineResult (fst il + 1) (snd il) (occ (snd il)))
    (filter (keptLine occ) (combine (seq 0 (List.length lines)) lines)).

(** The walk goes into a directory of this name. *)
Definition descends (name : string) : bool :=
  negb (JsString.startsWith name ".") && negb (String.eqb name "node_modules").

(** A directory entry that the walk is to pass over: a directory whose name
    begins with a dot or is [node_modules]. *)
Definition skippedDirectory (name : string) (n : Fs.node) : bool :=
  match n with
  | Fs.Dir _ | Fs.DirErr _ =>
      JsString.startsWith name "." || String.eqb name "node_modules"
  | _ => false
  end.

(** The tree with every such directory emptied, at any depth. *)
Fixpoint emptySkipped (n : Fs.node) : Fs.node :=
  match n with
  | Fs.Dir entries =>
      Fs.Dir
        ((fix each (entries : list (string * Fs.node)) : list (string * Fs.node) :=
            match entries with
            | [] => []
            | (name, child) :: rest =>
                (name, if skippedDirectory name child then Fs.Dir []
                       else emptySkipped child) :: each rest
            end) entries)
  | _ => n
  end.

Definition unreadableFile (n : Fs.node) : bool :=
  match n with
  | Fs.File (inr _) => true
  | _ => false
  end.

(** The tree without its unreadable regular files, at any depth. *)
Fixpoint withoutUnreadable (n : Fs.node) : Fs.node :=
  match n with
  | Fs.Dir entries =>
      Fs.Dir
        ((fix each (entries : list (string * Fs.node)) : list (string * Fs.node) :=
            match entries with
            | [] => []
            | (name, child) :: rest =>
                if unreadableFile child then each rest
                else (name, withoutUnreadable child) :: each rest
            end) entries)
  | _ => n
  end.

(** The paths of the files that the walk of [dir] is to read: the readable
    regular files with an accepted extension, in [dir] or below it through
    directories that the walk goes into. *)
Inductive reached (exts : list string) : string -> Fs.node -> string -> Prop :=
| reached_here (dir : string) (entries : list (string * Fs.node))
    (name text : string) :
    In (name, Fs.File (inl text)) entries ->
    JsString.includes exts (Path.extname name) = true ->
    reached exts dir (Fs.Dir entries) (Path.join dir name)
| reached_below (dir : string) (entries : list (string * Fs.node))
    (name : string) (child : Fs.node) (path : string) :
    In (name, child) entries ->
    descends name = true ->
    reached exts (Path.join dir name) child path ->
    reached exts dir (Fs.Dir entries) path.

(** The number of occurrences on the lines of a file. *)
Definition occurrenceCount (lines : list LineResult) : nat :=
  list_sum (map (fun l => List.length (matches l)) lines).

Definition plainChar (c : ascii) : bool :=
  negb (Ascii.eqb c "."%char) && negb (Ascii.eqb c "/"%char).

Definition noSlashChar (c : ascii) : bool := negb (Ascii.eqb c "/"%char).

(** A name, or the part of a name, without a dot and without a slash. *)
Definition plain (part : string) : bool :=
  forallb plainChar (list_ascii_of_string part).

(** A name, or the part of a name, without a slash. *)
Definition slashFree (part : string) : bool :=
  forallb noSlashChar (list_ascii_of_string part).

(** A FileResult counts the occurrences on its lines, has a line, and has
    an occurrence on each of its lines. *)
Definition wellCounted (r : FileResult) : Prop :=
  matchCount r = occurrenceCount (fileResults r)
  /\ fileResults r <> []
  /\ Forall (fun l => matches l <> []) (fileResults r).

(** What holds of the [results] array and of [totalMatches] between any
    two steps of the walk. *)
Definition consistent (st : walkState) : Prop :=
  Forall wellCounted (walkResults st)
  /\ walkTotal st = list_sum (map matchCount (walkResults st)).

End Spec.

(** ** A sample project

    Absolute, normalised paths, which [path.resolve] returns as they are. *)

Module Sample.

#[local] Open Scope string_scope.

Definition LF : string := String JsString.LF EmptyString.

Definition resolve (p : string) : string := p.

Definition notes : string :=
  "x" ++ LF ++ "a foo" ++ LF ++ "y" ++ LF ++ "z" ++ LF ++ "foo foo" ++ LF ++ "w".

Definition src : Fs.node :=
  Fs.Dir [ (".hidden.js", Fs.File (inl ("x" ++ LF ++ "foo")));
           (".js", Fs.File (inl "foo"));
           ("notes.txt", Fs.File (inl notes)) ].

Definition project : Fs.node :=
  Fs.Dir [ ("a.txt", Fs.File (inl "foo bar foo"));
           ("b.md", Fs.File (inr "EACCES: permission denied, open '/proj/b.md'"));
           (".git", Fs.Dir [ ("config.json", Fs.File (inl "foo")) ]);
           ("node_modules", Fs.Dir [ ("dep.js", Fs.File (inl "foo")) ]);
           ("src", src) ].

Definition fsys (p : string) : option Fs.node :=
  if String.eqb p "/proj" then Some project
  else if String.eqb p "/proj/a.txt" then Some (Fs.File (inl "foo bar foo"))
  else if String.eqb p "/proj/src" then Some src
  else if String.eqb p "/proj/src/notes.txt" then Some (Fs.File (inl notes))
  else None.

(** What the search of the project for [foo] is to return. *)
Definition fooSummary : Server.DirSummary :=
  Server.mkDirSummary "/proj" "foo" "g" Server.defaultExtensions 3 6
    [ Server.mkFileResult "/proj/a.txt" 2
        [ Server.mkLineResult 1 "foo bar foo"
            [ Server.mkMatch "foo" 1; Server.mkMatch "foo" 9 ] ];
      Server.mkFileResult "/proj/src/.hidden.js" 1
        [ Server.mkLineResult 2 "foo" [ Server.mkMatch "foo" 1 ] ];
      Server.mkFileResult "/proj/src/notes.txt" 3
        [ Server.mkLineResult 2 "a foo" [ Server.mkMatch "foo" 3 ];
          Server.mkLineResult 5 "foo foo"
            [ Server.mkMatch "foo" 1; Server.mkMatch "foo" 5 ] ] ].

(** The occurrences of [foo] on a line, under the flags [g]. *)
Definition fooOn (line : string) : list Server.Match :=
  match Server.findOccurrences (E := MiniRegex.engine) 3 "foo" "g" line tt with
  | Some (Normal occs, _) => occs
  | _ => []
  end.

End Sample.

(** ** The tool boundary: what is listed and how a call is dispatched *)

Module Tools.

Import Server.

#[local] Open Scope string_scope.

Inductive jsonDefault : Type :=
| DefaultString (s : string)
| DefaultStrings (l : list string).

(** One entry of [properties] in an [inputSchema]. *)
Record property : Type := mkProperty {
  propertyName : string;
  propertyType : string;
  propertyItems : option string;
  propertyDescription : string;
  propertyDefault : option jsonDefault
}.

(** One entry of [tools]. *)
Record tool : Type := mkTool {
  toolName : string;
  toolDescription : string;
  toolProperties : list property;
  required : list string
}.

(** What the handler of [ListToolsRequestSchema] returns (lines 17-76). *)
Definition listTools : list tool :=
  [ mkTool "regex_search"
      "Search for a regex pattern in files and return line numbers of matches"
      [ mkProperty "pattern" "string" None
          "The regex pattern to search for" None;
        mkProperty "filePath" "string" None
          "Path to the file to search in" None;
        mkProperty "flags" "string" None
          "Regex flags (g, i, m, s) - default: 'g'" (Some (DefaultString "g")) ]
      [ "pattern"; "filePath" ];
    mkTool "regex_search_directory"
      "Recursively search for a regex pattern in all files in a directory"
      [ mkProperty "pattern" "string" None
          "The regex pattern to search for" None;
        mkProperty "dirPath" "string" None
          "Path to the directory to search in" None;
        mkProperty "fileExtensions" "array" (Some "string")
          "File extensions to search (e.g., ['.js', '.ts', '.txt'])"
          (Some (DefaultStrings [".js"; ".ts"; ".txt"; ".md"; ".json"]));
        mkProperty "flags" "string" None
          "Regex flags (g, i, m, s) - default: 'g'" (Some (DefaultString "g")) ]
      [ "pattern"; "dirPath" ] ].

(** The default that the schema of a tool gives for a property. *)
Definition schemaDefault (toolNamed propertyNamed : string) : option jsonDefault :=
  match find (fun t => String.eqb (toolName t) toolNamed) listTools with
  | Some t =>
      match find (fun p => String.eqb (propertyName p) propertyNamed)
              (toolProperties t) with
      | Some p => propertyDefault p
      | None => None
      end
  | None => None
  end.

(** The [arguments] object of a call: each property a string (an array of
    strings for [fileExtensions]) or absent. *)
Record arguments : Type := mkArguments {
  pattern : option string;
  filePath : option string;
  dirPath : option string;
  fileExtensions : option (list string);
  flags : option string
}.

Definition quote : string := String "034"%char EmptyString.

(** The message of the TypeError of [path.resolve(undefined)]. *)
Definition pathTypeError : string :=
  "The " ++ quote ++ "paths[0]" ++ quote
  ++ " argument must be of type string. Received undefined".

(** The message of the TypeError of [const { pattern, ... } = undefined]. *)
Definition destructureError : string :=
  "Cannot destructure property 'pattern' of 'args' as it is undefined.".

(** [new RegExp(undefined, flags)] compiles the empty pattern. *)
Definition patternSource (pattern : option string) : string :=
  match pattern with
  | Some p => p
  | None => EmptyString
  end.

Section Calls.

Context {E : RegExp.Engine}.

Variable resolve : string -> string.
Variable fsys : string -> option Fs.node.

(** [handleRegexSearch(args)] on an arguments object that may lack
    properties, or be absent itself: the destructuring of line 100 and
    [path.resolve] of line 102 throw inside the [try].  An absent [pattern]
    reaches [new RegExp] as [undefined]; the [pattern] of the summary, which
    is then absent too, is shown here as the empty string. *)
Definition handleRegexSearchCall (fuel : nat) (args : option arguments)
    : option (response FileSummary) :=
  match args with
  | None => Some (IsError ("Error: " ++ destructureError))
  | Some a =>
      match filePath a with
      | None => Some (IsError ("Error: " ++ pathTypeError))
      | Some p =>
          handleRegexSearch resolve fsys fuel (patternSource (pattern a)) p
            (flags a)
      end
  end.

(** [handleRegexSearchDirectory(args)], likewise (lines 176-184). *)
Definition handleRegexSearchDirectoryCall (fuel : nat) (args : option arguments)
    : option (response DirSummary) :=
  match args with
  | None => Some (IsError ("Error: " ++ destructureError))
  | Some a =>
      match dirPath a with
      | None => Some (IsError ("Error: " ++ pathTypeError))
      | Some p =>
          handleRegexSearchDirectory resolve fsys fuel
            (patternSource (pattern a)) p (fileExtensions a) (flags a)
      end
  end.

(** A value at the top of the object that the handler of
    [CallToolRequestSchema] is given: absent, a string, an [arguments]
    object, or the [params] of a call, which hold its [name] and, when
    given, its [arguments]. *)
Inductive value : Type :=
| Undefined
| Str (s : string)
| ArgumentsObject (a : arguments)
| ParamsObject (name : string) (args : option arguments).

(** The object itself, by its own properties. *)
Definition request : Type := list (string * value).

(** The request of a call as the SDK parses it against
    [CallToolRequestSchema] and hands it to the handler:
    [{ method: "tools/call", params: { name, arguments } }]. *)
Definition callToolRequest (name : string) (args : option arguments)
    : request :=
  [ ("method", Str "tools/call"); ("params", ParamsObject name args) ].

(** [request.key]: [undefined] when the object has no such property. *)
Fixpoint getProperty (key : string) (o : request) : value :=
  match o with
  | [] => Undefined
  | (k, v) :: rest => if String.eqb k key then v else getProperty key rest
  end.

(** [v === text], for a string literal [text]. *)
Definition strictEquals (v : value) (text : string) : bool :=
  match v with
  | Str s => String.eqb s text
  | _ => false
  end.

(** The text of [v] in a template literal. *)
Definition toText (v : value) : string :=
  match v with
  | Undefined => "undefined"
  | Str s => s
  | ArgumentsObject _ | ParamsObject _ _ => "[object Object]"
  end.

Definition noArguments : arguments := mkArguments None None None None None.

(** What the handlers can destructure from [args]: nothing from
    [undefined], on which the destructuring throws; the properties of an
    [arguments] object; from any other value, each property absent. *)
Definition asArguments (v : value) : option arguments :=
  match v with
  | Undefined => None
  | ArgumentsObject a => Some a
  | Str _ | ParamsObject _ _ => Some noArguments
  end.

Definition mapResponse {A B : Type} (f : A -> B) (r : response A) : response B :=
  match r with
  | Content result => Content (f result)
  | IsError text => IsError text
  end.

(** The handler of [CallToolRequestSchema] (lines 78-96):
    [const { name, arguments: args } = request] reads both off the object
    it is given. *)
Definition callTool (fuel : nat) (request : request)
    : option (response (FileSummary + DirSummary)) :=
  let name := getProperty "name" request in
  let args := getProperty "arguments" request in
  if strictEquals name "regex_search" then
    option_map (mapResponse inl)
      (handleRegexSearchCall fuel (asArguments args))
  else if strictEquals name "regex_search_directory" then
    option_map (mapResponse inr)
      (handleRegexSearchDirectoryCall fuel (asArguments args))
  else Some (IsError ("Unknown tool: " ++ toText name)).

End Calls.

End Tools.

(** ** What a directory search is to report *)

Module Reports.

Import RegExp Server Spec.

(** The readable regular files with an accepted extension, each with its
    path and its text, in the order of the walk: the entries of a directory
    in the order listed, and what lies below a directory that the walk goes
    into in the place of that directory. *)
Fixpoint eligibleFiles (exts : list string) (dir : string) (n : Fs.node)
    : list (string * string) :=
  match n with
  | Fs.Dir entries =>
      (fix each (entries : list (string * Fs.node)) : list (string * string) :=
         match entries with
         | [] => []
         | (name, child) :: rest =>
             match child with
             | Fs.File (inl text) =>
                 if JsString.includes exts (Path.extname name)
                 then [(Path.join dir name, text)]
                 else []
             | Fs.Dir _ =>
                 if descends name
                 then eligibleFiles exts (Path.join dir name) child
                 else []
             | _ => []
             end ++ each rest
         end) entries
  | _ => []
  end.

(** A message with which the walk of a tree can fail: that of a directory
    that cannot be listed, or of an entry that cannot be examined, at the
    root or below it through directories that the walk goes into. *)
Inductive walkFailure : Fs.node -> string -> Prop :=
| failure_list (n : Fs.node) (message : string) :
    Fs.readdirSync n = Throw message -> walkFailure n message
| failure_stat (entries : list (string * Fs.node)) (name : string)
    (child : Fs.node) (message : string) :
    In (name, child) entries ->
    Fs.statSync child = Throw message ->
    walkFailure (Fs.Dir entries) message
| failure_below (entries : list (string * Fs.node)) (name : string)
    (child : Fs.node) (stats : Fs.Stats) (message : string) :
    In (name, child) entries ->
    Fs.statSync child = Normal stats -> Fs.isDirectory stats = true ->
    descends name = true ->
    walkFailure child message ->
    walkFailure (Fs.Dir entries) message.

Section WithEngine.

Context {E : Engine}.

(** What the search of one file, on its own, gives for the summary of a
    directory: the FileResult of its matching lines, if it has any. *)
Definition fileReport (fuel : nat) (pattern flags : string)
    (file : string * string) : list FileResult :=
  match forEachLine fuel pattern flags (JsString.split (snd file)) 0 [] tt with
  | Some (Normal lines, _) =>
      if (0 <? List.length lines)%nat
      then [mkFileResult (fst file) (occurrenceCount lines) lines]
      else []
  | _ => []
  end.

(** No match of [m] in the line, at any index. *)
Definition matchesNowhere (m : matcher) (line : string) : bool :=
  noMatchIn m line 0 (S (String.length line)).

(** Every match of [m] in the line spans at least one character and ends
    within the line. *)
Definition matchesProper (m : matcher) (line : string) : bool :=
  forallb
    (fun i => match runMatcher m line i with
              | Some e => (i <? e)%nat && (e <=? String.length line)%nat
              | None => true
              end)
    (seq 0 (S (String.length line))).

End WithEngine.

(** The lines of a text put together again, a line feed between two. *)
Fixpoint joinLines (lines : list string) : string :=
  match lines with
  | [] => EmptyString
  | [line] => line
  | line :: rest => (line ++ String JsString.LF (joinLines rest))%string
  end.

Definition hasLineFeed (line : string) : bool :=
  existsb (Ascii.eqb JsString.LF) (list_ascii_of_string line).

End Reports.

(** ** A directory with an entry that cannot be examined *)

Module Broken.

#[local] Open Scope string_scope.

Definition dangling : string :=
  "ENOENT: no such file or directory, stat '/broken/dangling'".

Definition root : Fs.node :=
  Fs.Dir [ ("a.txt", Fs.File (inl "foo"));
           ("dangling", Fs.NoStat dangling);
           ("b.txt", Fs.File (inl "foo")) ].

Definition fsys (p : string) : option Fs.node :=
  if String.eqb p "/broken" then Some root else None.

End Broken.

(** ** The directory [/proj/src] of the sample project, searched *)

Module DotFiles.

#[local] Open Scope string_scope.

Definition hiddenJs : string * Fs.node :=
  (".hidden.js", Fs.File (inl ("x" ++ Sample.LF ++ "foo"))).

Definition dotJs : string * Fs.node := (".js", Fs.File (inl "foo")).

Definition notesTxt : string * Fs.node :=
  ("notes.txt", Fs.File (inl Sample.notes)).

(** What the search of [/proj/src] for [foo] is to return under the
    default extensions. *)
Definition srcSummary : Server.DirSummary :=
  Server.mkDirSummary "/proj/src" "foo" "g" Server.defaultExtensions 2 4
    [ Server.mkFileResult "/proj/src/.hidden.js" 1
        [ Server.mkLineResult 2 "foo" [ Server.mkMatch "foo" 1 ] ];
      Server.mkFileResult "/proj/src/notes.txt" 3
        [ Server.mkLineResult 2 "a foo" [ Server.mkMatch "foo" 3 ];
          Server.mkLineResult 5 "foo foo"
            [ Server.mkMatch "foo" 1; Server.mkMatch "foo" 5 ] ] ].

(** And when the empty string is the one accepted extension. *)
Definition emptyExtensionSummary : Server.DirSummary :=
  Server.mkDirSummary "/proj/src" "foo" "g" [EmptyString] 1 1
    [ Server.mkFileResult "/proj/src/.js" 1
        [ Server.mkLineResult 1 "foo" [ Server.mkMatch "foo" 1 ] ] ].

End DotFiles.

(** * The loop around [exec] *)

Section ExecFacts.

Import RegExp Server Spec.

Context {E : Engine}.

Lemma scanFrom_found (m : matcher) (line : string) (n i p e : nat) :
  scanFrom m line false n i = Some (p, e) ->
  i <= p < i + n /\ runMatcher m line p = Some e /\
  forall q, i <= q < p -> runMatcher m line q = None.
Proof.
  revert i. induction n as [|n IH]; intros i H; simpl in H; [discriminate|].
  destruct (runMatcher m line i) as [e'|] eqn:Hi.
  - injection H as <- <-. split; [lia|]. split; [assumption|]. intros q Hq; lia.
  - apply IH in H as (Hp & He & Hq). split; [lia|]. split; [assumption|].
    intros q Hr. destruct (Nat.eq_dec q i) as [->|]; auto. apply Hq; lia.
Qed.

Lemma scanFrom_none (m : matcher) (line : string) (n i : nat) :
  scanFrom m line false n i = None ->
  forall q, i <= q < i + n -> runMatcher m line q = None.
Proof.
  revert i. induction n as [|n IH]; intros i H q Hq; [lia|]. simpl in H.
  destruct (runMatcher m line i) as [e'|] eqn:Hi; [discriminate|].
  destruct (Nat.eq_dec q i) as [->|]; auto. apply (IH (S i)); auto. lia.
Qed.

Lemma scanFrom_first (m : matcher) (line : string) (n i p e : nat) :
  i <= p < i + n ->
  (forall q, i <= q < p -> runMatcher m line q = None) ->
  runMatcher m line p = Some e ->
  scanFrom m line false n i = Some (p, e).
Proof.
  revert i. induction n as [|n IH]; intros i Hp Hq He; [lia|]. simpl.
  destruct (Nat.eq_dec i p) as [->|Hne].
  - now rewrite He.
  - rewrite Hq by lia. apply IH; auto; try lia. intros q Hr; apply Hq; lia.
Qed.

Lemma scanFrom_nothing (m : matcher) (line : string) (n i : nat) :
  (forall q, i <= q < i + n -> runMatcher m line q = None) ->
  scanFrom m line false n i = None.
Proof.
  revert i. induction n as [|n IH]; intros i Hq; simpl; auto.
  rewrite Hq by lia. apply IH. intros q Hr; apply Hq; lia.
Qed.

Lemma whileExec_step (fuel : nat) (R : regexp) (line : string)
    (acc : list Match) :
  whileExec (S fuel) R line acc =
    match exec R line with
    | (None, _) => Some acc
    | (Some m, R') =>
        whileExec fuel R' line (acc ++ [mkMatch (matched m) (index m + 1)])
    end.
Proof. reflexivity. Qed.

(** What the loop returns with some fuel it returns with any more. *)
Lemma whileExec_more_fuel (line : string) (fuel : nat) :
  forall (R : regexp) (acc found : list Match) (fuel' : nat),
    whileExec fuel R line acc = Some found -> fuel <= fuel' ->
    whileExec fuel' R line acc = Some found.
Proof.
  induction fuel as [|fuel IH]; intros R acc found fuel' Hrun Hle;
    [discriminate|].
  destruct fuel' as [|fuel']; [lia|]. rewrite whileExec_step in *.
  destruct (exec R line) as [[m|] R']; [|assumption].
  apply IH; [assumption | lia].
Qed.

(** A call of [exec] that finds a match and leaves the RegExp object as it
    was will find it again: the loop never ends. *)
Lemma whileExec_stalls (R : regexp) (line : string) (m : execResult) :
  exec R line = (Some m, R) ->
  forall fuel acc, whileExec fuel R line acc = None.
Proof.
  intros Hexec fuel. induction fuel as [|fuel IH]; intros acc; simpl; auto.
  rewrite Hexec. apply IH.
Qed.

Lemma setLastIndex_same (R : regexp) : setLastIndex R (lastIndex R) = R.
Proof. now destruct R. Qed.

(** Without [g] and [y], [exec] starts from index 0 on every call and
    leaves [lastIndex] alone. *)
Lemma exec_untracked (R : regexp) (line : string) :
  global (flags R) = false -> sticky (flags R) = false ->
  exec R line =
    match scanFrom (compiled R) line false (S (String.length line)) 0 with
    | None => (None, R)
    | Some (i, e) => (Some (mkExecResult i (JsString.slice line i e)), R)
    end.
Proof.
  intros Hg Hs. unfold exec. rewrite Hg, Hs. simpl.
  now rewrite Nat.sub_0_r.
Qed.

(** With [g] and without [y], [exec] searches from [lastIndex] on and moves
    [lastIndex] to the end of the match. *)
Lemma exec_global (R : regexp) (line : string) :
  global (flags R) = true -> sticky (flags R) = false ->
  exec R line =
    if (String.length line <? lastIndex R)%nat then (None, setLastIndex R 0)
    else
      match scanFrom (compiled R) line false
              (S (String.length line - lastIndex R)) (lastIndex R) with
      | None => (None, setLastIndex R 0)
      | Some (i, e) =>
          (Some (mkExecResult i (JsString.slice line i e)), setLastIndex R e)
      end.
Proof.
  intros Hg Hs. unfold exec. rewrite Hg, Hs. reflexivity.
Qed.

(** A RegExp without [g] and [y] that matches somewhere in the line keeps
    the loop running for ever. *)
Lemma whileExec_untracked_diverges (R : regexp) (line : string) (p e : nat) :
  global (flags R) = false -> sticky (flags R) = false ->
  p <= String.length line -> runMatcher (compiled R) line p = Some e ->
  forall fuel acc, whileExec fuel R line acc = None.
Proof.
  intros Hg Hs Hp He.
  destruct (scanFrom (compiled R) line false (S (String.length line)) 0)
    as [[i e']|] eqn:Hscan.
  - apply whileExec_stalls with (m := mkExecResult i (JsString.slice line i e')).
    rewrite exec_untracked, Hscan; auto.
  - apply scanFrom_none with (q := p) in Hscan; [congruence | lia].
Qed.


Lemma noMatchIn_true (m : matcher) (line : string) (from upto : nat) :
  noMatchIn m line from upto = true <->
  forall q, from <= q < upto -> runMatcher m line q = None.
Proof.
  unfold noMatchIn. rewrite forallb_forall. split.
  - intros H q Hq. specialize (H q). rewrite in_seq in H.
    destruct (runMatcher m line q); auto.
    assert (false = true) by (apply H; lia). discriminate.
  - intros H q Hq. apply in_seq in Hq. rewrite H by lia. reflexivity.
Qed.

Lemma nonOverlapping_cons (m : matcher) (line : string) (cursor i e : nat)
    (rest : list (nat * nat)) :
  nonOverlapping m line cursor ((i, e) :: rest) = true ->
  cursor <= i <= String.length line /\
  (forall q, cursor <= q < i -> runMatcher m line q = None) /\
  runMatcher m line i = Some e /\ i < e /\
  nonOverlapping m line e rest = true.
Proof.
  simpl. rewrite !andb_true_iff, !Nat.leb_le, Nat.ltb_lt, noMatchIn_true.
  intros [[[[[Hc Hi] Hq] He] Hlt] Hrest].
  destruct (runMatcher m line i) as [e'|]; [|discriminate].
  apply Nat.eqb_eq in He. subst e'. auto 6.
Qed.

(** With [g] and without [y], the loop reports the non-overlapping matches
    of the line, one call of [exec] for each and one more to find the end. *)
Lemma whileExec_global (R : regexp) (line : string) :
  global (flags R) = true -> sticky (flags R) = false ->
  forall ms cursor acc,
    nonOverlapping (compiled R) line cursor ms = true ->
    whileExec (S (List.length ms)) (setLastIndex R cursor) line acc
    = Some (acc ++ map (occurrence line) ms).
Proof.
  intros Hg Hs ms. induction ms as [|[i e] rest IH]; intros cursor acc Hms.
  - simpl in Hms. rewrite noMatchIn_true in Hms.
    cbn [List.length]. rewrite whileExec_step, exec_global by assumption.
    cbn [lastIndex setLastIndex compiled].
    destruct (String.length line <? cursor)%nat eqn:Hlen.
    + now rewrite app_nil_r.
    + apply Nat.ltb_ge in Hlen. rewrite scanFrom_nothing.
      * now rewrite app_nil_r.
      * intros q Hq. apply Hms. lia.
  - apply nonOverlapping_cons in Hms as (Hc & Hq & He & Hlt & Hrest).
    cbn [List.length]. rewrite whileExec_step, exec_global by assumption.
    cbn [lastIndex setLastIndex compiled].
    replace (String.length line <? cursor)%nat with false
      by (symmetry; apply Nat.ltb_ge; lia).
    rewrite (@scanFrom_first (compiled R) line _ cursor i e) by (auto; lia).
    cbn [index matched].
    change (setLastIndex (mkRegExp (source R) (flags R) (compiled R) cursor) e)
      with (setLastIndex R e).
    rewrite (IH e _ Hrest). cbn [map]. now rewrite <- app_assoc.
Qed.

Lemma nonOverlapping_increasing (m : matcher) (line : string) :
  forall ms cursor,
    nonOverlapping m line cursor ms = true ->
    Forall (fun span => cursor <= fst span) ms /\
    StronglySorted lt (map (fun span => fst span + 1) ms).
Proof.
  induction ms as [|[i e] rest IH]; intros cursor Hms.
  - split; constructor.
  - apply nonOverlapping_cons in Hms as (Hc & _ & _ & Hlt & Hrest).
    destruct (IH e Hrest) as [Hfrom Hsorted]. split.
    + constructor; [simpl; lia|].
      eapply Forall_impl; [|exact Hfrom]. simpl; intros; lia.
    + cbn [map]. constructor; auto. rewrite Forall_map.
      eapply Forall_impl; [|exact Hfrom]. simpl; intros; lia.
Qed.

(** With [g] and without [y], a pattern that matches the empty string at
    the end of the line keeps the loop running for ever: every call of
    [exec] finds a match at or before the end, and the last one found is
    found again. *)
Lemma whileExec_empty_at_end_diverges (line : string) (fuel : nat) :
  forall (R : regexp) (acc : list Match),
    global (flags R) = true -> sticky (flags R) = false ->
    (forall i e, runMatcher (compiled R) line i = Some e ->
                 i <= e <= String.length line) ->
    runMatcher (compiled R) line (String.length line)
    = Some (String.length line) ->
    lastIndex R <= String.length line ->
    whileExec fuel R line acc = None.
Proof.
  induction fuel as [|fuel IH]; intros R acc Hg Hs Hbound Hend Hlast; auto.
  rewrite whileExec_step, exec_global by assumption.
  replace (String.length line <? lastIndex R)%nat with false
    by (symmetry; apply Nat.ltb_ge; lia).
  destruct (scanFrom (compiled R) line false
              (S (String.length line - lastIndex R)) (lastIndex R))
    as [[i e]|] eqn:Hscan.
  - apply scanFrom_found in Hscan as (_ & He & _).
    apply IH; auto. cbn [lastIndex setLastIndex].
    apply Hbound in He. lia.
  - apply scanFrom_none with (q := String.length line) in Hscan; [|lia].
    congruence.
Qed.

Lemma newRegExp_fresh (pattern flagString : string) (R : regexp) :
  newRegExp pattern flagString = Normal R -> setLastIndex R 0 = R.
Proof.
  unfold newRegExp. destruct (parseFlags flagString); [|discriminate].
  destruct (parsePattern pattern f); [|discriminate].
  now intros [= <-].
Qed.

Lemma findOccurrences_compiled (S : Type) (fuel : nat)
    (pattern flagString line : string) (R : regexp) (s : S) :
  newRegExp pattern flagString = Normal R ->
  findOccurrences fuel pattern flagString line s
  = loop (whileExec fuel R line []) s.
Proof.
  intros HR. unfold findOccurrences, bind, call. now rewrite HR.
Qed.

Lemma findOccurrences_throws (S : Type) (fuel : nat)
    (pattern flagString line message : string) (s : S) :
  newRegExp pattern flagString = Throw message ->
  findOccurrences fuel pattern flagString line s = Some (Throw message, s).
Proof.
  intros HR. unfold findOccurrences, bind, call. now rewrite HR.
Qed.

End ExecFacts.

Section OccurrenceResults.

Import RegExp Server Spec.

Context {E : Engine}.

(** A pattern compiled without [g] and [y] either matches nowhere in the
    line, and then the loop ends at once with nothing to report, or matches
    somewhere, and then the loop never ends. *)
Lemma findOccurrences_untracked (St : Type) (pattern flagString line : string)
    (R : regexp) (s : St) :
  newRegExp pattern flagString = Normal R ->
  global (flags R) = false -> sticky (flags R) = false ->
  (forall fuel, findOccurrences (S fuel) pattern flagString line s
                = Some (Normal [], s))
  \/ (forall fuel, findOccurrences fuel pattern flagString line s = None).
Proof.
  intros HR Hg Hs.
  destruct (scanFrom (compiled R) line false (S (String.length line)) 0)
    as [[i e]|] eqn:Hscan.
  - right. intros fuel. rewrite findOccurrences_compiled with (R := R) by assumption.
    apply scanFrom_found in Hscan as (Hi & He & _).
    rewrite (@whileExec_untracked_diverges _ R line i e); auto; lia.
  - left. intros fuel. rewrite findOccurrences_compiled with (R := R) by assumption.
    rewrite whileExec_step, exec_untracked, Hscan; auto.
Qed.

(** With [g] and without [y], a pattern that matches the empty string at
    the end of the line makes the search of that line run for ever. *)
Lemma findOccurrences_empty_at_end_diverges (St : Type)
    (pattern flagString line : string) (R : regexp) (s : St) :
  newRegExp pattern flagString = Normal R ->
  global (flags R) = true -> sticky (flags R) = false ->
  (forall i e, runMatcher (compiled R) line i = Some e ->
               i <= e <= String.length line) ->
  runMatcher (compiled R) line (String.length line)
  = Some (String.length line) ->
  forall fuel, findOccurrences fuel pattern flagString line s = None.
Proof.
  intros HR Hg Hs Hbound Hend fuel.
  rewrite findOccurrences_compiled with (R := R) by assumption.
  rewrite whileExec_empty_at_end_diverges; auto.
  rewrite <- (newRegExp_fresh _ _ HR). simpl. lia.
Qed.

(** C4.  For a pattern compiled with the global flag (and, as the flags of
    the specification go, not sticky) and a line whose non-overlapping,
    non-empty matches are the [k] spans [ms], [findOccurrences], given fuel
    for more than [k] calls of [exec], returns exactly [k] occurrences, one
    for each span in left-to-right order, each with the matched text and
    with the 0-based start index plus 1 as its column; the columns increase
    strictly. *)
Theorem findOccurrences_global_all_matches (St : Type)
    (pattern flagString line : string) (R : regexp)
    (ms : list (nat * nat)) (k : nat) (s : St) :
  newRegExp pattern flagString = Normal R ->
  global (flags R) = true -> sticky (flags R) = false ->
  nonOverlapping (compiled R) line 0 ms = true ->
  List.length ms = k ->
  exists occs : list Match,
    (forall fuel, k < fuel ->
       findOccurrences fuel pattern flagString line s = Some (Normal occs, s))
    /\ List.length occs = k
    /\ map column occs = map (fun span => fst span + 1) ms
    /\ map matchText occs
       = map (fun span => JsString.slice line (fst span) (snd span)) ms
    /\ StronglySorted lt (map column occs).
Proof.
  intros HR Hg Hs Hms Hk. exists (map (occurrence line) ms).
  assert (Hcols : map column (map (occurrence line) ms)
                  = map (fun span => fst span + 1) ms)
    by (rewrite map_map; reflexivity).
  split; [|split; [|split; [|split]]].
  - intros fuel Hfuel.
    rewrite findOccurrences_compiled with (R := R) by assumption.
    rewrite (@whileExec_more_fuel _ line (S k) R [] (map (occurrence line) ms));
      [reflexivity | | lia].
    rewrite <- Hk, <- (newRegExp_fresh _ _ HR).
    now rewrite (@whileExec_global _ R line Hg Hs ms 0 [] Hms).
  - now rewrite length_map.
  - exact Hcols.
  - rewrite map_map. reflexivity.
  - rewrite Hcols. eapply nonOverlapping_increasing; eauto.
Qed.

End OccurrenceResults.

Import RegExp Server Spec.

Lemma findOccurrences_global_all_matches_witness :
  exists occs : list Match,
    (forall fuel, 2 < fuel ->
       findOccurrences (E := MiniRegex.engine) fuel "foo" "g" "foo bar foo" tt
       = Some (Normal occs, tt))
    /\ List.length occs = 2
    /\ map column occs = [1; 9]
    /\ map matchText occs = ["foo"; "foo"]
    /\ StronglySorted lt (map column occs).
Proof.
  eapply (@findOccurrences_global_all_matches MiniRegex.engine unit
            "foo" "g" "foo bar foo" _ [(0, 3); (8, 11)] 2 tt);
    reflexivity.
Defined.

(** * The handlers *)

Section HandlerFacts.

Import RegExp Server Spec.

Context {E : Engine}.

Variable resolve : string -> string.
Variable fsys : string -> option Fs.node.

Lemma split_not_empty (text : string) : JsString.split text <> [].
Proof.
  destruct text as [|c rest]; simpl; [discriminate|].
  destruct (Ascii.eqb c JsString.LF); [discriminate|].
  destruct (JsString.split rest); discriminate.
Qed.

Lemma searchDirectory_nil (fuel : nat) (pattern flags : string)
    (exts : list string) (dir : string) :
  searchDirectory fuel pattern flags exts dir (Fs.Dir []) = ret tt.
Proof. reflexivity. Qed.

Lemma searchDirectory_cons (fuel : nat) (pattern flags : string)
    (exts : list string) (dir file : string) (child : Fs.node)
    (rest : list (string * Fs.node)) :
  searchDirectory fuel pattern flags exts dir (Fs.Dir ((file, child) :: rest))
  = (visitEntry fuel pattern flags exts dir file child ;;;
     searchDirectory fuel pattern flags exts dir (Fs.Dir rest)).
Proof. reflexivity. Qed.

(** C5.  A target path that does not exist after resolution: either search
    returns a failure whose text ends with the resolved path, whatever the
    pattern, the flags and the fuel, so before the file system is read or
    the pattern compiled, and returns no summary. *)
Theorem missing_target_reported (fuel : nat) (pattern target : string)
    (flagsArg : option string) (extensionsArg : option (list string)) :
  Fs.existsSync (fsys (resolve target)) = false ->
  handleRegexSearch resolve fsys fuel pattern target flagsArg
  = Some (IsError ("File not found: " ++ resolve target))
  /\ handleRegexSearchDirectory resolve fsys fuel pattern target
       extensionsArg flagsArg
     = Some (IsError ("Directory not found: " ++ resolve target)).
Proof.
  intros Hmissing. unfold handleRegexSearch, handleRegexSearchDirectory.
  rewrite Hmissing. split; reflexivity.
Qed.

Lemma keptLine_nothing (occ : string -> list Match) (i : nat) (line : string) :
  occ line = [] -> keptLine occ (i, line) = false.
Proof. unfold keptLine. simpl. now intros ->. Qed.

Lemma keptLine_something (occ : string -> list Match) (i : nat) (line : string) :
  occ line <> [] -> keptLine occ (i, line) = true.
Proof. unfold keptLine. simpl. now destruct (occ line). Qed.

Lemma forEachLine_reported (fuel : nat) (pattern flags : string)
    (occ : string -> list Match) :
  forall (lines : list string) (index : nat) (acc : list LineResult),
    (forall line, In line lines ->
       findOccurrences fuel pattern flags line tt = Some (Normal (occ line), tt)) ->
    forEachLine fuel pattern flags lines index acc tt
    = Some (Normal
              (acc ++ map (fun il => mkLineResult (fst il + 1) (snd il) (occ (snd il)))
                        (filter (keptLine occ)
                           (combine (seq index (List.length lines)) lines))),
            tt).
Proof.
  induction lines as [|line rest IH]; intros index acc Hocc.
  - simpl. unfold ret. now rewrite app_nil_r.
  - cbn [forEachLine]. unfold bind at 1.
    rewrite (Hocc line) by (left; reflexivity).
    rewrite IH by (intros l Hl; apply Hocc; right; exact Hl).
    cbn [List.length seq combine filter].
    destruct (occ line) as [|o os] eqn:Ho;
      cbn [List.length Nat.ltb Nat.leb].
    + rewrite keptLine_nothing by assumption. reflexivity.
    + rewrite keptLine_something by congruence.
      cbn [map fst snd]. rewrite Ho. now rewrite <- app_assoc.
Qed.

Lemma filter_nothing_kept (occ : string -> list Match) :
  forall (lines : list string) (start : nat),
    (forall line, In line lines -> occ line = []) ->
    filter (keptLine occ) (combine (seq start (List.length lines)) lines) = [].
Proof.
  induction lines as [|line rest IH]; intros start Hocc; auto.
  cbn [List.length seq combine filter].
  rewrite keptLine_nothing by (apply Hocc; left; reflexivity).
  apply IH. intros l Hl. apply Hocc. now right.
Qed.

(** C8.  For a readable file, on whose lines the search of occurrences
    returns, the single-file search reports a LineResult exactly for the
    lines with at least one occurrence: the lines paired with their
    1-based numbers in file order, those without an occurrence dropped, each
    with its text and its occurrences.  In particular, when occurrences
    exist on lines 2 and 5 only, it reports two LineResults, numbered 2 and
    then 5. *)
Theorem handleRegexSearch_reports_matching_lines (fuel : nat)
    (pattern target : string) (flagsArg : option string) (text : string)
    (occ : string -> list Match) :
  let flags := match flagsArg with Some f => f | None => "g" end in
  let lines := JsString.split text in
  fsys (resolve target) = Some (Fs.File (inl text)) ->
  (forall line, In line lines ->
     findOccurrences fuel pattern flags line tt = Some (Normal (occ line), tt)) ->
  handleRegexSearch resolve fsys fuel pattern target flagsArg
  = Some (Content (mkFileSummary (resolve target) pattern flags
                     (countMatches (reportedLines occ lines))
                     (reportedLines occ lines)))
  /\ Forall (fun r => matches r <> []) (reportedLines occ lines)
  /\ (5 <= List.length lines ->
      (forall i line, nth_error lines i = Some line ->
         (occ line <> [] <-> i + 1 = 2 \/ i + 1 = 5)) ->
      map lineNumber (reportedLines occ lines) = [2; 5]).
Proof.
  intros flags lines Hfile Hocc. split; [|split].
  - unfold handleRegexSearch. fold flags. rewrite Hfile. cbn [Fs.existsSync negb].
    unfold respond, bind at 1, call at 1, readFileAt. rewrite Hfile.
    cbn [Fs.readFileSync]. fold lines.
    assert (Hnew : exists R, newRegExp pattern flags = Normal R).
    { destruct lines as [|l ls] eqn:Hl; [now apply split_not_empty in Hl|].
      specialize (Hocc l (or_introl eq_refl)).
      unfold findOccurrences, bind, call in Hocc.
      destruct (newRegExp pattern flags) as [R|]; [eauto|discriminate]. }
    destruct Hnew as [R HR]. unfold bind at 1, call at 1. rewrite HR.
    unfold bind. rewrite (@forEachLine_reported fuel pattern flags occ lines 0 [] Hocc).
    reflexivity.
  - unfold reportedLines. rewrite Forall_map, Forall_forall.
    intros il Hin. apply filter_In in Hin as [_ Hkept]. cbn [matches].
    unfold keptLine in Hkept. destruct (occ (snd il)); discriminate.
  - intros Hlen Honly. unfold reportedLines.
    destruct lines as [|l1 [|l2 [|l3 [|l4 [|l5 rest]]]]]; simpl in Hlen; try lia.
    assert (H1 : occ l1 = []).
    { destruct (occ l1) eqn:H; auto. exfalso.
      assert (0 + 1 = 2 \/ 0 + 1 = 5) as [|]; try lia.
      apply (Honly 0 l1); [reflexivity|]. rewrite H. discriminate. }
    assert (H3 : occ l3 = []).
    { destruct (occ l3) eqn:H; auto. exfalso.
      assert (2 + 1 = 2 \/ 2 + 1 = 5) as [|]; try lia.
      apply (Honly 2 l3); [reflexivity|]. rewrite H. discriminate. }
    assert (H4 : occ l4 = []).
    { destruct (occ l4) eqn:H; auto. exfalso.
      assert (3 + 1 = 2 \/ 3 + 1 = 5) as [|]; try lia.
      apply (Honly 3 l4); [reflexivity|]. rewrite H. discriminate. }
    assert (H2 : occ l2 <> []) by (apply (Honly 1 l2); [reflexivity|lia]).
    assert (H5 : occ l5 <> []) by (apply (Honly 4 l5); [reflexivity|lia]).
    assert (Hrest : forall line, In line rest -> occ line = []).
    { intros line Hin. apply In_nth_error in Hin as [j Hj].
      destruct (occ line) eqn:H; auto. exfalso.
      assert (5 + j + 1 = 2 \/ 5 + j + 1 = 5) as [|]; try lia.
      apply (Honly (5 + j) line); [exact Hj|]. rewrite H. discriminate. }
    cbn [List.length seq combine filter].
    rewrite (@keptLine_nothing occ 0 l1 H1), (@keptLine_something occ 1 l2 H2),
      (@keptLine_nothing occ 2 l3 H3), (@keptLine_nothing occ 3 l4 H4),
      (@keptLine_something occ 4 l5 H5).
    rewrite (@filter_nothing_kept occ rest 5 Hrest). reflexivity.
Qed.

End HandlerFacts.

(** * The directory walk *)

Section WalkFacts.

Import RegExp Server Spec.

Context {E : Engine}.

(** Induction on a tree, with the property at hand for every entry of a
    directory. *)
Lemma node_induction (P : Fs.node -> Prop) :
  (forall read, P (Fs.File read)) ->
  (forall entries, Forall (fun entry => P (snd entry)) entries ->
                   P (Fs.Dir entries)) ->
  (forall message, P (Fs.DirErr message)) ->
  (forall read, P (Fs.Other read)) ->
  (forall message, P (Fs.NoStat message)) ->
  forall n, P n.
Proof.
  intros HFile HDir HDirErr HOther HNoStat.
  fix IH 1. intros [read|entries|message|read|message].
  - apply HFile.
  - apply HDir. induction entries as [|[name child] rest IHrest].
    + constructor.
    + constructor; [apply IH | exact IHrest].
  - apply HDirErr.
  - apply HOther.
  - apply HNoStat.
Qed.

Lemma bind_pointwise (St A B : Type) (m m' : M St A) (k k' : A -> M St B)
    (s : St) :
  m s = m' s -> (forall a s', k a s' = k' a s') ->
  bind m k s = bind m' k' s.
Proof.
  intros Hm Hk. unfold bind. rewrite Hm.
  destruct (m' s) as [[[a|message] s']|]; auto.
Qed.

Lemma emptySkipped_cons (name : string) (child : Fs.node)
    (rest : list (string * Fs.node)) :
  emptySkipped (Fs.Dir ((name, child) :: rest))
  = match emptySkipped (Fs.Dir rest) with
    | Fs.Dir rest' =>
        Fs.Dir ((name, if skippedDirectory name child then Fs.Dir []
                       else emptySkipped child) :: rest')
    | other => other
    end.
Proof. reflexivity. Qed.

Lemma emptySkipped_Dir (entries : list (string * Fs.node)) :
  exists entries', emptySkipped (Fs.Dir entries) = Fs.Dir entries'.
Proof. simpl. eauto. Qed.

Lemma visitEntry_Dir (fuel : nat) (pattern flags : string)
    (exts : list string) (dir name : string)
    (entries : list (string * Fs.node)) :
  visitEntry fuel pattern flags exts dir name (Fs.Dir entries)
  = if descends name
    then searchDirectory fuel pattern flags exts (Path.join dir name)
           (Fs.Dir entries)
    else ret tt.
Proof. reflexivity. Qed.

Lemma visitEntry_DirErr (fuel : nat) (pattern flags : string)
    (exts : list string) (dir name message : string) :
  visitEntry fuel pattern flags exts dir name (Fs.DirErr message)
  = if descends name then throw message else ret tt.
Proof. unfold visitEntry, descends. simpl. now destruct (_ && _). Qed.

Lemma visitEntry_File (fuel : nat) (pattern flags : string)
    (exts : list string) (dir name : string) (read : string + string) :
  visitEntry fuel pattern flags exts dir name (Fs.File read)
  = if JsString.includes exts (Path.extname name)
    then searchFile fuel pattern flags (Path.join dir name) (Fs.File read)
    else ret tt.
Proof. reflexivity. Qed.

Lemma descends_skipped (name : string) :
  descends name = negb (JsString.startsWith name "." || String.eqb name "node_modules").
Proof. unfold descends. now rewrite negb_orb. Qed.

Lemma visitEntry_emptySkipped (fuel : nat) (pattern flags : string)
    (exts : list string) (dir name : string) (child : Fs.node) (s : walkState) :
  (forall dir' s', searchDirectory fuel pattern flags exts dir' child s'
                   = searchDirectory fuel pattern flags exts dir'
                       (emptySkipped child) s') ->
  visitEntry fuel pattern flags exts dir name child s
  = visitEntry fuel pattern flags exts dir name
      (if skippedDirectory name child then Fs.Dir [] else emptySkipped child) s.
Proof.
  intros IH. unfold skippedDirectory.
  destruct child as [read|entries|message|read|message]; try reflexivity.
  - destruct (emptySkipped_Dir entries) as [entries' Hentries].
    rewrite Hentries in *.
    assert (Hd := descends_skipped name).
    destruct (JsString.startsWith name "." || String.eqb name "node_modules");
      rewrite !visitEntry_Dir, Hd; simpl; [reflexivity | apply IH].
  - assert (Hd := descends_skipped name).
    destruct (JsString.startsWith name "." || String.eqb name "node_modules");
      [|reflexivity].
    now rewrite visitEntry_DirErr, visitEntry_Dir, Hd.
Qed.

Lemma searchDirectory_emptySkipped (fuel : nat) (pattern flags : string)
    (exts : list string) :
  forall (n : Fs.node) (dir : string) (s : walkState),
    searchDirectory fuel pattern flags exts dir n s
    = searchDirectory fuel pattern flags exts dir (emptySkipped n) s.
Proof.
  induction n as [read|entries IH|message|read|message] using node_induction;
    try reflexivity.
  intros dir. induction IH as [|[name child] rest Hchild _ IHrest]; intros s.
  - reflexivity.
  - rewrite emptySkipped_cons.
    destruct (emptySkipped_Dir rest) as [rest' Hrest]. rewrite Hrest in *.
    rewrite !searchDirectory_cons. apply bind_pointwise.
    + now apply visitEntry_emptySkipped.
    + intros _ s'. apply IHrest.
Qed.

Lemma withoutUnreadable_Dir (entries : list (string * Fs.node)) :
  exists entries', withoutUnreadable (Fs.Dir entries) = Fs.Dir entries'.
Proof. simpl. eauto. Qed.

Lemma withoutUnreadable_cons (name : string) (child : Fs.node)
    (rest : list (string * Fs.node)) :
  withoutUnreadable (Fs.Dir ((name, child) :: rest))
  = match withoutUnreadable (Fs.Dir rest) with
    | Fs.Dir rest' =>
        if unreadableFile child then Fs.Dir rest'
        else Fs.Dir ((name, withoutUnreadable child) :: rest')
    | other => other
    end.
Proof. simpl. now destruct (unreadableFile child). Qed.

(** An eligible file that cannot be read leaves no trace: the [catch]
    swallows the exception and nothing was written before it. *)
Lemma visitEntry_unreadable (fuel : nat) (pattern flags : string)
    (exts : list string) (dir name message : string) (s : walkState) :
  visitEntry fuel pattern flags exts dir name (Fs.File (inr message)) s
  = Some (Normal tt, s).
Proof.
  rewrite visitEntry_File.
  destruct (JsString.includes exts (Path.extname name)); reflexivity.
Qed.

Lemma visitEntry_withoutUnreadable (fuel : nat) (pattern flags : string)
    (exts : list string) (dir name : string) (child : Fs.node) (s : walkState) :
  (forall dir' s', searchDirectory fuel pattern flags exts dir' child s'
                   = searchDirectory fuel pattern flags exts dir'
                       (withoutUnreadable child) s') ->
  visitEntry fuel pattern flags exts dir name child s
  = visitEntry fuel pattern flags exts dir name (withoutUnreadable child) s.
Proof.
  intros IH. destruct child as [read|entries|message|read|message];
    try reflexivity.
  destruct (withoutUnreadable_Dir entries) as [entries' Hentries].
  rewrite Hentries in *. rewrite !visitEntry_Dir.
  destruct (descends name); [apply IH | reflexivity].
Qed.

Lemma searchDirectory_withoutUnreadable (fuel : nat) (pattern flags : string)
    (exts : list string) :
  forall (n : Fs.node) (dir : string) (s : walkState),
    searchDirectory fuel pattern flags exts dir n s
    = searchDirectory fuel pattern flags exts dir (withoutUnreadable n) s.
Proof.
  induction n as [read|entries IH|message|read|message] using node_induction;
    try reflexivity.
  intros dir. induction IH as [|[name child] rest Hchild _ IHrest]; intros s.
  - reflexivity.
  - rewrite withoutUnreadable_cons.
    destruct (withoutUnreadable_Dir rest) as [rest' Hrest]. rewrite Hrest in *.
    rewrite searchDirectory_cons.
    destruct child as [[text|message]|entries|message|read|message];
      cbn [unreadableFile].
    2:{ unfold bind. rewrite visitEntry_unreadable. apply IHrest. }
    all: rewrite searchDirectory_cons; apply bind_pointwise;
      [now apply visitEntry_withoutUnreadable | intros _ s'; apply IHrest].
Qed.

End WalkFacts.

(** * [path.extname] on names that begin with a dot *)

Section ExtnameFacts.

Import Path Spec.

Lemma extScan_plain_then_dot (pending : list ascii) :
  forall st : extState,
    forallb plainChar pending = true ->
    startDot st = None -> preDotState st = 0%Z ->
    preDotState (extScan (pending ++ ["."%char]) st) = 0%Z.
Proof.
  induction pending as [|c before IH]; intros st Hplain Hdot Hpre.
  - simpl. destruct (endPart st); simpl; rewrite Hdot; exact Hpre.
  - simpl in Hplain. apply andb_true_iff in Hplain as [Hc Hbefore].
    apply andb_true_iff in Hc as [Hnotdot Hnotslash].
    apply negb_true_iff in Hnotdot, Hnotslash.
    cbn [extScan app]. rewrite Hnotslash, Hnotdot.
    destruct (endPart st); cbn [startDot]; rewrite Hdot; apply IH; auto.
Qed.

(** No dot after the leading one: no extension. *)
Lemma extname_dot_plain (rest : string) :
  plain rest = true -> extname ("." ++ rest) = EmptyString.
Proof.
  intros Hplain. unfold extname.
  change (list_ascii_of_string ("." ++ rest))
    with ("."%char :: list_ascii_of_string rest).
  cbn [rev]. set (st := extScan _ extInit).
  assert (Hpre : preDotState st = 0%Z).
  { apply extScan_plain_then_dot; auto.
    unfold plain in Hplain. rewrite forallb_forall in *.
    intros c Hc. apply Hplain. now apply in_rev. }
  destruct (startDot st), (endPart st); try reflexivity.
  now rewrite Hpre.
Qed.

Lemma extScan_plain_seen (l rest : list ascii) :
  forall sp e ms pd,
    forallb plainChar l = true ->
    extScan (l ++ rest) (mkExtState None sp (Some e) ms pd)
    = extScan rest (mkExtState None sp (Some e) ms pd).
Proof.
  induction l as [|c l IH]; intros sp e ms pd Hplain; auto.
  simpl in Hplain. apply andb_true_iff in Hplain as [Hc Hl].
  apply andb_true_iff in Hc as [Hnotdot Hnotslash].
  apply negb_true_iff in Hnotdot, Hnotslash.
  cbn [extScan app]. rewrite Hnotslash, Hnotdot. cbn. now apply IH.
Qed.

Lemma extScan_plain_first (l rest : list ascii) :
  forall sp pd,
    forallb plainChar l = true -> l <> [] ->
    extScan (l ++ rest) (mkExtState None sp None true pd)
    = extScan rest (mkExtState None sp (Some (List.length (l ++ rest))) false pd).
Proof.
  intros sp pd Hplain Hne. destruct l as [|c l]; [contradiction|].
  simpl in Hplain. apply andb_true_iff in Hplain as [Hc Hl].
  apply andb_true_iff in Hc as [Hnotdot Hnotslash].
  apply negb_true_iff in Hnotdot, Hnotslash.
  cbn [extScan app]. rewrite Hnotslash, Hnotdot. cbn.
  rewrite extScan_plain_seen by assumption.
  now rewrite Nat.add_1_r.
Qed.

Lemma extScan_after_dot (l rest : list ascii) :
  forall d sp e ms pd,
    forallb noSlashChar l = true ->
    exists pd',
      extScan (l ++ rest) (mkExtState (Some d) sp (Some e) ms pd)
      = extScan rest (mkExtState (Some d) sp (Some e) ms pd').
Proof.
  induction l as [|c l IH]; intros d sp e ms pd Hl; [eauto|].
  simpl in Hl. apply andb_true_iff in Hl as [Hc Hl].
  apply negb_true_iff in Hc. cbn [extScan app]. rewrite Hc.
  destruct (Ascii.eqb c "."%char); cbn.
  - destruct (negb (pd =? 1)%Z); now apply IH.
  - now apply IH.
Qed.

Lemma list_ascii_of_string_app (a b : string) :
  list_ascii_of_string (a ++ b)%string
  = list_ascii_of_string a ++ list_ascii_of_string b.
Proof. induction a as [|c a IH]; simpl; auto. now rewrite IH. Qed.

Lemma length_list_ascii (s : string) :
  List.length (list_ascii_of_string s) = String.length s.
Proof. induction s as [|c s IH]; simpl; auto. Qed.

Lemma substring_append (a b : string) :
  String.substring (String.length a) (String.length b) (a ++ b)%string = b.
Proof.
  induction a as [|c a IH]; simpl; auto.
  induction b as [|c b IH]; simpl; auto. now rewrite IH.
Qed.

Lemma string_length_append (a b : string) :
  String.length (a ++ b) = String.length a + String.length b.
Proof. induction a as [|c a IH]; simpl; auto. Qed.

(** A dot after the leading one: the extension runs from the last dot to
    the end of the name. *)
Lemma extname_dot_suffix (stem suffix : string) :
  slashFree stem = true ->
  plain suffix = true ->
  stem <> EmptyString \/ suffix <> EmptyString ->
  extname ("." ++ stem ++ "." ++ suffix)%string = ("." ++ suffix)%string.
Proof.
  intros Hstem Hsuffix Hnot. unfold slashFree in Hstem. unfold extname.
  set (name := ("." ++ stem ++ "." ++ suffix)%string).
  assert (Hchars : rev (list_ascii_of_string name)
                   = rev (list_ascii_of_string suffix)
                     ++ "."%char :: rev (list_ascii_of_string stem) ++ ["."%char]).
  { unfold name.
    change (list_ascii_of_string ("." ++ stem ++ "." ++ suffix)%string)
      with ("."%char :: list_ascii_of_string (stem ++ "." ++ suffix)%string).
    rewrite list_ascii_of_string_app.
    change (list_ascii_of_string ("." ++ suffix)%string)
      with ("."%char :: list_ascii_of_string suffix).
    cbn [rev]. rewrite rev_app_distr. cbn [rev].
    now rewrite <- !app_assoc. }
  rewrite Hchars. clear Hchars.
  set (d := S (String.length stem)).
  set (e := d + S (String.length suffix)).
  assert (Hscan : exists pd,
            extScan (rev (list_ascii_of_string suffix)
                     ++ "."%char :: rev (list_ascii_of_string stem) ++ ["."%char])
              extInit
            = extScan ["."%char] (mkExtState (Some d) 0 (Some e) false pd)).
  { assert (Hlen : List.length (rev (list_ascii_of_string stem) ++ ["."%char]) = d).
    { rewrite length_app, length_rev, length_list_ascii. simpl. unfold d. lia. }
    assert (Hrest : forall sp pd0,
              exists pd,
                extScan ("."%char :: rev (list_ascii_of_string stem) ++ ["."%char])
                  (mkExtState None sp (Some e) false pd0)
                = extScan ["."%char] (mkExtState (Some d) sp (Some e) false pd)).
    { intros sp pd0. cbn [extScan]. cbn. rewrite Hlen.
      apply extScan_after_dot. rewrite forallb_forall in *.
      intros c Hc. apply Hstem. now apply in_rev. }
    destruct (list_ascii_of_string suffix) as [|c cs] eqn:Hsuf.
    - cbn [rev app]. unfold extInit. cbn [extScan]. cbn. rewrite Hlen.
      assert (He : d + 1 = e).
      { unfold e. replace (String.length suffix) with 0; [lia|].
        now rewrite <- length_list_ascii, Hsuf. }
      rewrite He. apply extScan_after_dot. rewrite forallb_forall in *.
      intros c Hc. apply Hstem. now apply in_rev.
    - unfold extInit. rewrite extScan_plain_first.
      + replace (List.length (rev (c :: cs) ++ "."%char
                              :: rev (list_ascii_of_string stem) ++ ["."%char]))
          with e; [apply Hrest|].
        rewrite length_app, length_rev. cbn [List.length]. rewrite Hlen.
        unfold e. rewrite <- (length_list_ascii suffix), Hsuf. simpl. lia.
      + unfold plain in Hsuffix. rewrite Hsuf in Hsuffix.
        rewrite forallb_forall in *. intros x Hx. apply Hsuffix. now apply in_rev.
      + intros Hnil. apply (f_equal (@List.length ascii)) in Hnil.
        rewrite length_rev in Hnil. discriminate. }
  destruct Hscan as [pd ->].
  cbn [extScan List.length]. cbn.
  assert (Hfinal : forall st, preDotState st = 1%Z -> startDot st = Some d ->
             endPart st = Some e -> startPart st = 0 ->
             match startDot st, endPart st with
             | Some sd, Some e' =>
                 if (preDotState st =? 0)%Z
                    || ((preDotState st =? 1)%Z && Nat.eqb sd (e' - 1)
                        && Nat.eqb sd (startPart st + 1))
                 then EmptyString
                 else JsString.slice name sd e'
             | _, _ => EmptyString
             end = ("." ++ suffix)%string).
  { intros st Hpd Hsd Hep Hsp. rewrite Hsd, Hep, Hpd, Hsp.
    change ((1 =? 0)%Z) with false. change ((1 =? 1)%Z) with true.
    cbn [orb andb].
    replace (Nat.eqb d (e - 1) && Nat.eqb d (0 + 1)) with false.
    - unfold JsString.slice.
      replace (e - d) with (String.length ("." ++ suffix)%string)
        by (unfold e; simpl; lia).
      replace d with (String.length ("." ++ stem)%string) by reflexivity.
      unfold name.
      change (("." ++ stem ++ "." ++ suffix)%string)
        with ((("." ++ stem) ++ ("." ++ suffix))%string).
      apply substring_append.
    - symmetry. apply andb_false_iff.
      destruct Hnot as [Hs|Hs].
      + right. apply Nat.eqb_neq. unfold d. destruct stem; [contradiction|simpl; lia].
      + left. apply Nat.eqb_neq. unfold e. destruct suffix; [contradiction|simpl; lia]. }
  destruct (negb (pd =? 1)%Z) eqn:Hpd.
  - now apply Hfinal.
  - apply Hfinal; auto. cbn. apply negb_false_iff in Hpd. now apply Z.eqb_eq.
Qed.

End ExtnameFacts.

(** * The counts of a directory search *)

Section CountFacts.

Import RegExp Server Spec.

Context {E : Engine}.

Lemma fold_left_count (lines : list LineResult) (start : nat) :
  fold_left (fun sum m => sum + List.length (matches m)) lines start
  = start + occurrenceCount lines.
Proof.
  revert start. induction lines as [|l rest IH]; intros start; simpl.
  - unfold occurrenceCount. simpl. lia.
  - rewrite IH. unfold occurrenceCount. simpl. lia.
Qed.

Lemma countMatches_occurrenceCount (lines : list LineResult) :
  countMatches lines = occurrenceCount lines.
Proof. unfold countMatches. now rewrite fold_left_count. Qed.

Lemma occurrenceCount_app (xs ys : list LineResult) :
  occurrenceCount (xs ++ ys) = occurrenceCount xs + occurrenceCount ys.
Proof. unfold occurrenceCount. now rewrite map_app, list_sum_app. Qed.

(** With a pattern that compiles, the lines of a file never throw; what
    they add to [totalMatches] is what they add to [fileMatches]. *)
Lemma forEachFileLine_counts (fuel : nat) (pattern flags : string) (R : regexp) :
  newRegExp pattern flags = Normal R ->
  forall (lines : list string) (index : nat) (fileMatches : list LineResult)
         (st st' : walkState) (c : completion (list LineResult)),
    forEachFileLine fuel pattern flags lines index fileMatches st = Some (c, st') ->
    exists fileMatches',
      c = Normal fileMatches'
      /\ walkResults st' = walkResults st
      /\ walkTotal st' + occurrenceCount fileMatches
         = walkTotal st + occurrenceCount fileMatches'
      /\ (Forall (fun l => matches l <> []) fileMatches ->
          Forall (fun l => matches l <> []) fileMatches').
Proof.
  intros HR. induction lines as [|line rest IH];
    intros index fileMatches st st' c Hrun.
  - injection Hrun as <- <-. exists fileMatches. auto.
  - cbn [forEachFileLine] in Hrun. unfold bind at 1 in Hrun.
    rewrite findOccurrences_compiled with (R := R) in Hrun by assumption.
    unfold loop in Hrun.
    destruct (whileExec fuel R line []) as [lineMatches|]; [|discriminate].
    destruct (0 <? List.length lineMatches)%nat eqn:Hsome.
    + unfold bind at 1, modify in Hrun.
      apply IH in Hrun as (fm' & -> & Hres & Htotal & Hne).
      exists fm'. split; [reflexivity|]. split; [exact Hres|].
      rewrite occurrenceCount_app in Htotal. unfold occurrenceCount at 2 in Htotal.
      cbn [map list_sum matches addTotal walkTotal] in Htotal.
      change (list_sum [List.length lineMatches])
        with (List.length lineMatches + 0) in Htotal.
      split; [lia|]. intros Hfm. apply Hne. apply Forall_app. split; auto.
      constructor; auto. cbn [matches]. apply Nat.ltb_lt in Hsome.
      destruct lineMatches; [simpl in Hsome; lia | discriminate].
    + apply IH in Hrun as (fm' & -> & Hres & Htotal & Hne). eauto.
Qed.

(** With a pattern that does not compile, the first line throws before
    anything is written. *)
Lemma forEachFileLine_throws (fuel : nat) (pattern flags message : string)
    (line : string) (rest : list string) (index : nat)
    (fileMatches : list LineResult) (st : walkState) :
  newRegExp pattern flags = Throw message ->
  forEachFileLine fuel pattern flags (line :: rest) index fileMatches st
  = Some (Throw message, st).
Proof.
  intros HR. cbn [forEachFileLine]. unfold bind.
  now rewrite findOccurrences_throws with (message := message).
Qed.

(** A pattern that does not compile is swallowed with the file: the
    [catch] meant for unreadable files takes the SyntaxError too. *)
Lemma searchFile_swallows_compile_error (fuel : nat)
    (pattern flags message filePath : string) (n : Fs.node) (st : walkState) :
  newRegExp pattern flags = Throw message ->
  searchFile fuel pattern flags filePath n st = Some (Normal tt, st).
Proof.
  intros HR. unfold searchFile, tryCatch, bind at 1, call.
  destruct (Fs.readFileSync n) as [text|message']; [|reflexivity].
  destruct (JsString.split text) as [|line rest] eqn:Hsplit.
  - now apply split_not_empty in Hsplit.
  - unfold bind. now rewrite forEachFileLine_throws with (message := message).
Qed.

Lemma searchFile_consistent (fuel : nat) (pattern flags filePath : string)
    (n : Fs.node) (st st' : walkState) (c : completion unit) :
  searchFile fuel pattern flags filePath n st = Some (c, st') ->
  consistent st -> consistent st'.
Proof.
  destruct (newRegExp pattern flags) as [R|message] eqn:HR.
  2:{ rewrite searchFile_swallows_compile_error with (message := message)
        by assumption. now intros [= <- <-]. }
  unfold searchFile, tryCatch, bind at 1, call.
  destruct (Fs.readFileSync n) as [text|message]; [|now intros [= <- <-]].
  unfold bind.
  destruct (forEachFileLine fuel pattern flags (JsString.split text) 0 [] st)
    as [[c1 st1]|] eqn:Hlines; [|discriminate].
  apply (@forEachFileLine_counts fuel pattern flags R HR) in Hlines
    as (fileMatches & -> & Hres & Htotal & Hne).
  specialize (Hne (Forall_nil _)).
  destruct (0 <? List.length fileMatches)%nat eqn:Hsome.
  - unfold modify. intros [= <- <-] [Hfiles Hsum]. split.
    + cbn [pushResult walkResults]. rewrite Hres. apply Forall_app. split; auto.
      constructor; auto. unfold wellCounted. cbn [matchCount fileResults].
      rewrite countMatches_occurrenceCount. repeat split; auto.
      apply Nat.ltb_lt in Hsome. destruct fileMatches; [simpl in Hsome; lia|].
      discriminate.
    + cbn [pushResult walkResults walkTotal]. rewrite Hres, map_app, list_sum_app.
      cbn [map list_sum matchCount]. rewrite countMatches_occurrenceCount.
      change (occurrenceCount []) with 0 in Htotal.
      change (list_sum [occurrenceCount fileMatches])
        with (occurrenceCount fileMatches + 0). lia.
  - unfold ret. intros [= <- <-] [Hfiles Hsum]. split.
    + now rewrite Hres.
    + rewrite Hres. apply Nat.ltb_ge in Hsome.
      destruct fileMatches; [|simpl in Hsome; lia].
      change (occurrenceCount []) with 0 in Htotal. lia.
Qed.

Lemma bind_consistent (A B : Type) (m : M walkState A) (k : A -> M walkState B)
    (st st' : walkState) (c : completion B) :
  bind m k st = Some (c, st') ->
  (forall c1 st1, m st = Some (c1, st1) -> consistent st -> consistent st1) ->
  (forall a st1 c2 st2, k a st1 = Some (c2, st2) ->
                        consistent st1 -> consistent st2) ->
  consistent st -> consistent st'.
Proof.
  unfold bind. intros Hrun Hm Hk Hst.
  destruct (m st) as [[[a|message] st1]|] eqn:Hmst; [| |discriminate].
  - eapply Hk; eauto.
  - injection Hrun as <- <-. eapply Hm; eauto.
Qed.

Lemma searchDirectory_consistent (fuel : nat) (pattern flags : string)
    (exts : list string) :
  forall (n : Fs.node) (dir : string) (st st' : walkState) (c : completion unit),
    searchDirectory fuel pattern flags exts dir n st = Some (c, st') ->
    consistent st -> consistent st'.
Proof.
  induction n as [read|entries IH|message|read|message] using node_induction;
    try (intros dir st st' c [= <- <-]; auto).
  intros dir. induction IH as [|[name child] rest Hchild _ IHrest];
    intros st st' c Hrun.
  - now injection Hrun as <- <-.
  - rewrite searchDirectory_cons in Hrun. simpl snd in Hchild.
    eapply bind_consistent; [exact Hrun| |].
    + intros c1 st1 Hvisit.
      destruct child as [read|entries|message|read|message].
      * rewrite visitEntry_File in Hvisit.
        destruct (JsString.includes exts (Path.extname name)).
        -- eapply searchFile_consistent; eauto.
        -- injection Hvisit as _ <-; auto.
      * rewrite visitEntry_Dir in Hvisit. destruct (descends name).
        -- eapply Hchild; eauto.
        -- injection Hvisit as _ <-; auto.
      * rewrite visitEntry_DirErr in Hvisit.
        destruct (descends name); injection Hvisit as _ <-; auto.
      * injection Hvisit as _ <-; auto.
      * injection Hvisit as _ <-; auto.
    + intros a st1 c2 st2. apply IHrest.
Qed.

End CountFacts.

(** * Where the results come from *)

Section Provenance.

Import RegExp Server Spec.

Context {E : Engine}.

Lemma reached_incl (exts : list string) (dir : string)
    (entries entries' : list (string * Fs.node)) (path : string) :
  incl entries entries' ->
  reached exts dir (Fs.Dir entries) path ->
  reached exts dir (Fs.Dir entries') path.
Proof.
  intros Hincl Hreached. inversion Hreached; subst.
  - eapply reached_here; eauto.
  - eapply reached_below; eauto.
Qed.

(** The lines of a file leave the [results] array alone. *)
Lemma forEachFileLine_results (fuel : nat) (pattern flags : string) :
  forall (lines : list string) (index : nat) (fileMatches : list LineResult)
         (st st' : walkState) (c : completion (list LineResult)),
    forEachFileLine fuel pattern flags lines index fileMatches st = Some (c, st') ->
    walkResults st' = walkResults st.
Proof.
  induction lines as [|line rest IH]; intros index fileMatches st st' c Hrun.
  - now injection Hrun as _ <-.
  - cbn [forEachFileLine] in Hrun. unfold bind at 1, findOccurrences in Hrun.
    unfold bind at 1, call, loop in Hrun.
    destruct (newRegExp pattern flags) as [R|message];
      [|now injection Hrun as _ <-].
    destruct (whileExec fuel R line []) as [lineMatches|]; [|discriminate].
    destruct (0 <? List.length lineMatches)%nat.
    + unfold bind at 1, modify in Hrun. now apply IH in Hrun.
    + now apply IH in Hrun.
Qed.

(** One file adds at most one FileResult, under its own path, and none
    unless it could be read. *)
Lemma searchFile_results (fuel : nat) (pattern flags filePath : string)
    (n : Fs.node) (st st' : walkState) (c : completion unit) :
  searchFile fuel pattern flags filePath n st = Some (c, st') ->
  exists added,
    walkResults st' = walkResults st ++ added
    /\ Forall (fun r => file r = filePath
                        /\ exists text, Fs.readFileSync n = Normal text) added.
Proof.
  unfold searchFile, tryCatch, bind at 1, call.
  destruct (Fs.readFileSync n) as [text|message].
  2:{ intros [= _ <-]. exists []. now rewrite app_nil_r. }
  unfold bind.
  destruct (forEachFileLine fuel pattern flags (JsString.split text) 0 [] st)
    as [[[fileMatches|message] st1]|] eqn:Hlines; [| |discriminate].
  - apply forEachFileLine_results in Hlines.
    destruct (0 <? List.length fileMatches)%nat.
    + unfold modify. intros [= _ <-]. eexists [_]. cbn [pushResult walkResults].
      rewrite Hlines. split; [reflexivity|]. constructor; [|constructor].
      cbn [file]. eauto.
    + unfold ret. intros [= _ <-]. exists []. rewrite Hlines.
      now rewrite app_nil_r.
  - apply forEachFileLine_results in Hlines. unfold ret. intros [= _ <-].
    exists []. rewrite Hlines. now rewrite app_nil_r.
Qed.

(** Every FileResult that the walk adds is that of a file that it was to
    read. *)
Lemma searchDirectory_results (fuel : nat) (pattern flags : string)
    (exts : list string) :
  forall (n : Fs.node) (dir : string) (st st' : walkState) (c : completion unit),
    searchDirectory fuel pattern flags exts dir n st = Some (c, st') ->
    exists added,
      walkResults st' = walkResults st ++ added
      /\ Forall (fun r => reached exts dir n (file r)) added.
Proof.
  assert (Hnone : forall (n : Fs.node) (dir : string) (st : walkState),
            exists added,
              walkResults st = walkResults st ++ added
              /\ Forall (fun r => reached exts dir n (file r)) added).
  { intros n dir st. exists []. now rewrite app_nil_r. }
  induction n as [read|entries IH|message|read|message] using node_induction;
    try (intros dir st st' c [= _ <-]; apply Hnone).
  intros dir. induction IH as [|[name child] rest Hchild _ IHrest];
    intros st st' c Hrun.
  - injection Hrun as _ <-. apply Hnone.
  - rewrite searchDirectory_cons in Hrun. simpl snd in Hchild.
    assert (Hvisit : forall c1 st1,
              visitEntry fuel pattern flags exts dir name child st = Some (c1, st1) ->
              exists added,
                walkResults st1 = walkResults st ++ added
                /\ Forall (fun r => reached exts dir
                                      (Fs.Dir ((name, child) :: rest)) (file r))
                     added).
    { intros c1 st1 Hv.
      destruct child as [read|entries|message|read|message].
      - rewrite visitEntry_File in Hv.
        destruct (JsString.includes exts (Path.extname name)) eqn:Hext;
          [|injection Hv as _ <-; apply Hnone].
        apply searchFile_results in Hv as (added & Hres & Hadded).
        exists added. split; [exact Hres|].
        eapply Forall_impl; [|exact Hadded].
        intros r (Hfile & text & Hread). rewrite Hfile.
        destruct read as [text'|message]; [|discriminate].
        eapply reached_here; [left; reflexivity | exact Hext].
      - rewrite visitEntry_Dir in Hv.
        destruct (descends name) eqn:Hdesc;
          [|injection Hv as _ <-; apply Hnone].
        apply Hchild in Hv as (added & Hres & Hadded).
        exists added. split; [exact Hres|].
        eapply Forall_impl; [|exact Hadded].
        intros r Hr. eapply reached_below; [left; reflexivity | exact Hdesc | exact Hr].
      - rewrite visitEntry_DirErr in Hv.
        destruct (descends name); injection Hv as _ <-; apply Hnone.
      - injection Hv as _ <-; apply Hnone.
      - injection Hv as _ <-; apply Hnone. }
    unfold bind in Hrun.
    destruct (visitEntry fuel pattern flags exts dir name child st)
      as [[[[]|message] st1]|] eqn:Hv; [| |discriminate].
    + destruct (Hvisit _ _ eq_refl) as (added1 & Hres1 & Hadded1).
      apply IHrest in Hrun as (added2 & Hres2 & Hadded2).
      exists (added1 ++ added2). split.
      * now rewrite Hres2, Hres1, app_assoc.
      * apply Forall_app. split; [exact Hadded1|].
        eapply Forall_impl; [|exact Hadded2].
        intros r Hr. eapply reached_incl; [|exact Hr].
        intros x Hx. now right.
    + injection Hrun as _ <-. apply (Hvisit _ _ eq_refl).
Qed.

Lemma emptySkipped_In (entries entries' : list (string * Fs.node))
    (name : string) (child : Fs.node) :
  emptySkipped (Fs.Dir entries) = Fs.Dir entries' ->
  In (name, child) entries ->
  In (name, if skippedDirectory name child then Fs.Dir []
            else emptySkipped child) entries'.
Proof.
  revert entries'. induction entries as [|[name' child'] rest IH];
    intros entries' Hentries Hin; [contradiction|].
  rewrite emptySkipped_cons in Hentries.
  destruct (emptySkipped_Dir rest) as [rest' Hrest]. rewrite Hrest in Hentries.
  injection Hentries as <-. destruct Hin as [[= -> ->]|Hin].
  - now left.
  - right. now apply IH.
Qed.

(** What is reached is reached in the tree with the skipped directories
    emptied. *)
Lemma reached_emptySkipped (exts : list string) :
  forall (n : Fs.node) (dir path : string),
    reached exts dir n path -> reached exts dir (emptySkipped n) path.
Proof.
  intros n dir path Hreached.
  induction Hreached as [dir entries name text Hin Hext
                        |dir entries name child path Hin Hdesc _ IH].
  - destruct (emptySkipped_Dir entries) as [entries' Hentries].
    rewrite Hentries. eapply reached_here; [|exact Hext].
    eapply emptySkipped_In in Hin; [|exact Hentries]. exact Hin.
  - destruct (emptySkipped_Dir entries) as [entries' Hentries].
    rewrite Hentries.
    eapply reached_below; [|exact Hdesc|exact IH].
    eapply emptySkipped_In in Hin; [|exact Hentries].
    replace (skippedDirectory name child) with false in Hin; [exact Hin|].
    unfold skippedDirectory. rewrite descends_skipped in Hdesc.
    apply negb_true_iff in Hdesc. rewrite Hdesc. now destruct child.
Qed.

End Provenance.

(** * The directory search *)

Section DirectorySearch.

Import RegExp Server Spec.

Context {E : Engine}.

Variable resolve : string -> string.
Variable fsys : string -> option Fs.node.

(** A change of the tree that the walk cannot tell, and that keeps the
    root in existence, is one that the directory search cannot tell. *)
Lemma handleRegexSearchDirectory_insensitive (f : Fs.node -> Fs.node)
    (fuel : nat) (pattern dirPath : string)
    (extensionsArg : option (list string)) (flagsArg : option string) :
  (forall exts flags n dir s,
     searchDirectory fuel pattern flags exts dir n s
     = searchDirectory fuel pattern flags exts dir (f n) s) ->
  (forall n, Fs.existsSync (Some (f n)) = Fs.existsSync (Some n)) ->
  handleRegexSearchDirectory resolve fsys fuel pattern dirPath
    extensionsArg flagsArg
  = handleRegexSearchDirectory resolve (fun p => option_map f (fsys p))
      fuel pattern dirPath extensionsArg flagsArg.
Proof.
  intros Hwalk Hexists. unfold handleRegexSearchDirectory, respond.
  unfold searchDirectoryAt. cbv beta.
  destruct (fsys (resolve dirPath)) as [n|] eqn:Hroot; cbn [option_map].
  - rewrite Hexists. destruct (Fs.existsSync (Some n)); [|reflexivity].
    cbn [negb]. unfold bind at 1 3. now rewrite <- Hwalk.
  - reflexivity.
Qed.

(** Every FileResult of a summary is that of a file that the walk of the
    root was to read. *)
Lemma handleRegexSearchDirectory_results (fuel : nat)
    (pattern dirPath : string) (extensionsArg : option (list string))
    (flagsArg : option string) (root : Fs.node) (summary : DirSummary) :
  fsys (resolve dirPath) = Some root ->
  handleRegexSearchDirectory resolve fsys fuel pattern dirPath
    extensionsArg flagsArg = Some (Content summary) ->
  Forall (fun r => reached (extensions summary) (resolve dirPath) root (file r))
    (results summary).
Proof.
  intros Hroot. unfold handleRegexSearchDirectory, respond.
  destruct (Fs.existsSync (fsys (resolve dirPath))); cbn [negb];
    [|discriminate].
  unfold bind at 1, searchDirectoryAt. rewrite Hroot.
  match goal with
  | |- context [searchDirectory ?a ?b ?c ?d ?e ?f ?s] =>
      destruct (searchDirectory a b c d e f s) as [[[[]|message] st]|] eqn:Hwalk
  end; try discriminate.
  intros [= <-]. cbn [results extensions].
  apply searchDirectory_results in Hwalk as (added & Hres & Hadded).
  now rewrite Hres.
Qed.

(** C6.  The walk never goes into a directory whose name begins with a dot
    or is [node_modules]: emptying every such directory, whatever it holds
    and at whatever depth, changes neither what the walk writes nor how it
    ends, and so nothing of the directory search; and every FileResult of a
    summary is that of a file reached from the root through directories of
    other names only. *)
Theorem walk_skips_hidden_and_dependency_directories (fuel : nat)
    (pattern dirPath : string) (extensionsArg : option (list string))
    (flagsArg : option string) :
  (forall exts flags n dir s,
     searchDirectory fuel pattern flags exts dir n s
     = searchDirectory fuel pattern flags exts dir (emptySkipped n) s)
  /\ handleRegexSearchDirectory resolve fsys fuel pattern dirPath
       extensionsArg flagsArg
     = handleRegexSearchDirectory resolve
         (fun p => option_map emptySkipped (fsys p))
         fuel pattern dirPath extensionsArg flagsArg
  /\ (forall root summary,
        fsys (resolve dirPath) = Some root ->
        handleRegexSearchDirectory resolve fsys fuel pattern dirPath
          extensionsArg flagsArg = Some (Content summary) ->
        Forall (fun r => reached (extensions summary) (resolve dirPath)
                           (emptySkipped root) (file r))
          (results summary)).
Proof.
  split; [|split].
  - intros exts flags n dir s. apply searchDirectory_emptySkipped.
  - apply handleRegexSearchDirectory_insensitive.
    + intros exts flags n dir s. apply searchDirectory_emptySkipped.
    + now intros [read|entries|message|read|message].
  - intros root summary Hroot Hrun.
    eapply Forall_impl;
      [|eapply handleRegexSearchDirectory_results; eauto].
    intros r. apply reached_emptySkipped.
Qed.

(** C7.  A regular file that cannot be read is passed over in silence and
    the walk goes on: the walk and the directory search do on the tree what
    they do on the tree without its unreadable files, so these add no
    FileResult, nothing to [totalMatches], and no failure; and every
    FileResult of a summary is that of a file that could be read. *)
Theorem walk_passes_over_unreadable_files (fuel : nat)
    (pattern dirPath : string) (extensionsArg : option (list string))
    (flagsArg : option string) :
  (forall exts flags n dir s,
     searchDirectory fuel pattern flags exts dir n s
     = searchDirectory fuel pattern flags exts dir (withoutUnreadable n) s)
  /\ handleRegexSearchDirectory resolve fsys fuel pattern dirPath
       extensionsArg flagsArg
     = handleRegexSearchDirectory resolve
         (fun p => option_map withoutUnreadable (fsys p))
         fuel pattern dirPath extensionsArg flagsArg
  /\ (forall root summary,
        fsys (resolve dirPath) = Some root ->
        handleRegexSearchDirectory resolve fsys fuel pattern dirPath
          extensionsArg flagsArg = Some (Content summary) ->
        Forall (fun r => reached (extensions summary) (resolve dirPath) root
                           (file r))
          (results summary)).
Proof.
  split; [|split].
  - intros exts flags n dir s. apply searchDirectory_withoutUnreadable.
  - apply handleRegexSearchDirectory_insensitive.
    + intros exts flags n dir s. apply searchDirectory_withoutUnreadable.
    + now intros [read|entries|message|read|message].
  - intros root summary Hroot Hrun.
    eapply handleRegexSearchDirectory_results; eauto.
Qed.

(** C9.  In the summary of a directory search, every FileResult has at
    least one line, each of its lines has an occurrence, and its
    [matchCount] is the number of occurrences on its lines; [totalMatches]
    is the sum of the [matchCount]s and [filesMatched] the number of
    FileResults. *)
Theorem directory_summary_counts (fuel : nat) (pattern dirPath : string)
    (extensionsArg : option (list string)) (flagsArg : option string)
    (summary : DirSummary) :
  handleRegexSearchDirectory resolve fsys fuel pattern dirPath
    extensionsArg flagsArg = Some (Content summary) ->
  Forall (fun r => matchCount r = occurrenceCount (fileResults r)
                   /\ fileResults r <> []
                   /\ Forall (fun l => matches l <> []) (fileResults r))
    (results summary)
  /\ totalMatches summary = list_sum (map matchCount (results summary))
  /\ filesMatched summary = List.length (results summary).
Proof.
  unfold handleRegexSearchDirectory, respond.
  destruct (Fs.existsSync (fsys (resolve dirPath))); cbn [negb];
    [|discriminate].
  unfold bind at 1.
  match goal with
  | |- context [searchDirectoryAt ?a ?b ?c ?d ?e ?f ?s] =>
      destruct (searchDirectoryAt a b c d e f s) as [[[[]|message] st]|] eqn:Hwalk
  end; try discriminate.
  intros [= <-]. cbn [results totalMatches filesMatched].
  assert (Hst : consistent st).
  { unfold searchDirectoryAt in Hwalk.
    destruct (fsys (resolve dirPath)) as [n|]; [|discriminate].
    eapply searchDirectory_consistent; [exact Hwalk|].
    split; [constructor | reflexivity]. }
  destruct Hst as [Hfiles Hsum]. auto.
Qed.

End DirectorySearch.

(** * Searches that do not end *)

Section Divergence.

Import RegExp Server Spec.

Context {E : Engine}.

Variable resolve : string -> string.
Variable fsys : string -> option Fs.node.

(** A line on which the loop does not end keeps the single-file search
    from returning. *)
Lemma handleRegexSearch_diverges (fuel : nat) (pattern target : string)
    (flagsArg : option string) (text line : string) (rest : list string) :
  let flags := match flagsArg with Some f => f | None => "g" end in
  fsys (resolve target) = Some (Fs.File (inl text)) ->
  JsString.split text = line :: rest ->
  findOccurrences fuel pattern flags line tt = None ->
  handleRegexSearch resolve fsys fuel pattern target flagsArg = None.
Proof.
  intros flags Hfile Hsplit Hline.
  unfold handleRegexSearch. fold flags. rewrite Hfile. cbn [Fs.existsSync negb].
  unfold respond, bind at 1, call at 1, readFileAt. rewrite Hfile.
  cbn [Fs.readFileSync]. rewrite Hsplit.
  unfold bind at 1, call at 1.
  destruct (newRegExp pattern flags) as [R|message] eqn:HR.
  - unfold bind at 1. cbn [forEachLine]. unfold bind at 1. now rewrite Hline.
  - now rewrite findOccurrences_throws with (message := message) in Hline.
Qed.

(** So does it keep the directory search from returning, here for the
    first entry of the root. *)
Lemma handleRegexSearchDirectory_diverges (fuel : nat)
    (pattern target : string) (extensionsArg : option (list string))
    (flagsArg : option string) (name text line : string)
    (rest : list string) (entries : list (string * Fs.node)) :
  let exts :=
    match extensionsArg with Some l => l | None => defaultExtensions end in
  let flags := match flagsArg with Some f => f | None => "g" end in
  fsys (resolve target) = Some (Fs.Dir ((name, Fs.File (inl text)) :: entries)) ->
  JsString.includes exts (Path.extname name) = true ->
  JsString.split text = line :: rest ->
  (forall s : walkState, findOccurrences fuel pattern flags line s = None) ->
  handleRegexSearchDirectory resolve fsys fuel pattern target
    extensionsArg flagsArg = None.
Proof.
  intros exts flags Hroot Hext Hsplit Hline.
  unfold handleRegexSearchDirectory. fold exts flags. rewrite Hroot.
  cbn [Fs.existsSync negb]. unfold respond, bind at 1, searchDirectoryAt.
  rewrite Hroot, searchDirectory_cons. unfold bind at 1.
  rewrite visitEntry_File, Hext.
  unfold searchFile, tryCatch, bind at 1, call. cbn [Fs.readFileSync].
  rewrite Hsplit. unfold bind at 1. cbn [forEachFileLine]. unfold bind at 1.
  now rewrite Hline.
Qed.

End Divergence.

(** * The sample project, searched *)

Lemma missing_target_reported_witness :
  handleRegexSearch (E := MiniRegex.engine) Sample.resolve Sample.fsys
    1 "foo" "/proj/missing.txt" None
  = Some (IsError "File not found: /proj/missing.txt")
  /\ handleRegexSearchDirectory (E := MiniRegex.engine) Sample.resolve Sample.fsys
       1 "foo" "/proj/missing.txt" None None
     = Some (IsError "Directory not found: /proj/missing.txt").
Proof.
  apply (@missing_target_reported MiniRegex.engine Sample.resolve Sample.fsys
           1 "foo" "/proj/missing.txt" None None).
  reflexivity.
Defined.

Lemma handleRegexSearch_reports_matching_lines_witness :
  handleRegexSearch (E := MiniRegex.engine) Sample.resolve Sample.fsys
    3 "foo" "/proj/src/notes.txt" None
  = Some (Content (mkFileSummary "/proj/src/notes.txt" "foo" "g" 3
            [ mkLineResult 2 "a foo" [mkMatch "foo" 3];
              mkLineResult 5 "foo foo" [mkMatch "foo" 1; mkMatch "foo" 5] ])).
Proof.
  refine (proj1 (@handleRegexSearch_reports_matching_lines MiniRegex.engine
                   Sample.resolve Sample.fsys 3 "foo" "/proj/src/notes.txt"
                   None Sample.notes Sample.fooOn eq_refl _)).
  intros line Hin. vm_compute in Hin.
  destruct Hin as [<-|[<-|[<-|[<-|[<-|[<-|[]]]]]]]; vm_compute; reflexivity.
Defined.

Lemma directory_summary_counts_witness :
  Forall (fun r => matchCount r = occurrenceCount (fileResults r)
                   /\ fileResults r <> []
                   /\ Forall (fun l => matches l <> []) (fileResults r))
    (results Sample.fooSummary)
  /\ totalMatches Sample.fooSummary
     = list_sum (map matchCount (results Sample.fooSummary))
  /\ filesMatched Sample.fooSummary = List.length (results Sample.fooSummary).
Proof.
  apply (@directory_summary_counts MiniRegex.engine Sample.resolve Sample.fsys
           3 "foo" "/proj" None None Sample.fooSummary).
  vm_compute. reflexivity.
Defined.

(** C1.  The pattern [x?] matches the empty string.  Compiled with the
    global flag and applied to the line [foo bar foo], [findOccurrences] does
    not return, whatever the fuel: [exec] finds the empty match at index 0,
    leaves [lastIndex] at 0, and finds it again.  Neither search of the
    sample project returns. *)
Theorem findOccurrences_empty_match_never_returns :
  forall fuel : nat,
    (forall (St : Type) (s : St),
       findOccurrences (E := MiniRegex.engine) fuel "x?" "g" "foo bar foo" s
       = None)
    /\ handleRegexSearch (E := MiniRegex.engine) Sample.resolve Sample.fsys
         fuel "x?" "/proj/a.txt" None = None
    /\ handleRegexSearchDirectory (E := MiniRegex.engine) Sample.resolve
         Sample.fsys fuel "x?" "/proj" None None = None.
Proof.
  intros fuel.
  assert (Hline : forall (St : Type) (s : St),
            findOccurrences (E := MiniRegex.engine) fuel "x?" "g"
              "foo bar foo" s = None).
  { intros St s.
    destruct (newRegExp (E := MiniRegex.engine) "x?" "g") as [R|] eqn:HR;
      [|discriminate].
    rewrite findOccurrences_compiled with (R := R) by assumption.
    injection HR as <-.
    now rewrite whileExec_stalls with (m := mkExecResult 0 EmptyString). }
  split; [exact Hline|]. split.
  - eapply handleRegexSearch_diverges; [reflexivity | reflexivity | apply Hline].
  - eapply handleRegexSearchDirectory_diverges;
      [reflexivity | reflexivity | reflexivity | intros s; apply Hline].
Qed.

(** C2.  The pattern [foo] compiled with the flags [i], so without the
    global flag, and applied to the line [foo bar foo]: [findOccurrences]
    does not return, whatever the fuel.  [exec] starts from index 0 on every
    call and finds the first occurrence again and again.  Neither search of
    the sample project returns. *)
Theorem findOccurrences_without_global_never_returns :
  forall fuel : nat,
    (forall (St : Type) (s : St),
       findOccurrences (E := MiniRegex.engine) fuel "foo" "i" "foo bar foo" s
       = None)
    /\ handleRegexSearch (E := MiniRegex.engine) Sample.resolve Sample.fsys
         fuel "foo" "/proj/a.txt" (Some "i") = None
    /\ handleRegexSearchDirectory (E := MiniRegex.engine) Sample.resolve
         Sample.fsys fuel "foo" "/proj" None (Some "i") = None.
Proof.
  intros fuel.
  assert (Hline : forall (St : Type) (s : St),
            findOccurrences (E := MiniRegex.engine) fuel "foo" "i"
              "foo bar foo" s = None).
  { intros St s.
    destruct (newRegExp (E := MiniRegex.engine) "foo" "i") as [R|] eqn:HR;
      [|discriminate].
    destruct (@findOccurrences_untracked MiniRegex.engine St "foo" "i"
                "foo bar foo" R s HR)
      as [Hends|Hloops]; try (injection HR as <-; reflexivity).
    - specialize (Hends 0). injection HR as <-. discriminate Hends.
    - apply Hloops. }
  split; [exact Hline|]. split.
  - eapply handleRegexSearch_diverges; [reflexivity | reflexivity | apply Hline].
  - eapply handleRegexSearchDirectory_diverges;
      [reflexivity | reflexivity | reflexivity | intros s; apply Hline].
Qed.

(** C3.  The pattern [(] does not compile, and [x] is no flag.  The
    single-file search returns a failure with the message of the
    SyntaxError.  The directory search returns no failure: each file throws
    inside the [try] meant for unreadable files, and the summary comes back
    with no result at all. *)
Theorem compile_error_swallowed_by_directory_search :
  forall fuel : nat,
    handleRegexSearch (E := MiniRegex.engine) Sample.resolve Sample.fsys
      fuel "(" "/proj/a.txt" None
    = Some (IsError "Error: Invalid regular expression: /(/: Unterminated group")
    /\ handleRegexSearch (E := MiniRegex.engine) Sample.resolve Sample.fsys
         fuel "foo" "/proj/a.txt" (Some "x")
       = Some (IsError "Error: Invalid flags supplied to RegExp constructor 'x'")
    /\ handleRegexSearchDirectory (E := MiniRegex.engine) Sample.resolve Sample.fsys
         fuel "(" "/proj" None None
       = Some (Content (mkDirSummary "/proj" "(" "g" defaultExtensions 0 0 []))
    /\ handleRegexSearchDirectory (E := MiniRegex.engine) Sample.resolve Sample.fsys
         fuel "foo" "/proj" None (Some "x")
       = Some (Content (mkDirSummary "/proj" "foo" "x" defaultExtensions 0 0 [])).
Proof.
  intros fuel. repeat split; vm_compute; reflexivity.
Qed.

(** The sample project, searched for [foo]: nothing from [.git] and
    [node_modules], nothing from the unreadable [b.md] and from [.js], and
    [.hidden.js] among the results. *)
Example sample_directory_search :
  handleRegexSearchDirectory (E := MiniRegex.engine) Sample.resolve
    Sample.fsys 3 "foo" "/proj" None None
  = Some (Content Sample.fooSummary).
Proof. vm_compute. reflexivity. Qed.

(** * More on the search of one file *)

Section SingleFile.

Import Reports.

Context {E : Engine}.

Variable resolve : string -> string.
Variable fsys : string -> option Fs.node.

Lemma readFileAt_exists (p text : string) :
  readFileAt fsys p = Normal text -> Fs.existsSync (fsys p) = true.
Proof.
  unfold readFileAt. destruct (fsys p) as [[[t|m]|entries|m|[t|m]|m]|];
    try discriminate; reflexivity.
Qed.

Lemma forEachLine_cons_compiled (fuel : nat) (pattern flags : string)
    (R : regexp) (line : string) (rest : list string) (index : nat)
    (acc : list LineResult) :
  newRegExp pattern flags = Normal R ->
  forEachLine fuel pattern flags (line :: rest) index acc tt
  = match whileExec fuel R line [] with
    | Some lineMatches =>
        forEachLine fuel pattern flags rest (S index)
          (if (0 <? List.length lineMatches)%nat
           then acc ++ [mkLineResult (index + 1) line lineMatches]
           else acc) tt
    | None => None
    end.
Proof.
  intros HR. cbn [forEachLine]. unfold bind at 1.
  rewrite findOccurrences_compiled with (R := R) by assumption.
  unfold loop. now destruct (whileExec fuel R line []).
Qed.

(** With a pattern that compiles, the lines of a file do not throw. *)
Lemma forEachLine_compiled (fuel : nat) (pattern flags : string) (R : regexp) :
  newRegExp pattern flags = Normal R ->
  forall (lines : list string) (index : nat) (acc : list LineResult),
    forEachLine fuel pattern flags lines index acc tt = None
    \/ exists found, forEachLine fuel pattern flags lines index acc tt
                     = Some (Normal found, tt).
Proof.
  intros HR. induction lines as [|line rest IH]; intros index acc.
  - right. exists acc. reflexivity.
  - rewrite forEachLine_cons_compiled with (R := R) by assumption.
    destruct (whileExec fuel R line []); [apply IH | now left].
Qed.

(** A line on which the loop does not end, anywhere in the file, keeps the
    lines from being done. *)
Lemma forEachLine_hangs (fuel : nat) (pattern flags : string) (R : regexp)
    (line : string) :
  newRegExp pattern flags = Normal R ->
  whileExec fuel R line [] = None ->
  forall (lines : list string) (index : nat) (acc : list LineResult),
    In line lines ->
    forEachLine fuel pattern flags lines index acc tt = None.
Proof.
  intros HR Hline. induction lines as [|l rest IH]; intros index acc Hin;
    [contradiction|].
  rewrite forEachLine_cons_compiled with (R := R) by assumption.
  destruct (whileExec fuel R l []) eqn:Hl; [|reflexivity].
  destruct Hin as [->|Hin]; [congruence|]. now apply IH.
Qed.

(** The single-file search, once the file is read and the pattern
    compiled, is the loop over the lines. *)
Lemma handleRegexSearch_compiled (fuel : nat) (pattern target : string)
    (flagsArg : option string) (text : string) (R : regexp) :
  let flags := match flagsArg with Some f => f | None => "g" end in
  readFileAt fsys (resolve target) = Normal text ->
  newRegExp pattern flags = Normal R ->
  handleRegexSearch resolve fsys fuel pattern target flagsArg
  = match forEachLine fuel pattern flags (JsString.split text) 0 [] tt with
    | Some (Normal found, _) =>
        Some (Content (mkFileSummary (resolve target) pattern flags
                         (countMatches found) found))
    | Some (Throw message, _) => Some (IsError ("Error: " ++ message))
    | None => None
    end.
Proof.
  intros flags Hread HR. unfold handleRegexSearch. fold flags.
  rewrite (readFileAt_exists _ Hread). cbn [negb].
  unfold respond, bind at 1, call at 1. rewrite Hread.
  unfold bind at 1, call at 1. rewrite HR. unfold bind at 1.
  destruct (forEachLine fuel pattern flags (JsString.split text) 0 [] tt)
    as [[[found|message] []]|]; reflexivity.
Qed.

(** X1.  A pattern compiled with [g] and without [y] that matches the empty
    string at the end of some line of a readable file: the single-file
    search never returns, whatever the fuel and wherever the line is. *)
Theorem empty_match_line_hangs_search (pattern target : string)
    (flagsArg : option string) (text line : string) (R : regexp) :
  let flags := match flagsArg with Some f => f | None => "g" end in
  readFileAt fsys (resolve target) = Normal text ->
  newRegExp pattern flags = Normal R ->
  global (RegExp.flags R) = true -> sticky (RegExp.flags R) = false ->
  In line (JsString.split text) ->
  (forall i e, runMatcher (compiled R) line i = Some e ->
               i <= e <= String.length line) ->
  runMatcher (compiled R) line (String.length line)
  = Some (String.length line) ->
  forall fuel,
    handleRegexSearch resolve fsys fuel pattern target flagsArg = None.
Proof.
  intros flags Hread HR Hg Hs Hin Hbound Hend fuel.
  rewrite handleRegexSearch_compiled with (text := text) (R := R)
    by assumption.
  fold flags. rewrite forEachLine_hangs with (R := R) (line := line); auto.
  apply whileExec_empty_at_end_diverges; auto.
  rewrite <- (newRegExp_fresh _ _ HR). simpl. lia.
Qed.

Lemma matchesNowhere_true (m : matcher) (line : string) :
  matchesNowhere m line = true ->
  scanFrom m line false (S (String.length line)) 0 = None.
Proof.
  unfold matchesNowhere. rewrite noMatchIn_true. intros Hnone.
  apply scanFrom_nothing. intros q Hq. apply Hnone. lia.
Qed.

Lemma matchesNowhere_false (m : matcher) (line : string) :
  matchesNowhere m line = false ->
  exists p e, p <= String.length line /\ runMatcher m line p = Some e.
Proof.
  intros Hsome.
  destruct (scanFrom m line false (S (String.length line)) 0)
    as [[p e]|] eqn:Hscan.
  - apply scanFrom_found in Hscan as (Hp & He & _). exists p, e. split; [lia|auto].
  - exfalso. assert (matchesNowhere m line = true); [|congruence].
    unfold matchesNowhere. apply noMatchIn_true. intros q Hq.
    eapply scanFrom_none; [exact Hscan | lia].
Qed.

(** X2.  A pattern compiled without [g] and [y], on a readable file: if it
    matches on no line, the single-file search returns, with no result and
    [totalMatches] 0; if it matches on some line, the search never
    returns. *)
Theorem search_without_global (pattern target : string)
    (flagsArg : option string) (text : string) (R : regexp) :
  let flags := match flagsArg with Some f => f | None => "g" end in
  readFileAt fsys (resolve target) = Normal text ->
  newRegExp pattern flags = Normal R ->
  global (RegExp.flags R) = false -> sticky (RegExp.flags R) = false ->
  (forallb (matchesNowhere (compiled R)) (JsString.split text) = true ->
   forall fuel, 0 < fuel ->
     handleRegexSearch resolve fsys fuel pattern target flagsArg
     = Some (Content (mkFileSummary (resolve target) pattern flags 0 [])))
  /\ (forallb (matchesNowhere (compiled R)) (JsString.split text) = false ->
      forall fuel,
        handleRegexSearch resolve fsys fuel pattern target flagsArg = None).
Proof.
  intros flags Hread HR Hg Hs. split.
  - intros Hnone fuel Hfuel.
    rewrite handleRegexSearch_compiled with (text := text) (R := R)
      by assumption.
    fold flags. rewrite forallb_forall in Hnone.
    rewrite (@forEachLine_reported _ fuel pattern flags (fun _ => [])).
    + rewrite filter_nothing_kept by reflexivity. reflexivity.
    + intros line Hin.
      rewrite findOccurrences_compiled with (R := R) by assumption.
      destruct fuel as [|fuel]; [lia|].
      rewrite whileExec_step, exec_untracked by assumption.
      now rewrite matchesNowhere_true by (apply Hnone; exact Hin).
  - intros Hsome fuel.
    assert (Hline : exists line, In line (JsString.split text)
                                 /\ matchesNowhere (compiled R) line = false).
    { clear - Hsome. induction (JsString.split text) as [|l ls IH];
        [discriminate|]. simpl in Hsome.
      destruct (matchesNowhere (compiled R) l) eqn:Hl.
      - destruct (IH Hsome) as (line & Hin & Hm). exists line. split; [now right|auto].
      - exists l. split; [now left|auto]. }
    destruct Hline as (line & Hin & Hm).
    apply matchesNowhere_false in Hm as (p & e & Hp & He).
    rewrite handleRegexSearch_compiled with (text := text) (R := R)
      by assumption.
    fold flags. rewrite forEachLine_hangs with (R := R) (line := line); auto.
    eapply whileExec_untracked_diverges; eauto.
Qed.

End SingleFile.

(** * Lines, and what a summary of one file holds *)

Section Lines.

Import Reports.

Lemma hasLineFeed_cons (c : ascii) (s : string) :
  hasLineFeed (String c s) = Ascii.eqb JsString.LF c || hasLineFeed s.
Proof. reflexivity. Qed.

Lemma split_line_feed_free (text : string) :
  Forall (fun line => hasLineFeed line = false) (JsString.split text).
Proof.
  induction text as [|c rest IH]; simpl.
  - constructor; [reflexivity|constructor].
  - destruct (Ascii.eqb c JsString.LF) eqn:Hc.
    + constructor; [reflexivity|exact IH].
    + destruct (JsString.split rest) as [|piece pieces].
      * constructor; [|constructor].
        now rewrite hasLineFeed_cons, Ascii.eqb_sym, Hc.
      * inversion IH as [|? ? Hpiece Hpieces]; subst.
        constructor; [|exact Hpieces].
        now rewrite hasLineFeed_cons, Ascii.eqb_sym, Hc.
Qed.

Lemma joinLines_cons (line : string) (rest : list string) :
  rest <> [] ->
  joinLines (line :: rest)
  = (line ++ String JsString.LF (joinLines rest))%string.
Proof. destruct rest; [contradiction|reflexivity]. Qed.

(** X14.  Splitting a text on line feeds loses nothing and leaves no line
    feed in a line: the lines, put together again with a line feed between
    two, are the text, and the text has one line more than it has line
    feeds. *)
Theorem split_round_trip (text : string) :
  joinLines (JsString.split text) = text
  /\ Forall (fun line => hasLineFeed line = false) (JsString.split text)
  /\ List.length (JsString.split text)
     = S (List.length (filter (Ascii.eqb JsString.LF)
                         (list_ascii_of_string text))).
Proof.
  split; [|split; [apply split_line_feed_free|]].
  - induction text as [|c rest IH]; [reflexivity|]. simpl.
    destruct (Ascii.eqb c JsString.LF) eqn:Hc.
    + apply Ascii.eqb_eq in Hc. subst c.
      rewrite joinLines_cons by apply split_not_empty. now rewrite IH.
    + destruct (JsString.split rest) as [|piece pieces] eqn:Hsplit.
      * now apply split_not_empty in Hsplit.
      * destruct pieces as [|p ps].
        -- cbn [joinLines] in *. now rewrite IH.
        -- rewrite joinLines_cons in * by discriminate.
           rewrite <- IH. reflexivity.
  - induction text as [|c rest IH]; [reflexivity|].
    cbn [JsString.split list_ascii_of_string filter].
    rewrite (Ascii.eqb_sym JsString.LF c).
    destruct (Ascii.eqb c JsString.LF).
    + cbn [List.length]. now rewrite IH.
    + destruct (JsString.split rest) as [|piece pieces] eqn:Hsplit.
      * now apply split_not_empty in Hsplit.
      * cbn [List.length] in *. exact IH.
Qed.

End Lines.

Section SingleFileSummary.

Import Reports.

Context {E : Engine}.

Variable resolve : string -> string.
Variable fsys : string -> option Fs.node.

(** What the loop over the lines adds to [matches]. *)
Lemma forEachLine_sound (fuel : nat) (pattern flags : string) (R : regexp) :
  newRegExp pattern flags = Normal R ->
  forall (lines : list string) (index : nat) (acc found : list LineResult),
    forEachLine fuel pattern flags lines index acc tt = Some (Normal found, tt) ->
    exists new,
      found = acc ++ new
      /\ StronglySorted lt (map lineNumber new)
      /\ Forall (fun r =>
                   index < lineNumber r <= index + List.length lines
                   /\ nth_error lines (lineNumber r - 1 - index) = Some (content r)
                   /\ matches r <> []
                   /\ whileExec fuel R (content r) [] = Some (matches r))
           new.
Proof.
  intros HR. induction lines as [|line rest IH]; intros index acc found Hrun.
  - injection Hrun as <-. exists []. rewrite app_nil_r.
    repeat split; constructor.
  - rewrite forEachLine_cons_compiled with (R := R) in Hrun by assumption.
    destruct (whileExec fuel R line []) as [lineMatches|] eqn:Hline;
      [|discriminate].
    apply IH in Hrun as (new & -> & Hsorted & Hall).
    assert (Hshift : Forall (fun r =>
                index < lineNumber r <= index + List.length (line :: rest)
                /\ nth_error (line :: rest) (lineNumber r - 1 - index)
                   = Some (content r)
                /\ matches r <> []
                /\ whileExec fuel R (content r) [] = Some (matches r)) new).
    { eapply Forall_impl; [|exact Hall]. cbn [List.length].
      intros r (Hn & Hnth & Hne & Hocc). split; [lia|]. split; [|auto].
      replace (lineNumber r - 1 - index) with (S (lineNumber r - 1 - S index))
        by lia. exact Hnth. }
    destruct (0 <? List.length lineMatches)%nat eqn:Hsome.
    + exists (mkLineResult (index + 1) line lineMatches :: new).
      split; [now rewrite <- app_assoc|]. split.
      * cbn [map lineNumber]. constructor; [exact Hsorted|].
        rewrite Forall_map. eapply Forall_impl; [|exact Hall].
        intros r (Hn & _). lia.
      * constructor; [|exact Hshift]. cbn [lineNumber content matches List.length].
        split; [lia|]. split.
        -- replace (index + 1 - 1 - index) with 0 by lia. reflexivity.
        -- split; [|exact Hline]. apply Nat.ltb_lt in Hsome.
           destruct lineMatches; [simpl in Hsome; lia|discriminate].
    + exists new. auto.
Qed.

(** A summary comes from a file that was read, a pattern that compiled and
    lines that were all done. *)
Lemma handleRegexSearch_content (fuel : nat) (pattern target : string)
    (flagsArg : option string) (summary : FileSummary) :
  let flags := match flagsArg with Some f => f | None => "g" end in
  handleRegexSearch resolve fsys fuel pattern target flagsArg
  = Some (Content summary) ->
  exists text R found,
    readFileAt fsys (resolve target) = Normal text
    /\ newRegExp pattern flags = Normal R
    /\ forEachLine fuel pattern flags (JsString.split text) 0 [] tt
       = Some (Normal found, tt)
    /\ summary = mkFileSummary (resolve target) pattern flags
                   (countMatches found) found.
Proof.
  intros flags. unfold handleRegexSearch. fold flags.
  destruct (Fs.existsSync (fsys (resolve target))); cbn [negb];
    [|discriminate].
  unfold respond, bind at 1, call at 1.
  destruct (readFileAt fsys (resolve target)) as [text|message] eqn:Hread;
    [|discriminate].
  unfold bind at 1, call at 1.
  destruct (newRegExp pattern flags) as [R|message] eqn:HR; [|discriminate].
  unfold bind at 1.
  destruct (forEachLine fuel pattern flags (JsString.split text) 0 [] tt)
    as [[[found|message] []]|] eqn:Hlines; try discriminate.
  intros [= <-]. exists text, R, found. repeat split; auto.
Qed.

(** X3.  Every summary of a single-file search names the resolved path and
    lists lines of the file that was read: the line numbers increase
    strictly, each lies between 1 and the number of lines, each [content]
    is the line of that number and holds no line feed, each line has an
    occurrence and the occurrences are those that [findOccurrences] gives
    for its text; [totalMatches] is the number of the occurrences listed. *)
Theorem single_file_summary_sound (fuel : nat) (pattern target : string)
    (flagsArg : option string) (summary : FileSummary) :
  let flags := match flagsArg with Some f => f | None => "g" end in
  handleRegexSearch resolve fsys fuel pattern target flagsArg
  = Some (Content summary) ->
  exists text,
    readFileAt fsys (resolve target) = Normal text
    /\ summaryFile summary = resolve target
    /\ StronglySorted lt (map lineNumber (lineResults summary))
    /\ Forall (fun r =>
                 1 <= lineNumber r <= List.length (JsString.split text)
                 /\ nth_error (JsString.split text) (lineNumber r - 1)
                    = Some (content r)
                 /\ hasLineFeed (content r) = false
                 /\ matches r <> []
                 /\ findOccurrences fuel pattern flags (content r) tt
                    = Some (Normal (matches r), tt))
         (lineResults summary)
    /\ fileTotalMatches summary = occurrenceCount (lineResults summary).
Proof.
  intros flags Hrun.
  apply handleRegexSearch_content in Hrun
    as (text & R & found & Hread & HR & Hlines & ->).
  fold flags in HR, Hlines.
  apply (@forEachLine_sound fuel pattern flags R HR) in Hlines
    as (new & -> & Hsorted & Hall).
  exists text. cbn [summaryFile lineResults fileTotalMatches app].
  split; [exact Hread|]. split; [reflexivity|]. split; [exact Hsorted|].
  split; [|apply countMatches_occurrenceCount].
  eapply Forall_impl; [|exact Hall].
  intros r (Hn & Hnth & Hne & Hocc). rewrite Nat.sub_0_r in Hnth.
  split; [lia|]. split; [exact Hnth|]. split; [|split; [exact Hne|]].
  - apply nth_error_In in Hnth.
    pose proof (split_line_feed_free text) as Hfree.
    rewrite Forall_forall in Hfree. now apply Hfree.
  - rewrite findOccurrences_compiled with (R := R) by assumption.
    unfold loop. now rewrite Hocc.
Qed.

(** When and how the single-file search fails. *)
Lemma handleRegexSearch_failure (fuel : nat) (pattern target : string)
    (flagsArg : option string) (failure : string) :
  let flags := match flagsArg with Some f => f | None => "g" end in
  handleRegexSearch resolve fsys fuel pattern target flagsArg
  = Some (IsError failure)
  <-> (Fs.existsSync (fsys (resolve target)) = false
       /\ failure = ("File not found: " ++ resolve target)%string)
      \/ (Fs.existsSync (fsys (resolve target)) = true
          /\ exists message,
               failure = ("Error: " ++ message)%string
               /\ (readFileAt fsys (resolve target) = Throw message
                   \/ exists text,
                        readFileAt fsys (resolve target) = Normal text
                        /\ newRegExp pattern flags = Throw message)).
Proof.
  intros flags. unfold handleRegexSearch. fold flags.
  destruct (Fs.existsSync (fsys (resolve target))); cbn [negb].
  - unfold respond, bind at 1, call at 1.
    destruct (readFileAt fsys (resolve target)) as [text|message] eqn:Hread.
    + unfold bind at 1, call at 1.
      destruct (newRegExp pattern flags) as [R|message] eqn:HR.
      * unfold bind at 1.
        destruct (@forEachLine_compiled _ fuel pattern flags R HR
                    (JsString.split text) 0 [])
          as [Hnone|[found Hfound]].
        -- rewrite Hnone. split; [discriminate|].
           intros [[Hfalse _]|(_ & message & _ & [Hthrow|(text' & _ & Hthrow)])];
             discriminate.
        -- rewrite Hfound. split; [discriminate|].
           intros [[Hfalse _]|(_ & message & _ & [Hthrow|(text' & _ & Hthrow)])];
             discriminate.
      * split.
        -- intros [= <-]. right. split; [reflexivity|]. exists message.
           split; [reflexivity|]. right. exists text. auto.
        -- intros [[Hfalse _]|(_ & m & -> & [Hthrow|(text' & _ & Hthrow)])];
             [discriminate|discriminate|]. now injection Hthrow as ->.
    + split.
      * intros [= <-]. right. split; [reflexivity|]. exists message. auto.
      * intros [[Hfalse _]|(_ & m & -> & [Hthrow|(text' & Hnormal & _)])];
          [discriminate| |discriminate]. now injection Hthrow as ->.
  - unfold respond, ret. split.
    + intros [= <-]. left. auto.
    + intros [[_ ->]|[Htrue _]]; [reflexivity|discriminate].
Qed.

(** X4.  The single-file search fails for three reasons and no other: the
    resolved path does not exist; or it exists and cannot be read; or it is
    read and the pattern or the flags do not compile.  The failure carries
    [File not found: ] and the resolved path in the first case, [Error: ]
    and the message of the exception in the others, whatever the text of
    the file. *)
Theorem single_file_failures (fuel : nat) (pattern target : string)
    (flagsArg : option string) (failure : string) :
  let flags := match flagsArg with Some f => f | None => "g" end in
  handleRegexSearch resolve fsys fuel pattern target flagsArg
  = Some (IsError failure)
  <-> (Fs.existsSync (fsys (resolve target)) = false
       /\ failure = ("File not found: " ++ resolve target)%string)
      \/ (Fs.existsSync (fsys (resolve target)) = true
          /\ exists message,
               failure = ("Error: " ++ message)%string
               /\ (readFileAt fsys (resolve target) = Throw message
                   \/ exists text,
                        readFileAt fsys (resolve target) = Normal text
                        /\ newRegExp pattern flags = Throw message)).
Proof.
  intros flags. apply handleRegexSearch_failure.
Qed.

End SingleFileSummary.

(** * Patterns whose matches are never empty *)

Section ProperMatches.

Import Reports.

Context {E : Engine}.

Variable resolve : string -> string.
Variable fsys : string -> option Fs.node.

Lemma matchesProper_true (m : matcher) (line : string) (i e : nat) :
  matchesProper m line = true ->
  i <= String.length line -> runMatcher m line i = Some e ->
  i < e <= String.length line.
Proof.
  unfold matchesProper. rewrite forallb_forall. intros Hall Hi He.
  specialize (Hall i). rewrite He in Hall.
  assert (Hin : In i (seq 0 (S (String.length line)))) by (apply in_seq; lia).
  apply Hall in Hin. apply andb_true_iff in Hin as [Hlt Hle].
  apply Nat.ltb_lt in Hlt. apply Nat.leb_le in Hle. lia.
Qed.

Lemma nonOverlapping_nil_intro (m : matcher) (line : string) (cursor : nat) :
  (forall q, cursor <= q <= String.length line -> runMatcher m line q = None) ->
  nonOverlapping m line cursor [] = true.
Proof.
  intros Hnone. cbn [nonOverlapping]. apply noMatchIn_true.
  intros q Hq. apply Hnone. lia.
Qed.

Lemma nonOverlapping_cons_intro (m : matcher) (line : string)
    (cursor i e : nat) (rest : list (nat * nat)) :
  cursor <= i <= String.length line ->
  (forall q, cursor <= q < i -> runMatcher m line q = None) ->
  runMatcher m line i = Some e -> i < e ->
  nonOverlapping m line e rest = true ->
  nonOverlapping m line cursor ((i, e) :: rest) = true.
Proof.
  intros Hi Hq He Hlt Hrest. cbn [nonOverlapping].
  rewrite He, Nat.eqb_refl, Hrest.
  replace (cursor <=? i)%nat with true by (symmetry; apply Nat.leb_le; lia).
  replace (i <=? String.length line)%nat with true
    by (symmetry; apply Nat.leb_le; lia).
  replace (i <? e)%nat with true by (symmetry; apply Nat.ltb_lt; lia).
  now rewrite (proj2 (noMatchIn_true m line cursor i) Hq).
Qed.

(** A line on which no match is empty or runs past the end has its
    non-overlapping matches, no more of them than it has characters. *)
Lemma nonOverlapping_exists (m : matcher) (line : string) :
  matchesProper m line = true ->
  forall n cursor,
    S (String.length line) - cursor <= n ->
    exists ms,
      nonOverlapping m line cursor ms = true
      /\ List.length ms <= String.length line - cursor.
Proof.
  intros Hproper. induction n as [|n IH]; intros cursor Hn.
  - exists []. split; [|simpl; lia].
    apply nonOverlapping_nil_intro. intros q Hq. lia.
  - destruct (scanFrom m line false (S (String.length line - cursor)) cursor)
      as [[i e]|] eqn:Hscan.
    + apply scanFrom_found in Hscan as (Hi & He & Hq).
      destruct (Nat.le_gt_cases cursor (String.length line)) as [Hc|Hc].
      * assert (Hie : i < e <= String.length line)
          by (apply (@matchesProper_true m line i e Hproper); [lia|exact He]).
        destruct (IH e) as (rest & Hrest & Hlen); [lia|].
        exists ((i, e) :: rest). split.
        -- apply nonOverlapping_cons_intro; auto; lia.
        -- cbn [List.length]. lia.
      * exists []. split; [|simpl; lia].
        apply nonOverlapping_nil_intro. intros q Hr. lia.
    + exists []. split; [|simpl; lia].
      apply nonOverlapping_nil_intro. intros q Hr.
      eapply scanFrom_none; [exact Hscan|lia].
Qed.

Lemma nonOverlapping_within (m : matcher) (line : string) :
  matchesProper m line = true ->
  forall ms cursor,
    nonOverlapping m line cursor ms = true ->
    Forall (fun span => 1 <= fst span + 1 <= String.length line) ms.
Proof.
  intros Hproper. induction ms as [|[i e] rest IH]; intros cursor Hms;
    [constructor|].
  apply nonOverlapping_cons in Hms as (Hc & _ & He & Hlt & Hrest).
  constructor; [|eapply IH; exact Hrest]. cbn [fst].
  pose proof (@matchesProper_true m line i e Hproper (proj2 Hc) He). lia.
Qed.

(** The loop on such a line ends, given fuel for more calls of [exec] than
    the line has characters. *)
Lemma whileExec_proper (R : regexp) (line : string) (fuel : nat) :
  global (RegExp.flags R) = true -> sticky (RegExp.flags R) = false ->
  matchesProper (compiled R) line = true ->
  String.length line < fuel ->
  exists ms,
    nonOverlapping (compiled R) line 0 ms = true
    /\ List.length ms <= String.length line
    /\ whileExec fuel (setLastIndex R 0) line []
       = Some (map (occurrence line) ms).
Proof.
  intros Hg Hs Hproper Hfuel.
  destruct (@nonOverlapping_exists (compiled R) line Hproper
              (S (String.length line)) 0) as (ms & Hms & Hlen); [lia|].
  exists ms. split; [exact Hms|]. split; [lia|].
  apply whileExec_more_fuel with (fuel := S (List.length ms)); [|lia].
  now rewrite (@whileExec_global _ R line Hg Hs ms 0 [] Hms).
Qed.

(** X10.  A pattern compiled with [g] and without [y], and a readable file
    on whose lines no match of the pattern is empty or runs past the end of
    the line: given fuel for more calls of [exec] than the longest line has
    characters, the single-file search returns a summary, and on each line
    [findOccurrences] returns at most as many occurrences as the line has
    characters, their columns within the line and strictly increasing. *)
Theorem search_returns_without_empty_matches (fuel : nat)
    (pattern target : string) (flagsArg : option string) (text : string)
    (R : regexp) :
  let flags := match flagsArg with Some f => f | None => "g" end in
  readFileAt fsys (resolve target) = Normal text ->
  newRegExp pattern flags = Normal R ->
  global (RegExp.flags R) = true -> sticky (RegExp.flags R) = false ->
  (forall line, In line (JsString.split text) ->
                matchesProper (compiled R) line = true
                /\ String.length line < fuel) ->
  (exists summary,
     handleRegexSearch resolve fsys fuel pattern target flagsArg
     = Some (Content summary))
  /\ (forall line, In line (JsString.split text) ->
        exists occs,
          findOccurrences fuel pattern flags line tt = Some (Normal occs, tt)
          /\ List.length occs <= String.length line
          /\ Forall (fun o => 1 <= column o <= String.length line) occs
          /\ StronglySorted lt (map column occs)).
Proof.
  intros flags Hread HR Hg Hs Hlines.
  assert (Hline : forall line, In line (JsString.split text) ->
            exists ms,
              nonOverlapping (compiled R) line 0 ms = true
              /\ List.length ms <= String.length line
              /\ findOccurrences fuel pattern flags line tt
                 = Some (Normal (map (occurrence line) ms), tt)).
  { intros line Hin. destruct (Hlines line Hin) as [Hproper Hfuel].
    destruct (@whileExec_proper R line fuel Hg Hs Hproper Hfuel)
      as (ms & Hms & Hlen & Hrun).
    exists ms. split; [exact Hms|]. split; [exact Hlen|].
    rewrite findOccurrences_compiled with (R := R) by assumption.
    rewrite <- (newRegExp_fresh _ _ HR). unfold loop. now rewrite Hrun. }
  split.
  - rewrite handleRegexSearch_compiled with (text := text) (R := R)
      by assumption.
    fold flags.
    set (occ := fun line =>
                  match whileExec fuel R line [] with
                  | Some found => found
                  | None => []
                  end).
    rewrite (@forEachLine_reported _ fuel pattern flags occ).
    + eauto.
    + intros line Hin. destruct (Hline line Hin) as (ms & _ & _ & Hrun).
      rewrite Hrun. unfold occ.
      rewrite findOccurrences_compiled with (R := R) in Hrun by assumption.
      unfold loop in Hrun.
      destruct (whileExec fuel R line []); [|discriminate].
      now injection Hrun as ->.
  - intros line Hin. destruct (Hline line Hin) as (ms & Hms & Hlen & Hrun).
    exists (map (occurrence line) ms). split; [exact Hrun|].
    split; [now rewrite length_map|].
    assert (Hcols : map column (map (occurrence line) ms)
                    = map (fun span => fst span + 1) ms)
      by (rewrite map_map; reflexivity).
    split.
    + rewrite Forall_map. destruct (Hlines line Hin) as [Hproper _].
      eapply Forall_impl;
        [|exact (@nonOverlapping_within (compiled R) line Hproper ms 0 Hms)].
      intros span Hspan. exact Hspan.
    + rewrite Hcols. eapply nonOverlapping_increasing; eauto.
Qed.

End ProperMatches.

(** * More on the directory search *)

Section DirectoryReports.

Import Reports.

Context {E : Engine}.

Variable resolve : string -> string.
Variable fsys : string -> option Fs.node.

Lemma forEachFileLine_cons_compiled (fuel : nat) (pattern flags : string)
    (R : regexp) (line : string) (rest : list string) (index : nat)
    (acc : list LineResult) (st : walkState) :
  newRegExp pattern flags = Normal R ->
  forEachFileLine fuel pattern flags (line :: rest) index acc st
  = match whileExec fuel R line [] with
    | Some lineMatches =>
        if (0 <? List.length lineMatches)%nat
        then forEachFileLine fuel pattern flags rest (S index)
               (acc ++ [mkLineResult (index + 1) line lineMatches])
               (addTotal (List.length lineMatches) st)
        else forEachFileLine fuel pattern flags rest (S index) acc st
    | None => None
    end.
Proof.
  intros HR. cbn [forEachFileLine]. unfold bind at 1.
  rewrite findOccurrences_compiled with (R := R) by assumption.
  unfold loop. destruct (whileExec fuel R line []) as [lineMatches|];
    [|reflexivity].
  now destruct (0 <? List.length lineMatches)%nat.
Qed.

Lemma forEachLine_throws (fuel : nat) (pattern flags message : string)
    (line : string) (rest : list string) (index : nat)
    (acc : list LineResult) :
  newRegExp pattern flags = Throw message ->
  forEachLine fuel pattern flags (line :: rest) index acc tt
  = Some (Throw message, tt).
Proof.
  intros HR. cbn [forEachLine]. unfold bind.
  now rewrite findOccurrences_throws with (message := message).
Qed.

(** The lines of a file in a directory search are those of the single-file
    search, the count on [totalMatches] apart. *)
Lemma forEachFileLine_forEachLine (fuel : nat) (pattern flags : string) :
  forall (lines : list string) (index : nat) (acc : list LineResult)
         (st : walkState),
    forEachLine fuel pattern flags lines index acc tt
    = match forEachFileLine fuel pattern flags lines index acc st with
      | Some (c, _) => Some (c, tt)
      | None => None
      end.
Proof.
  induction lines as [|line rest IH]; intros index acc st; [reflexivity|].
  destruct (newRegExp pattern flags) as [R|message] eqn:HR.
  - rewrite forEachLine_cons_compiled with (R := R) by assumption.
    rewrite forEachFileLine_cons_compiled with (R := R) by assumption.
    destruct (whileExec fuel R line []) as [lineMatches|]; [|reflexivity].
    destruct (0 <? List.length lineMatches)%nat; apply IH.
  - rewrite forEachLine_throws with (message := message) by assumption.
    now rewrite forEachFileLine_throws with (message := message).
Qed.

(** A file never throws out of its [try]. *)
Lemma searchFile_normal (fuel : nat) (pattern flags filePath : string)
    (n : Fs.node) (st st' : walkState) (c : completion unit) :
  searchFile fuel pattern flags filePath n st = Some (c, st') -> c = Normal tt.
Proof.
  unfold searchFile, tryCatch, bind at 1, call.
  destruct (Fs.readFileSync n) as [text|message]; [|now intros [= <- _]].
  unfold bind.
  destruct (forEachFileLine fuel pattern flags (JsString.split text) 0 [] st)
    as [[[fileMatches|message] st1]|]; [| |discriminate].
  - destruct (0 <? List.length fileMatches)%nat; now intros [= <- _].
  - now intros [= <- _].
Qed.

(** What a readable file adds to [results] is its report. *)
Lemma searchFile_report (fuel : nat) (pattern flags filePath text : string)
    (st st' : walkState) (c : completion unit) :
  searchFile fuel pattern flags filePath (Fs.File (inl text)) st = Some (c, st') ->
  walkResults st'
  = walkResults st ++ fileReport fuel pattern flags (filePath, text).
Proof.
  unfold searchFile, tryCatch, bind at 1, call, fileReport.
  cbn [Fs.readFileSync fst snd].
  rewrite (forEachFileLine_forEachLine fuel pattern flags _ 0 [] st).
  unfold bind.
  destruct (forEachFileLine fuel pattern flags (JsString.split text) 0 [] st)
    as [[[fileMatches|message] st1]|] eqn:Hlines; [| |discriminate].
  - apply forEachFileLine_results in Hlines.
    destruct (0 <? List.length fileMatches)%nat.
    + unfold modify. intros [= _ <-]. cbn [pushResult walkResults].
      now rewrite Hlines, countMatches_occurrenceCount.
    + unfold ret. intros [= _ <-]. now rewrite Hlines, app_nil_r.
  - apply forEachFileLine_results in Hlines. unfold ret. intros [= _ <-].
    now rewrite Hlines, app_nil_r.
Qed.

Lemma eligibleFiles_cons (exts : list string) (dir name : string)
    (child : Fs.node) (rest : list (string * Fs.node)) :
  eligibleFiles exts dir (Fs.Dir ((name, child) :: rest))
  = eligibleFiles exts dir (Fs.Dir [(name, child)])
    ++ eligibleFiles exts dir (Fs.Dir rest).
Proof. cbn. now rewrite app_nil_r. Qed.

(** What a walk that ends adds to [results]: the reports of the files it
    was to read, in their order. *)
Lemma searchDirectory_report (fuel : nat) (pattern flags : string)
    (exts : list string) :
  forall (n : Fs.node) (dir : string) (st st' : walkState),
    searchDirectory fuel pattern flags exts dir n st = Some (Normal tt, st') ->
    walkResults st'
    = walkResults st
      ++ flat_map (fileReport fuel pattern flags) (eligibleFiles exts dir n).
Proof.
  induction n as [read|entries IH|message|read|message] using node_induction;
    try (intros dir st st' Hrun; discriminate Hrun).
  intros dir. induction IH as [|[name child] rest Hchild _ IHrest];
    intros st st' Hrun.
  - injection Hrun as <-. cbn. now rewrite app_nil_r.
  - rewrite searchDirectory_cons in Hrun. simpl snd in Hchild.
    unfold bind in Hrun.
    destruct (visitEntry fuel pattern flags exts dir name child st)
      as [[[[]|message] st1]|] eqn:Hvisit; try discriminate.
    apply IHrest in Hrun. rewrite Hrun, eligibleFiles_cons, flat_map_app, app_assoc.
    f_equal.
    destruct child as [[text|message]|entries|message|read|message].
    + rewrite visitEntry_File in Hvisit. cbn.
      destruct (JsString.includes exts (Path.extname name)).
      * apply searchFile_report in Hvisit. rewrite Hvisit. cbn.
        now rewrite app_nil_r.
      * injection Hvisit as <-. cbn. now rewrite app_nil_r.
    + rewrite visitEntry_unreadable in Hvisit. injection Hvisit as <-.
      cbn. now rewrite app_nil_r.
    + rewrite visitEntry_Dir in Hvisit.
      change (eligibleFiles exts dir (Fs.Dir [(name, Fs.Dir entries)]))
        with ((if descends name
               then eligibleFiles exts (Path.join dir name) (Fs.Dir entries)
               else []) ++ []).
      rewrite app_nil_r. destruct (descends name).
      * now apply Hchild.
      * injection Hvisit as <-. cbn. now rewrite app_nil_r.
    + rewrite visitEntry_DirErr in Hvisit.
      destruct (descends name); [discriminate|].
      injection Hvisit as <-. cbn. now rewrite app_nil_r.
    + injection Hvisit as <-. cbn. now rewrite app_nil_r.
    + discriminate.
Qed.

(** A summary comes from a root that exists and a walk that ended. *)
Lemma handleRegexSearchDirectory_content (fuel : nat)
    (pattern dirPath : string) (extensionsArg : option (list string))
    (flagsArg : option string) (summary : DirSummary) :
  let exts :=
    match extensionsArg with Some l => l | None => defaultExtensions end in
  let flags := match flagsArg with Some f => f | None => "g" end in
  handleRegexSearchDirectory resolve fsys fuel pattern dirPath
    extensionsArg flagsArg = Some (Content summary) ->
  exists root st,
    fsys (resolve dirPath) = Some root
    /\ searchDirectory fuel pattern flags exts (resolve dirPath) root
         (mkWalkState [] 0) = Some (Normal tt, st)
    /\ summary = mkDirSummary (resolve dirPath) pattern flags exts
                   (List.length (walkResults st)) (walkTotal st)
                   (walkResults st).
Proof.
  intros exts flags. unfold handleRegexSearchDirectory, respond.
  fold exts flags.
  destruct (Fs.existsSync (fsys (resolve dirPath))) eqn:Hexists; cbn [negb];
    [|discriminate].
  unfold bind at 1, searchDirectoryAt.
  destruct (fsys (resolve dirPath)) as [root|]; [|discriminate].
  destruct (searchDirectory fuel pattern flags exts (resolve dirPath) root
              (mkWalkState [] 0)) as [[[[]|message] st]|] eqn:Hwalk;
    try discriminate.
  intros [= <-]. exists root, st. auto.
Qed.

Lemma directory_results_in_walk_order_aux (fuel : nat)
    (pattern dirPath : string) (extensionsArg : option (list string))
    (flagsArg : option string) (root : Fs.node) (summary : DirSummary) :
  let exts :=
    match extensionsArg with Some l => l | None => defaultExtensions end in
  let flags := match flagsArg with Some f => f | None => "g" end in
  fsys (resolve dirPath) = Some root ->
  handleRegexSearchDirectory resolve fsys fuel pattern dirPath
    extensionsArg flagsArg = Some (Content summary) ->
  results summary
  = flat_map (fileReport fuel pattern flags)
      (eligibleFiles exts (resolve dirPath) root).
Proof.
  intros exts flags Hroot Hrun.
  apply handleRegexSearchDirectory_content in Hrun
    as (root' & st & Hroot' & Hwalk & ->).
  rewrite Hroot in Hroot'. injection Hroot' as <-.
  apply searchDirectory_report in Hwalk. cbn [results]. exact Hwalk.
Qed.

(** X8.  The results of a directory search that returns a summary are the
    reports of the files it was to read (the readable regular files with
    an accepted extension, reached through directories that are not
    skipped), one FileResult for each such file with a matching line and
    none for the others, in the order of the walk: the entries of a
    directory as listed, a subdirectory's files in its place. *)
Theorem directory_results_in_walk_order (fuel : nat)
    (pattern dirPath : string) (extensionsArg : option (list string))
    (flagsArg : option string) (root : Fs.node) (summary : DirSummary) :
  let exts :=
    match extensionsArg with Some l => l | None => defaultExtensions end in
  let flags := match flagsArg with Some f => f | None => "g" end in
  fsys (resolve dirPath) = Some root ->
  handleRegexSearchDirectory resolve fsys fuel pattern dirPath
    extensionsArg flagsArg = Some (Content summary) ->
  results summary
  = flat_map (fileReport fuel pattern flags)
      (eligibleFiles exts (resolve dirPath) root).
Proof.
  intros exts flags. apply directory_results_in_walk_order_aux.
Qed.

(** X9.  The two searches agree: each FileResult of a directory summary is
    what the single-file search, with the same pattern, flags and fuel,
    returns for a file of that text: the same lines, and its
    [totalMatches] is the [matchCount]. *)
Theorem directory_result_is_single_file_search (fuel : nat)
    (pattern dirPath : string) (extensionsArg : option (list string))
    (flagsArg : option string) (root : Fs.node) (summary : DirSummary)
    (r : FileResult) :
  let exts :=
    match extensionsArg with Some l => l | None => defaultExtensions end in
  let flags := match flagsArg with Some f => f | None => "g" end in
  fsys (resolve dirPath) = Some root ->
  handleRegexSearchDirectory resolve fsys fuel pattern dirPath
    extensionsArg flagsArg = Some (Content summary) ->
  In r (results summary) ->
  exists text,
    In (file r, text) (eligibleFiles exts (resolve dirPath) root)
    /\ forall (resolve' : string -> string)
              (fsys' : string -> option Fs.node) (target : string),
         fsys' (resolve' target) = Some (Fs.File (inl text)) ->
         handleRegexSearch resolve' fsys' fuel pattern target flagsArg
         = Some (Content (mkFileSummary (resolve' target) pattern flags
                            (matchCount r) (fileResults r))).
Proof.
  intros exts flags Hroot Hrun Hin.
  rewrite (@directory_results_in_walk_order_aux fuel pattern dirPath
             extensionsArg flagsArg root summary Hroot Hrun) in Hin.
  fold exts flags in Hin.
  apply in_flat_map in Hin as ([path text] & Heligible & Hreport).
  unfold fileReport in Hreport. cbn [fst snd] in Hreport.
  destruct (forEachLine fuel pattern flags (JsString.split text) 0 [] tt)
    as [[[lines|message] []]|] eqn:Hlines; try (exfalso; exact Hreport).
  destruct (0 <? List.length lines)%nat; [|exfalso; exact Hreport].
  destruct Hreport as [<-|[]]. cbn [file matchCount fileResults].
  exists text. split; [exact Heligible|].
  intros resolve' fsys' target Hfile.
  assert (HR : exists R, newRegExp pattern flags = Normal R).
  { destruct (JsString.split text) as [|l ls] eqn:Hsplit;
      [now apply split_not_empty in Hsplit|].
    cbn [forEachLine] in Hlines. unfold bind at 1, findOccurrences in Hlines.
    unfold bind at 1, call in Hlines.
    destruct (newRegExp pattern flags) as [R|message]; [eauto|discriminate]. }
  destruct HR as [R HR].
  rewrite (@handleRegexSearch_compiled _ resolve' fsys' fuel pattern target
             flagsArg text R).
  - fold flags. rewrite Hlines. now rewrite countMatches_occurrenceCount.
  - unfold readFileAt. now rewrite Hfile.
  - exact HR.
Qed.

End DirectoryReports.

(** * How a directory search fails *)

Section DirectoryFailures.

Import Reports.

Context {E : Engine}.

Variable resolve : string -> string.
Variable fsys : string -> option Fs.node.

Lemma walkFailure_incl (entries entries' : list (string * Fs.node))
    (message : string) :
  incl entries entries' ->
  walkFailure (Fs.Dir entries) message ->
  walkFailure (Fs.Dir entries') message.
Proof.
  intros Hincl Hfail. inversion Hfail; subst.
  - discriminate.
  - eapply failure_stat; eauto.
  - eapply failure_below; eauto.
Qed.

(** A walk that throws throws the message of a directory that cannot be
    listed or of an entry that cannot be examined. *)
Lemma searchDirectory_throws (fuel : nat) (pattern flags : string)
    (exts : list string) :
  forall (n : Fs.node) (dir : string) (st st' : walkState) (message : string),
    searchDirectory fuel pattern flags exts dir n st = Some (Throw message, st') ->
    walkFailure n message.
Proof.
  induction n as [read|entries IH|message|read|message] using node_induction;
    try (intros dir st st' m [= <- _]; now apply failure_list).
  intros dir. induction IH as [|[name child] rest Hchild _ IHrest];
    intros st st' m Hrun; [discriminate|].
  rewrite searchDirectory_cons in Hrun. simpl snd in Hchild.
  unfold bind in Hrun.
  destruct (visitEntry fuel pattern flags exts dir name child st)
    as [[[[]|message] st1]|] eqn:Hvisit; [| |discriminate].
  - apply IHrest in Hrun. eapply walkFailure_incl; [|exact Hrun].
    intros x Hx. now right.
  - injection Hrun as -> _.
    destruct child as [read|entries|message|read|message].
    + rewrite visitEntry_File in Hvisit.
      destruct (JsString.includes exts (Path.extname name));
        [|discriminate].
      apply searchFile_normal in Hvisit. discriminate.
    + rewrite visitEntry_Dir in Hvisit.
      destruct (descends name) eqn:Hdesc; [|discriminate].
      eapply failure_below;
        [left; reflexivity | reflexivity | reflexivity | exact Hdesc |].
      eapply Hchild; exact Hvisit.
    + rewrite visitEntry_DirErr in Hvisit.
      destruct (descends name) eqn:Hdesc; [|discriminate].
      injection Hvisit as <- _.
      eapply failure_below;
        [left; reflexivity | reflexivity | reflexivity | exact Hdesc |].
      now apply failure_list.
    + discriminate.
    + injection Hvisit as <- _.
      eapply failure_stat; [left; reflexivity | reflexivity].
Qed.

(** X6.  A directory search fails for two reasons and no other: the
    resolved path does not exist, and the failure is [Directory not found: ]
    and that path; or the walk meets what it cannot list or examine (the
    root when it is no directory, a directory that cannot be listed, an
    entry on which [statSync] throws) at the root or below it through
    directories that are not skipped, and the failure is [Error: ] and the
    message of that exception.  No file that cannot be read and no pattern
    that does not compile makes it fail. *)
Theorem directory_search_failures (fuel : nat) (pattern dirPath : string)
    (extensionsArg : option (list string)) (flagsArg : option string)
    (failure : string) :
  handleRegexSearchDirectory resolve fsys fuel pattern dirPath
    extensionsArg flagsArg = Some (IsError failure) ->
  (Fs.existsSync (fsys (resolve dirPath)) = false
   /\ failure = ("Directory not found: " ++ resolve dirPath)%string)
  \/ (exists root message,
        fsys (resolve dirPath) = Some root
        /\ walkFailure root message
        /\ failure = ("Error: " ++ message)%string).
Proof.
  unfold handleRegexSearchDirectory, respond.
  destruct (Fs.existsSync (fsys (resolve dirPath))) eqn:Hexists; cbn [negb].
  - unfold bind at 1, searchDirectoryAt.
    destruct (fsys (resolve dirPath)) as [root|]; [|discriminate].
    match goal with
    | |- context [searchDirectory ?a ?b ?c ?d ?e ?f ?s] =>
        destruct (searchDirectory a b c d e f s)
          as [[[[]|message] st]|] eqn:Hwalk
    end; try discriminate.
    intros [= <-]. right. exists root, message.
    split; [reflexivity|]. split; [|reflexivity].
    eapply searchDirectory_throws; exact Hwalk.
  - intros [= <-]. left. auto.
Qed.

(** The directory search of a root that exists is the walk of the root. *)
Lemma handleRegexSearchDirectory_walk (fuel : nat)
    (pattern dirPath : string) (extensionsArg : option (list string))
    (flagsArg : option string) (root : Fs.node) :
  let exts :=
    match extensionsArg with Some l => l | None => defaultExtensions end in
  let flags := match flagsArg with Some f => f | None => "g" end in
  fsys (resolve dirPath) = Some root ->
  Fs.existsSync (Some root) = true ->
  handleRegexSearchDirectory resolve fsys fuel pattern dirPath
    extensionsArg flagsArg
  = match searchDirectory fuel pattern flags exts (resolve dirPath) root
            (mkWalkState [] 0) with
    | Some (Normal _, st) =>
        Some (Content (mkDirSummary (resolve dirPath) pattern flags exts
                         (List.length (walkResults st)) (walkTotal st)
                         (walkResults st)))
    | Some (Throw message, _) => Some (IsError ("Error: " ++ message))
    | None => None
    end.
Proof.
  intros exts flags Hroot Hexists.
  unfold handleRegexSearchDirectory, respond. fold exts flags.
  rewrite Hroot, Hexists. cbn [negb].
  unfold bind at 1, searchDirectoryAt. rewrite Hroot.
  destruct (searchDirectory fuel pattern flags exts (resolve dirPath) root
              (mkWalkState [] 0)) as [[[[]|message] st]|]; reflexivity.
Qed.

(** With a pattern that does not compile the walk reads, writes nothing
    and ends. *)
Lemma searchDirectory_without_pattern (fuel : nat)
    (pattern flags message : string) (exts : list string) :
  newRegExp pattern flags = Throw message ->
  forall (n : Fs.node) (dir : string) (st : walkState),
    exists c, searchDirectory fuel pattern flags exts dir n st = Some (c, st).
Proof.
  intros HR.
  induction n as [read|entries IH|m|read|m] using node_induction;
    try (intros dir st; eexists; reflexivity).
  intros dir. induction IH as [|[name child] rest Hchild _ IHrest]; intros st.
  - eexists; reflexivity.
  - rewrite searchDirectory_cons. simpl snd in Hchild. unfold bind.
    assert (Hvisit : exists c,
              visitEntry fuel pattern flags exts dir name child st
              = Some (c, st)).
    { destruct child as [read|entries|m|read|m].
      - rewrite visitEntry_File.
        destruct (JsString.includes exts (Path.extname name));
          [|eexists; reflexivity].
        rewrite searchFile_swallows_compile_error with (message := message)
          by assumption. eauto.
      - rewrite visitEntry_Dir. destruct (descends name);
          [apply Hchild | eexists; reflexivity].
      - rewrite visitEntry_DirErr. destruct (descends name);
          eexists; reflexivity.
      - eexists; reflexivity.
      - eexists; reflexivity. }
    destruct Hvisit as [[[]|m] ->]; [apply IHrest | eauto].
Qed.

(** X5.  With a pattern or flags that do not compile, the directory search
    of an existing root always returns, whatever the fuel, and never with a
    result: either the summary with no file, [filesMatched] 0 and
    [totalMatches] 0, or the failure of the walk itself. *)
Theorem directory_search_without_pattern (fuel : nat)
    (pattern dirPath message : string)
    (extensionsArg : option (list string)) (flagsArg : option string)
    (root : Fs.node) :
  let exts :=
    match extensionsArg with Some l => l | None => defaultExtensions end in
  let flags := match flagsArg with Some f => f | None => "g" end in
  newRegExp pattern flags = Throw message ->
  fsys (resolve dirPath) = Some root ->
  Fs.existsSync (Some root) = true ->
  handleRegexSearchDirectory resolve fsys fuel pattern dirPath
    extensionsArg flagsArg
  = Some (Content (mkDirSummary (resolve dirPath) pattern flags exts 0 0 []))
  \/ exists failure,
       walkFailure root failure
       /\ handleRegexSearchDirectory resolve fsys fuel pattern dirPath
            extensionsArg flagsArg
          = Some (IsError ("Error: " ++ failure)).
Proof.
  intros exts flags HR Hroot Hexists.
  rewrite (@handleRegexSearchDirectory_walk fuel pattern dirPath
             extensionsArg flagsArg root Hroot Hexists).
  fold exts flags.
  destruct (@searchDirectory_without_pattern fuel pattern flags message exts
              HR root (resolve dirPath) (mkWalkState [] 0)) as [c Hwalk].
  rewrite Hwalk. destruct c as [[]|failure].
  - left. reflexivity.
  - right. exists failure. split; [|reflexivity].
    eapply searchDirectory_throws; exact Hwalk.
Qed.

(** The walk of a listing is that of its first part, then that of the
    rest. *)
Lemma searchDirectory_app (fuel : nat) (pattern flags : string)
    (exts : list string) (dir : string)
    (before after : list (string * Fs.node)) (st : walkState) :
  searchDirectory fuel pattern flags exts dir (Fs.Dir (before ++ after)) st
  = (searchDirectory fuel pattern flags exts dir (Fs.Dir before) ;;;
     searchDirectory fuel pattern flags exts dir (Fs.Dir after)) st.
Proof.
  revert st. induction before as [|[name child] rest IH]; intros st.
  - reflexivity.
  - cbn [app]. rewrite !searchDirectory_cons. unfold bind.
    destruct (visitEntry fuel pattern flags exts dir name child st)
      as [[[[]|message] st1]|]; [|reflexivity|reflexivity].
    rewrite IH. reflexivity.
Qed.

(** X7.  An entry of the root on which [statSync] throws, or a
    subdirectory that is not skipped and cannot be listed, ends the whole
    directory search with [Error: ] and the message of that exception: what
    the entries before it gave is thrown away with the summary, and the
    entries after it are not visited. *)
Theorem broken_entry_fails_directory_search (fuel : nat)
    (pattern dirPath : string) (extensionsArg : option (list string))
    (flagsArg : option string) (before after : list (string * Fs.node))
    (name : string) (child : Fs.node) (message : string) (st : walkState) :
  let exts :=
    match extensionsArg with Some l => l | None => defaultExtensions end in
  let flags := match flagsArg with Some f => f | None => "g" end in
  fsys (resolve dirPath) = Some (Fs.Dir (before ++ (name, child) :: after)) ->
  Fs.statSync child = Throw message
  \/ (child = Fs.DirErr message /\ descends name = true) ->
  searchDirectory fuel pattern flags exts (resolve dirPath) (Fs.Dir before)
    (mkWalkState [] 0) = Some (Normal tt, st) ->
  handleRegexSearchDirectory resolve fsys fuel pattern dirPath
    extensionsArg flagsArg = Some (IsError ("Error: " ++ message)).
Proof.
  intros exts flags Hroot Hbroken Hbefore.
  rewrite (@handleRegexSearchDirectory_walk fuel pattern dirPath
             extensionsArg flagsArg _ Hroot eq_refl).
  fold exts flags.
  rewrite searchDirectory_app. unfold bind at 1. rewrite Hbefore.
  rewrite searchDirectory_cons. unfold bind at 1.
  assert (Hvisit : visitEntry fuel pattern flags exts (resolve dirPath) name
                     child st = Some (Throw message, st)).
  { destruct Hbroken as [Hstat|[-> Hdesc]].
    - destruct child; try discriminate. now injection Hstat as <-.
    - now rewrite visitEntry_DirErr, Hdesc. }
  now rewrite Hvisit.
Qed.

End DirectoryFailures.

(** * The tool boundary *)

Section Boundary.

Import Reports.

Context {E : Engine}.

Variable resolve : string -> string.
Variable fsys : string -> option Fs.node.

(** The failures of the single-file search begin with [File not found: ]
    or with [Error: ]. *)
Lemma handleRegexSearch_failure_text (fuel : nat) (pattern target : string)
    (flagsArg : option string) (failure : string) :
  handleRegexSearch resolve fsys fuel pattern target flagsArg
  = Some (IsError failure) ->
  exists rest,
    failure = ("File not found: " ++ rest)%string
    \/ failure = ("Error: " ++ rest)%string.
Proof.
  intros Hrun. apply handleRegexSearch_failure in Hrun
    as [[_ ->]|(_ & message & -> & _)].
  - exists (resolve target). now left.
  - exists message. now right.
Qed.

(** Those of the directory search begin with [Directory not found: ] or
    with [Error: ]. *)
Lemma handleRegexSearchDirectory_failure_text (fuel : nat)
    (pattern dirPath : string) (extensionsArg : option (list string))
    (flagsArg : option string) (failure : string) :
  handleRegexSearchDirectory resolve fsys fuel pattern dirPath
    extensionsArg flagsArg = Some (IsError failure) ->
  exists rest,
    failure = ("Directory not found: " ++ rest)%string
    \/ failure = ("Error: " ++ rest)%string.
Proof.
  unfold handleRegexSearchDirectory, respond.
  destruct (Fs.existsSync (fsys (resolve dirPath))); cbn [negb].
  - unfold bind at 1.
    match goal with
    | |- context [searchDirectoryAt ?a ?b ?c ?d ?e ?f ?s] =>
        destruct (searchDirectoryAt a b c d e f s) as [[[[]|message] st]|]
    end.
    + unfold bind, get, ret. discriminate.
    + intros [= <-]. exists message. now right.
    + discriminate.
  - intros [= <-]. exists (resolve dirPath). now left.
Qed.

(** X11.  No call that comes through the SDK reaches a tool.  The handler
    reads [name] and [arguments] off the request it is given, and the SDK
    gives it the object that holds them under [params]: whatever tool the
    call names, listed or not, and whatever its arguments, the answer is
    [Unknown tool: undefined], and it is returned whatever the fuel.  For
    any object, the answer is [Unknown tool: ] and the text of its own
    [name] exactly when that [name] is not the name of a listed tool. *)
Theorem call_requests_reach_no_tool (fuel : nat) (toolName : string)
    (args : option Tools.arguments) (req : Tools.request) :
  Tools.callTool resolve fsys fuel (Tools.callToolRequest toolName args)
  = Some (IsError "Unknown tool: undefined")
  /\ (Tools.callTool resolve fsys fuel req
      = Some (IsError ("Unknown tool: "
                       ++ Tools.toText (Tools.getProperty "name" req)))
      <-> forall n, Tools.getProperty "name" req = Tools.Str n ->
                    ~ In n (map Tools.toolName Tools.listTools)).
Proof.
  split; [reflexivity|].
  unfold Tools.callTool. cbn [map Tools.listTools Tools.toolName In].
  destruct (Tools.getProperty "name" req) as [|n|a|n a] eqn:Hname;
    cbn [Tools.strictEquals Tools.toText];
    try (split; [intros _ n' Hn; discriminate Hn | reflexivity]).
  destruct (String.eqb n "regex_search") eqn:Hfile.
  - apply String.eqb_eq in Hfile. split.
    + intros Hcall. exfalso.
      unfold Tools.handleRegexSearchCall in Hcall.
      destruct (Tools.asArguments (Tools.getProperty "arguments" req))
        as [a|]; [|rewrite Hfile in Hcall; discriminate].
      destruct (Tools.filePath a) as [p|];
        [|rewrite Hfile in Hcall; discriminate].
      destruct (handleRegexSearch resolve fsys fuel
                  (Tools.patternSource (Tools.pattern a)) p (Tools.flags a))
        as [[summary|failure]|] eqn:Hrun; try discriminate.
      apply handleRegexSearch_failure_text in Hrun as [rest [-> | ->]];
        rewrite Hfile in Hcall; discriminate.
    + intros Hnot. exfalso. apply (Hnot n eq_refl). left. now rewrite Hfile.
  - destruct (String.eqb n "regex_search_directory") eqn:Hdir.
    + apply String.eqb_eq in Hdir. split.
      * intros Hcall. exfalso.
        unfold Tools.handleRegexSearchDirectoryCall in Hcall.
        destruct (Tools.asArguments (Tools.getProperty "arguments" req))
          as [a|]; [|rewrite Hdir in Hcall; discriminate].
        destruct (Tools.dirPath a) as [p|];
          [|rewrite Hdir in Hcall; discriminate].
        destruct (handleRegexSearchDirectory resolve fsys fuel
                    (Tools.patternSource (Tools.pattern a)) p
                    (Tools.fileExtensions a) (Tools.flags a))
          as [[summary|failure]|] eqn:Hrun; try discriminate.
        apply handleRegexSearchDirectory_failure_text in Hrun
          as [rest [-> | ->]];
          rewrite Hdir in Hcall; discriminate.
      * intros Hnot. exfalso. apply (Hnot n eq_refl). right. left.
        now rewrite Hdir.
    + apply String.eqb_neq in Hfile, Hdir. split; [|reflexivity].
      intros _ n' [= <-] [Heq|[Heq|[]]]; congruence.
Qed.

(** X12.  The defaults that the schemas give are the defaults that the
    handlers apply: a call without [flags], or without [fileExtensions], is
    answered as the call with the default of the schema in its place. *)
Theorem schema_defaults_are_applied (fuel : nat) (pattern target : string)
    (fileFlags dirFlags : string) (dirExtensions : list string) :
  Tools.schemaDefault "regex_search" "flags"
  = Some (Tools.DefaultString fileFlags) ->
  Tools.schemaDefault "regex_search_directory" "flags"
  = Some (Tools.DefaultString dirFlags) ->
  Tools.schemaDefault "regex_search_directory" "fileExtensions"
  = Some (Tools.DefaultStrings dirExtensions) ->
  handleRegexSearch resolve fsys fuel pattern target None
  = handleRegexSearch resolve fsys fuel pattern target (Some fileFlags)
  /\ (forall extensionsArg,
        handleRegexSearchDirectory resolve fsys fuel pattern target
          extensionsArg None
        = handleRegexSearchDirectory resolve fsys fuel pattern target
            extensionsArg (Some dirFlags))
  /\ (forall flagsArg,
        handleRegexSearchDirectory resolve fsys fuel pattern target
          None flagsArg
        = handleRegexSearchDirectory resolve fsys fuel pattern target
            (Some dirExtensions) flagsArg).
Proof.
  intros [= <-] [= <-] [= <-]. repeat split.
Qed.

Lemma newRegExp_compiled (pattern flagString : string) (R : regexp) :
  newRegExp pattern flagString = Normal R ->
  exists f, parsePattern pattern f = inl (compiled R).
Proof.
  unfold newRegExp. destruct (parseFlags flagString) as [f|]; [|discriminate].
  destruct (parsePattern pattern f) as [m|message] eqn:Hparse; [|discriminate].
  intros [= <-]. exists f. exact Hparse.
Qed.

Lemma newRegExp_lastIndex (pattern flagString : string) (R : regexp) :
  newRegExp pattern flagString = Normal R -> lastIndex R = 0.
Proof.
  intros HR. apply newRegExp_fresh in HR. rewrite <- HR. reflexivity.
Qed.

Lemma single_file_failure_of_compile (fuel : nat) (pattern target : string)
    (flagsArg : option string) (text message : string) :
  let flags := match flagsArg with Some f => f | None => "g" end in
  readFileAt fsys (resolve target) = Normal text ->
  newRegExp pattern flags = Throw message ->
  handleRegexSearch resolve fsys fuel pattern target flagsArg
  = Some (IsError ("Error: " ++ message)).
Proof.
  intros flags Hread HR. unfold handleRegexSearch. fold flags.
  rewrite (readFileAt_exists _ _ Hread). cbn [negb].
  unfold respond, bind at 1, call at 1. rewrite Hread.
  unfold bind at 1, call at 1. now rewrite HR.
Qed.

(** X13.  A call of [regex_search] without [pattern] compiles the empty
    pattern.  With an engine for which the empty pattern matches the empty
    string at the start of every line, such a call on a readable file is
    never answered with a summary: it fails when the flags do not compile,
    and otherwise does not return, whatever the fuel. *)
Theorem search_without_pattern (fuel : nat) (a : Tools.arguments)
    (target text : string) :
  let flags := match Tools.flags a with Some f => f | None => "g" end in
  (forall f m line, parsePattern EmptyString f = inl m ->
                    runMatcher m line 0 = Some 0) ->
  Tools.pattern a = None ->
  Tools.filePath a = Some target ->
  readFileAt fsys (resolve target) = Normal text ->
  Tools.handleRegexSearchCall resolve fsys fuel (Some a) = None
  \/ exists message,
       newRegExp EmptyString flags = Throw message
       /\ Tools.handleRegexSearchCall resolve fsys fuel (Some a)
          = Some (IsError ("Error: " ++ message)).
Proof.
  intros flags Hempty Hpattern Hpath Hread.
  unfold Tools.handleRegexSearchCall. rewrite Hpath, Hpattern.
  cbn [Tools.patternSource].
  destruct (newRegExp EmptyString flags) as [R|message] eqn:HR.
  - left.
    rewrite handleRegexSearch_compiled with (text := text) (R := R)
      by assumption.
    fold flags.
    destruct (JsString.split text) as [|line rest] eqn:Hsplit;
      [now apply split_not_empty in Hsplit|].
    rewrite forEachLine_hangs with (R := R) (line := line);
      [reflexivity | exact HR | | now left].
    destruct (newRegExp_compiled _ _ HR) as [f Hparse].
    pose proof (Hempty f (compiled R) line Hparse) as Hmatch.
    pose proof (newRegExp_lastIndex _ _ HR) as Hlast.
    apply whileExec_stalls
      with (m := mkExecResult 0 (JsString.slice line 0 0)).
    unfold exec. rewrite Hlast.
    replace (if global (RegExp.flags R) || sticky (RegExp.flags R)
             then 0 else 0) with 0 by (now destruct (_ || _)).
    cbn [Nat.ltb Nat.leb scanFrom]. rewrite Hmatch.
    destruct (global (RegExp.flags R) || sticky (RegExp.flags R));
      [|reflexivity].
    now rewrite <- Hlast, setLastIndex_same.
  - right. exists message. split; [reflexivity|].
    apply single_file_failure_of_compile with (text := text); assumption.
Qed.

End Boundary.

(** * Which files are read, and under which paths *)

Section Eligibility.

Import Path Reports.





Lemma prefix_append (a b : string) : String.prefix a (a ++ b)%string = true.
Proof.
  induction a as [|c a IH]; simpl; [now destruct b|].
  destruct (ascii_dec c c); [exact IH|contradiction].
Qed.

Lemma prefix_transitive (a b c : string) :
  String.prefix a b = true -> String.prefix b c = true ->
  String.prefix a c = true.
Proof.
  revert b c. induction a as [|x a IH]; intros b c Hab Hbc; [now destruct c|].
  destruct b as [|y b]; [discriminate|]. destruct c as [|z c]; [discriminate|].
  simpl in *. destruct (ascii_dec x y); [subst|discriminate].
  destruct (ascii_dec y z); [subst|discriminate]. eapply IH; eauto.
Qed.

Lemma prefix_join (dir name : string) :
  String.prefix dir (Path.join dir name) = true.
Proof.
  unfold Path.join. destruct (String.eqb dir "/") eqn:Hroot.
  - apply String.eqb_eq in Hroot. subst. apply (prefix_append "/" name).
  - apply prefix_append.
Qed.

Lemma reached_prefix (exts : list string) (dir : string) (n : Fs.node)
    (path : string) :
  reached exts dir n path -> String.prefix dir path = true.
Proof.
  intros Hreached. induction Hreached.
  - apply prefix_join.
  - eapply prefix_transitive; [apply prefix_join | eassumption].
Qed.

End Eligibility.

Section EligibilityOfFiles.

Import Reports.

Context {E : Engine}.

Variable resolve : string -> string.
Variable fsys : string -> option Fs.node.

Lemma eligibleFiles_app (exts : list string) (dir : string)
    (before after : list (string * Fs.node)) :
  eligibleFiles exts dir (Fs.Dir (before ++ after))
  = eligibleFiles exts dir (Fs.Dir before)
    ++ eligibleFiles exts dir (Fs.Dir after).
Proof.
  induction before as [|[name child] rest IH]; [reflexivity|].
  rewrite <- app_comm_cons, eligibleFiles_cons, IH.
  rewrite (eligibleFiles_cons exts dir name child rest).
  now rewrite app_assoc.
Qed.

(** What one entry of the root gives to the results of a directory search
    that returns a summary: its own reports, between those of the entries
    listed before it and those of the entries listed after it. *)
Lemma entry_reports (fuel : nat) (pattern dirPath : string)
    (extensionsArg : option (list string)) (flagsArg : option string)
    (before after : list (string * Fs.node)) (name : string)
    (child : Fs.node) (summary : DirSummary) :
  let exts :=
    match extensionsArg with Some l => l | None => defaultExtensions end in
  let flags := match flagsArg with Some f => f | None => "g" end in
  let reports := fun entries =>
    flat_map (fileReport fuel pattern flags)
      (eligibleFiles exts (resolve dirPath) (Fs.Dir entries)) in
  fsys (resolve dirPath) = Some (Fs.Dir (before ++ (name, child) :: after)) ->
  handleRegexSearchDirectory resolve fsys fuel pattern dirPath
    extensionsArg flagsArg = Some (Content summary) ->
  results summary = reports before ++ reports [(name, child)] ++ reports after.
Proof.
  intros exts flags reports Hroot Hrun. unfold reports.
  rewrite (@directory_results_in_walk_order_aux _ resolve fsys fuel pattern
             dirPath extensionsArg flagsArg _ summary Hroot Hrun).
  fold exts flags.
  rewrite eligibleFiles_app, eligibleFiles_cons, !flat_map_app.
  reflexivity.
Qed.

(** A readable regular file among the entries of the root gives its own
    report when [path.extname] of its name is accepted, and nothing
    otherwise, whatever its name begins with. *)
Lemma file_entry_reports (fuel : nat) (pattern dirPath : string)
    (extensionsArg : option (list string)) (flagsArg : option string)
    (before after : list (string * Fs.node)) (name text : string)
    (summary : DirSummary) :
  let exts :=
    match extensionsArg with Some l => l | None => defaultExtensions end in
  let flags := match flagsArg with Some f => f | None => "g" end in
  let reports := fun entries =>
    flat_map (fileReport fuel pattern flags)
      (eligibleFiles exts (resolve dirPath) (Fs.Dir entries)) in
  fsys (resolve dirPath)
  = Some (Fs.Dir (before ++ (name, Fs.File (inl text)) :: after)) ->
  handleRegexSearchDirectory resolve fsys fuel pattern dirPath
    extensionsArg flagsArg = Some (Content summary) ->
  results summary
  = reports before
    ++ (if JsString.includes exts (Path.extname name)
        then fileReport fuel pattern flags
               (Path.join (resolve dirPath) name, text)
        else [])
    ++ reports after.
Proof.
  intros exts flags reports Hroot Hrun.
  rewrite (@entry_reports fuel pattern dirPath extensionsArg flagsArg before
             after name (Fs.File (inl text)) summary Hroot Hrun).
  change (reports before ++ reports [(name, Fs.File (inl text))]
            ++ reports after
          = reports before
            ++ (if JsString.includes exts (Path.extname name)
                then fileReport fuel pattern flags
                       (Path.join (resolve dirPath) name, text)
                else [])
            ++ reports after).
  f_equal. f_equal. unfold reports. cbn [eligibleFiles].
  destruct (JsString.includes exts (Path.extname name)); cbn;
    now rewrite ?app_nil_r.
Qed.

(** A directory among the entries of the root that the walk does not go
    into gives nothing. *)
Lemma skipped_entry_reports (fuel : nat) (pattern dirPath : string)
    (extensionsArg : option (list string)) (flagsArg : option string)
    (before after : list (string * Fs.node)) (name : string)
    (child : Fs.node) (stats : Fs.Stats) (summary : DirSummary) :
  let exts :=
    match extensionsArg with Some l => l | None => defaultExtensions end in
  let flags := match flagsArg with Some f => f | None => "g" end in
  let reports := fun entries =>
    flat_map (fileReport fuel pattern flags)
      (eligibleFiles exts (resolve dirPath) (Fs.Dir entries)) in
  fsys (resolve dirPath) = Some (Fs.Dir (before ++ (name, child) :: after)) ->
  handleRegexSearchDirectory resolve fsys fuel pattern dirPath
    extensionsArg flagsArg = Some (Content summary) ->
  Fs.statSync child = Normal stats -> Fs.isDirectory stats = true ->
  descends name = false ->
  results summary = reports before ++ reports after.
Proof.
  intros exts flags reports Hroot Hrun Hstat Hdir Hskip.
  rewrite (@entry_reports fuel pattern dirPath extensionsArg flagsArg before
             after name child summary Hroot Hrun).
  change (reports before ++ reports [(name, child)] ++ reports after
          = reports before ++ reports after).
  replace (reports [(name, child)]) with (@nil FileResult); [reflexivity|].
  unfold reports.
  destruct child as [read|entries|message|read|message];
    cbn in Hstat; try (injection Hstat as <-; discriminate Hdir);
    try discriminate Hstat.
  - cbn [eligibleFiles]. now rewrite Hskip.
  - reflexivity.
Qed.


(** C10.  The skip on a leading dot is for directories only.  Of the
    entries of the root whose name begins with a dot, a directory gives
    nothing to the summary of a directory search, whereas a readable
    regular file is scanned as any other: it gives its report, in its
    place between those of the entries before and after it, exactly when
    [path.extname] of its name is among the accepted extensions.  That
    extension is empty when no dot follows the leading one, and otherwise
    runs from the last dot to the end of the name; so [.hidden.js] is
    scanned whenever [.js] is accepted, and a file named [.js] is scanned
    exactly when the empty string is accepted. *)
Theorem dot_file_scanned_by_extension (fuel : nat) (pattern dirPath : string)
    (extensionsArg : option (list string)) (flagsArg : option string)
    (before after : list (string * Fs.node)) (name : string)
    (child : Fs.node) (summary : DirSummary) :
  let exts :=
    match extensionsArg with Some l => l | None => defaultExtensions end in
  let flags := match flagsArg with Some f => f | None => "g" end in
  let reports := fun entries =>
    flat_map (fileReport fuel pattern flags)
      (eligibleFiles exts (resolve dirPath) (Fs.Dir entries)) in
  let report := fun text =>
    fileReport fuel pattern flags (Path.join (resolve dirPath) name, text) in
  JsString.startsWith name "." = true ->
  fsys (resolve dirPath) = Some (Fs.Dir (before ++ (name, child) :: after)) ->
  handleRegexSearchDirectory resolve fsys fuel pattern dirPath
    extensionsArg flagsArg = Some (Content summary) ->
  (forall stats,
     Fs.statSync child = Normal stats -> Fs.isDirectory stats = true ->
     results summary = reports before ++ reports after)
  /\ (forall text,
        child = Fs.File (inl text) ->
        results summary
        = reports before
          ++ (if JsString.includes exts (Path.extname name)
              then report text else [])
          ++ reports after)
  /\ (forall rest,
        plain rest = true -> name = ("." ++ rest)%string ->
        Path.extname name = EmptyString)
  /\ (forall stem suffix,
        slashFree stem = true -> plain suffix = true ->
        stem <> EmptyString \/ suffix <> EmptyString ->
        name = ("." ++ stem ++ "." ++ suffix)%string ->
        Path.extname name = ("." ++ suffix)%string)
  /\ (forall text,
        name = ".hidden.js" -> child = Fs.File (inl text) ->
        JsString.includes exts ".js" = true ->
        results summary = reports before ++ report text ++ reports after)
  /\ (forall text,
        name = ".js" -> child = Fs.File (inl text) ->
        results summary
        = reports before
          ++ (if JsString.includes exts EmptyString
              then report text else [])
          ++ reports after).
Proof.
  intros exts flags reports report Hdot Hroot Hrun.
  assert (Hfile : forall text,
            child = Fs.File (inl text) ->
            results summary
            = reports before
              ++ (if JsString.includes exts (Path.extname name)
                  then report text else [])
              ++ reports after).
  { intros text ->.
    exact (@file_entry_reports fuel pattern dirPath extensionsArg flagsArg
             before after name text summary Hroot Hrun). }
  split; [|split; [exact Hfile|split; [|split; [|split]]]].
  - intros stats Hstat Hdir.
    apply (@skipped_entry_reports fuel pattern dirPath extensionsArg flagsArg
             before after name child stats summary Hroot Hrun Hstat Hdir).
    rewrite descends_skipped, Hdot. reflexivity.
  - intros rest Hplain ->. now apply extname_dot_plain.
  - intros stem suffix Hstem Hsuffix Hnot ->. now apply extname_dot_suffix.
  - intros text Hname Hchild Hjs. rewrite (Hfile text Hchild).
    rewrite Hname at 1. change (Path.extname ".hidden.js") with ".js".
    now rewrite Hjs.
  - intros text Hname Hchild. rewrite (Hfile text Hchild).
    rewrite Hname at 1. reflexivity.
Qed.

(** X16.  Every FileResult of a directory summary carries a path that
    begins with the resolved path of the root, and the summary names that
    resolved path as its [directory]. *)
Theorem results_lie_under_the_root (fuel : nat) (pattern dirPath : string)
    (extensionsArg : option (list string)) (flagsArg : option string)
    (summary : DirSummary) :
  handleRegexSearchDirectory resolve fsys fuel pattern dirPath
    extensionsArg flagsArg = Some (Content summary) ->
  directory summary = resolve dirPath
  /\ Forall (fun r => String.prefix (resolve dirPath) (file r) = true)
       (results summary).
Proof.
  intros Hrun. pose proof Hrun as Hcontent.
  apply handleRegexSearchDirectory_content in Hcontent
    as (root & st & Hroot & _ & Hsummary).
  split; [now rewrite Hsummary|].
  eapply Forall_impl;
    [|exact (@handleRegexSearchDirectory_results _ resolve fsys fuel pattern
               dirPath extensionsArg flagsArg root summary Hroot Hrun)].
  intros r Hr. eapply reached_prefix; exact Hr.
Qed.

End EligibilityOfFiles.

(** * The further results on the sample project *)

Lemma miniregex_empty_pattern (f : Flags) (m : MiniRegex.compiledPattern)
    (line : string) :
  parsePattern (Engine := MiniRegex.engine) EmptyString f = inl m ->
  runMatcher (Engine := MiniRegex.engine) m line 0 = Some 0.
Proof.
  cbn. intros [= <-]. unfold MiniRegex.matchAt. cbn.
  now rewrite Nat.sub_diag.
Qed.

Lemma empty_match_line_hangs_search_witness :
  handleRegexSearch (E := MiniRegex.engine) Sample.resolve Sample.fsys
    1000 "x?" "/proj/a.txt" None = None.
Proof.
  generalize 1000.
  eapply (@empty_match_line_hangs_search MiniRegex.engine Sample.resolve
            Sample.fsys "x?" "/proj/a.txt" None "foo bar foo" "foo bar foo");
    try reflexivity.
  - now left.
  - intros i e.
    do 12 (destruct i as [|i]; [vm_compute; intros [= <-]; lia|]).
    vm_compute. discriminate.
Defined.

Lemma search_without_global_witness :
  handleRegexSearch (E := MiniRegex.engine) Sample.resolve Sample.fsys
    1 "zzz" "/proj/a.txt" (Some "i")
  = Some (Content (mkFileSummary "/proj/a.txt" "zzz" "i" 0 [])).
Proof.
  eapply (proj1 (@search_without_global MiniRegex.engine Sample.resolve
                   Sample.fsys "zzz" "/proj/a.txt" (Some "i") "foo bar foo" _
                   eq_refl eq_refl eq_refl eq_refl));
    [vm_compute; reflexivity | lia].
Defined.

Lemma single_file_summary_sound_witness :
  exists text,
    readFileAt Sample.fsys "/proj/a.txt" = Normal text
    /\ StronglySorted lt [1]
    /\ fileTotalMatches
         (mkFileSummary "/proj/a.txt" "foo" "g" 2
            [mkLineResult 1 "foo bar foo" [mkMatch "foo" 1; mkMatch "foo" 9]])
       = 2.
Proof.
  destruct (@single_file_summary_sound MiniRegex.engine Sample.resolve
              Sample.fsys 3 "foo" "/proj/a.txt" None
              (mkFileSummary "/proj/a.txt" "foo" "g" 2
                 [mkLineResult 1 "foo bar foo"
                    [mkMatch "foo" 1; mkMatch "foo" 9]]))
    as (text & Hread & _ & Hsorted & _ & Htotal).
  - vm_compute. reflexivity.
  - exists text. split; [exact Hread|]. split; [exact Hsorted|exact Htotal].
Defined.

Lemma directory_search_without_pattern_witness :
  handleRegexSearchDirectory (E := MiniRegex.engine) Sample.resolve Sample.fsys
    0 "(" "/proj" None None
  = Some (Content (mkDirSummary "/proj" "(" "g" defaultExtensions 0 0 []))
  \/ exists failure,
       Reports.walkFailure Sample.project failure
       /\ handleRegexSearchDirectory (E := MiniRegex.engine) Sample.resolve
            Sample.fsys 0 "(" "/proj" None None
          = Some (IsError ("Error: " ++ failure)).
Proof.
  apply (@directory_search_without_pattern MiniRegex.engine Sample.resolve
           Sample.fsys 0 "(" "/proj"
           "Invalid regular expression: /(/: Unterminated group" None None
           Sample.project);
    reflexivity.
Defined.

Lemma directory_search_failures_witness :
  (Fs.existsSync (Sample.fsys "/proj/a.txt") = false
   /\ "Error: ENOTDIR: not a directory, scandir"
      = ("Directory not found: " ++ "/proj/a.txt")%string)
  \/ (exists root message,
        Sample.fsys "/proj/a.txt" = Some root
        /\ Reports.walkFailure root message
        /\ "Error: ENOTDIR: not a directory, scandir"
           = ("Error: " ++ message)%string).
Proof.
  apply (@directory_search_failures MiniRegex.engine Sample.resolve
           Sample.fsys 3 "foo" "/proj/a.txt" None None
           "Error: ENOTDIR: not a directory, scandir").
  vm_compute. reflexivity.
Defined.

Lemma broken_entry_fails_directory_search_witness :
  handleRegexSearchDirectory (E := MiniRegex.engine) Sample.resolve Broken.fsys
    3 "foo" "/broken" None None
  = Some (IsError ("Error: " ++ Broken.dangling)).
Proof.
  eapply (@broken_entry_fails_directory_search MiniRegex.engine Sample.resolve
            Broken.fsys 3 "foo" "/broken" None None
            [("a.txt", Fs.File (inl "foo"))] [("b.txt", Fs.File (inl "foo"))]
            "dangling" (Fs.NoStat Broken.dangling) Broken.dangling).
  - reflexivity.
  - left. reflexivity.
  - vm_compute. reflexivity.
Defined.

Lemma directory_results_in_walk_order_witness :
  results Sample.fooSummary
  = flat_map (Reports.fileReport (E := MiniRegex.engine) 3 "foo" "g")
      (Reports.eligibleFiles defaultExtensions "/proj" Sample.project).
Proof.
  apply (@directory_results_in_walk_order MiniRegex.engine Sample.resolve
           Sample.fsys 3 "foo" "/proj" None None Sample.project
           Sample.fooSummary);
    vm_compute; reflexivity.
Defined.

Lemma directory_result_is_single_file_search_witness :
  exists text,
    In ("/proj/a.txt", text)
      (Reports.eligibleFiles defaultExtensions "/proj" Sample.project)
    /\ handleRegexSearch (E := MiniRegex.engine) Sample.resolve Sample.fsys
         3 "foo" "/proj/a.txt" None
       = Some (Content (mkFileSummary "/proj/a.txt" "foo" "g" 2
                 [mkLineResult 1 "foo bar foo"
                    [mkMatch "foo" 1; mkMatch "foo" 9]])).
Proof.
  destruct (@directory_result_is_single_file_search MiniRegex.engine
              Sample.resolve Sample.fsys 3 "foo" "/proj" None None
              Sample.project Sample.fooSummary
              (mkFileResult "/proj/a.txt" 2
                 [mkLineResult 1 "foo bar foo"
                    [mkMatch "foo" 1; mkMatch "foo" 9]]))
    as (text & Hin & Hsame).
  - reflexivity.
  - vm_compute. reflexivity.
  - left. reflexivity.
  - exists text. split; [exact Hin|].
    apply (Hsame Sample.resolve Sample.fsys "/proj/a.txt").
    vm_compute in Hin. destruct Hin as [[= <-]|[[=]|[[=]|[]]]].
    reflexivity.
Defined.

Lemma search_returns_without_empty_matches_witness :
  exists summary,
    handleRegexSearch (E := MiniRegex.engine) Sample.resolve Sample.fsys
      12 "foo" "/proj/src/notes.txt" None
    = Some (Content summary).
Proof.
  eapply (proj1 (@search_returns_without_empty_matches MiniRegex.engine
                   Sample.resolve Sample.fsys 12 "foo" "/proj/src/notes.txt"
                   None Sample.notes _ eq_refl eq_refl eq_refl eq_refl _)).
  Unshelve.
  intros line Hin. vm_compute in Hin.
  destruct Hin as [<-|[<-|[<-|[<-|[<-|[<-|[]]]]]]];
    (split; [vm_compute; reflexivity | simpl; lia]).
Defined.

Lemma schema_defaults_are_applied_witness :
  handleRegexSearch (E := MiniRegex.engine) Sample.resolve Sample.fsys
    3 "foo" "/proj/a.txt" None
  = handleRegexSearch (E := MiniRegex.engine) Sample.resolve Sample.fsys
      3 "foo" "/proj/a.txt" (Some "g").
Proof.
  apply (@schema_defaults_are_applied MiniRegex.engine Sample.resolve
           Sample.fsys 3 "foo" "/proj/a.txt" "g" "g"
           [".js"; ".ts"; ".txt"; ".md"; ".json"]);
    reflexivity.
Defined.

Lemma search_without_pattern_witness :
  Tools.handleRegexSearchCall (E := MiniRegex.engine) Sample.resolve
    Sample.fsys 3
    (Some (Tools.mkArguments None (Some "/proj/a.txt") None None None))
  = None
  \/ exists message,
       newRegExp (E := MiniRegex.engine) EmptyString "g" = Throw message
       /\ Tools.handleRegexSearchCall (E := MiniRegex.engine) Sample.resolve
            Sample.fsys 3
            (Some (Tools.mkArguments None (Some "/proj/a.txt") None None None))
          = Some (IsError ("Error: " ++ message)).
Proof.
  apply (@search_without_pattern MiniRegex.engine Sample.resolve Sample.fsys
           3 (Tools.mkArguments None (Some "/proj/a.txt") None None None)
           "/proj/a.txt" "foo bar foo").
  - exact miniregex_empty_pattern.
  - reflexivity.
  - reflexivity.
  - reflexivity.
Defined.

Lemma results_lie_under_the_root_witness :
  directory Sample.fooSummary = "/proj"
  /\ Forall (fun r => String.prefix "/proj" (file r) = true)
       (results Sample.fooSummary).
Proof.
  apply (@results_lie_under_the_root MiniRegex.engine Sample.resolve
           Sample.fsys 3 "foo" "/proj" None None Sample.fooSummary).
  vm_compute. reflexivity.
Defined.

Lemma single_file_failures_witness :
  handleRegexSearch (E := MiniRegex.engine) Sample.resolve Sample.fsys
    3 "foo" "/proj/missing.txt" None
  = Some (IsError "File not found: /proj/missing.txt").
Proof.
  apply (proj2 (@single_file_failures MiniRegex.engine Sample.resolve
                  Sample.fsys 3 "foo" "/proj/missing.txt" None
                  "File not found: /proj/missing.txt")).
  left. split; reflexivity.
Defined.

Lemma call_requests_reach_no_tool_witness :
  Tools.callTool (E := MiniRegex.engine) Sample.resolve Sample.fsys 3
    (Tools.callToolRequest "regex_search"
       (Some (Tools.mkArguments (Some "foo") (Some "/proj/a.txt") None None
                None)))
  = Some (IsError "Unknown tool: undefined").
Proof.
  exact (proj1 (@call_requests_reach_no_tool MiniRegex.engine Sample.resolve
                  Sample.fsys 3 "regex_search"
                  (Some (Tools.mkArguments (Some "foo") (Some "/proj/a.txt")
                           None None None))
                  [])).
Defined.


Lemma dot_file_scanned_by_extension_witness :
  results Sample.fooSummary
  = flat_map (Reports.fileReport (E := MiniRegex.engine) 3 "foo" "g")
      (Reports.eligibleFiles defaultExtensions "/proj"
         (Fs.Dir [ ("a.txt", Fs.File (inl "foo bar foo"));
                   ("b.md",
                    Fs.File
                      (inr "EACCES: permission denied, open '/proj/b.md'")) ]))
    ++ flat_map (Reports.fileReport (E := MiniRegex.engine) 3 "foo" "g")
         (Reports.eligibleFiles defaultExtensions "/proj"
            (Fs.Dir [ ("node_modules",
                       Fs.Dir [ ("dep.js", Fs.File (inl "foo")) ]);
                      ("src", Sample.src) ]))
  /\ results DotFiles.srcSummary
     = flat_map (Reports.fileReport (E := MiniRegex.engine) 3 "foo" "g")
         (Reports.eligibleFiles defaultExtensions "/proj/src" (Fs.Dir []))
       ++ Reports.fileReport (E := MiniRegex.engine) 3 "foo" "g"
            ("/proj/src/.hidden.js", "x" ++ Sample.LF ++ "foo")%string
       ++ flat_map (Reports.fileReport (E := MiniRegex.engine) 3 "foo" "g")
            (Reports.eligibleFiles defaultExtensions "/proj/src"
               (Fs.Dir [ DotFiles.dotJs; DotFiles.notesTxt ]))
  /\ results DotFiles.srcSummary
     = flat_map (Reports.fileReport (E := MiniRegex.engine) 3 "foo" "g")
         (Reports.eligibleFiles defaultExtensions "/proj/src"
            (Fs.Dir [ DotFiles.hiddenJs ]))
       ++ []
       ++ flat_map (Reports.fileReport (E := MiniRegex.engine) 3 "foo" "g")
            (Reports.eligibleFiles defaultExtensions "/proj/src"
               (Fs.Dir [ DotFiles.notesTxt ])).
Proof.
  split; [|split].
  - refine (proj1 (@dot_file_scanned_by_extension MiniRegex.engine
                     Sample.resolve Sample.fsys 3 "foo" "/proj" None None
                     [ ("a.txt", Fs.File (inl "foo bar foo"));
                       ("b.md",
                        Fs.File
                          (inr "EACCES: permission denied, open '/proj/b.md'")) ]
                     [ ("node_modules",
                        Fs.Dir [ ("dep.js", Fs.File (inl "foo")) ]);
                       ("src", Sample.src) ]
                     ".git"
                     (Fs.Dir [ ("config.json", Fs.File (inl "foo")) ])
                     Sample.fooSummary eq_refl eq_refl _)
              (Fs.mkStats true false) eq_refl eq_refl).
    vm_compute. reflexivity.
  - destruct (@dot_file_scanned_by_extension MiniRegex.engine
                Sample.resolve Sample.fsys 3 "foo" "/proj/src" None None
                [] [ DotFiles.dotJs; DotFiles.notesTxt ] ".hidden.js"
                (snd DotFiles.hiddenJs) DotFiles.srcSummary eq_refl eq_refl)
      as (_ & _ & _ & _ & Hhidden & _).
    + vm_compute. reflexivity.
    + exact (Hhidden _ eq_refl eq_refl eq_refl).
  - destruct (@dot_file_scanned_by_extension MiniRegex.engine
                Sample.resolve Sample.fsys 3 "foo" "/proj/src" None None
                [ DotFiles.hiddenJs ] [ DotFiles.notesTxt ] ".js"
                (snd DotFiles.dotJs) DotFiles.srcSummary eq_refl eq_refl)
      as (_ & _ & _ & _ & _ & Hjs).
    + vm_compute. reflexivity.
    + exact (Hjs _ eq_refl eq_refl).
Defined.

(** With the empty string as the one accepted extension, the search of
    [/proj/src] reports the file named [.js], and no other. *)
Lemma dot_js_scanned_under_empty_extension :
  handleRegexSearchDirectory (E := MiniRegex.engine) Sample.resolve Sample.fsys
    3 "foo" "/proj/src" (Some [EmptyString]) None
  = Some (Content DotFiles.emptyExtensionSummary)
  /\ map file (results DotFiles.emptyExtensionSummary) = ["/proj/src/.js"].
Proof. split; vm_compute; reflexivity. Qed.
